(** * ACER (baselines/acer/acer_simple.py): a shallow embedding

    Tensors are lists (nested lists for higher ranks).  Floating-point
    numbers are idealised as real numbers: rounding and overflow of float32
    are outside this development.  Python exceptions are the [Err] results of
    a small error monad. *)

From Stdlib Require Import ZArith QArith Reals Lra Lia Bool Arith List.
From Stdlib Require String.
Import String.StringSyntax.
Delimit Scope string_scope with string.
Import ListNotations.

Open Scope R_scope.

(** ** Python exceptions as an error monad *)

Inductive exn : Type :=
| ValueError
| AssertionError
| IndexError
| TypeError
| AttributeError
| ZeroDivisionError.

Inductive result (A : Type) : Type :=
| Ok (a : A)
| Err (e : exn).

Arguments Ok {A} a.
Arguments Err {A} e.

Definition bind {A B : Type} (m : result A) (k : A -> result B) : result B :=
  match m with
  | Ok a => k a
  | Err e => Err e
  end.

Notation "x <- m ;; k" := (bind m (fun x => k))
  (at level 61, m at next level, right associativity).
Notation "m ;;; k" := (bind m (fun _ => k))
  (at level 61, right associativity).

(** ** Elementwise tensor arithmetic on rank-1 tensors *)

Fixpoint map2 {A B C : Type} (f : A -> B -> C) (xs : list A) (ys : list B) : list C :=
  match xs, ys with
  | x :: xs', y :: ys' => f x y :: map2 f xs' ys'
  | _, _ => []
  end.

Definition vadd : list R -> list R -> list R := map2 Rplus.
Definition vsub : list R -> list R -> list R := map2 Rminus.
Definition vmul : list R -> list R -> list R := map2 Rmult.
Definition vscale (c : R) : list R -> list R := map (Rmult c).
Definition vrsub (c : R) : list R -> list R := map (Rminus c).

Fixpoint rsum (xs : list R) : R :=
  match xs with
  | [] => 0
  | x :: xs' => x + rsum xs'
  end.

(** [tf.reduce_mean] of a rank-1 tensor. *)
Definition reduce_mean (xs : list R) : R := rsum xs / INR (length xs).

(** Python's [l[i]] for [0 <= i]. *)
Definition index {A : Type} (l : list A) (i : nat) : result A :=
  match nth_error l i with
  | Some x => Ok x
  | None => Err IndexError
  end.

(** Python's [l[-1]]. *)
Definition index_last {A : Type} (l : list A) : result A :=
  match rev l with
  | x :: _ => Ok x
  | [] => Err IndexError
  end.

(** ** Helpers of baselines.a2c.utils used by [q_retrace] *)

(** Modelled from the spec: [batch_to_seq] of baselines.a2c.utils (not in the
    sources at hand), with [flat=True].  A flat batch of [n_batch * n_steps]
    scalars laid out environment-major (entry [e * n_steps + t] is step [t] of
    environment [e]) becomes a list of [n_steps] tensors of shape [n_batch].
    A batch of another size cannot be reshaped. *)
Definition batch_to_seq (tensor_batch : list R) (n_batch n_steps : nat)
  : result (list (list R)) :=
  if Nat.eqb (length tensor_batch) (n_batch * n_steps) then
    Ok (map (fun t => map (fun e => nth (e * n_steps + t) tensor_batch 0)
                          (seq 0 n_batch))
            (seq 0 n_steps))
  else Err ValueError.

(** Modelled from the spec: [seq_to_batch] of baselines.a2c.utils (not in the
    sources at hand), with [flat=True]: the inverse layout change, a list of
    per-step tensors of one shape [n_batch] is flattened back to the
    environment-major batch. *)
Definition seq_to_batch (tensor_sequence : list (list R)) : result (list R) :=
  let n_batch := length (hd [] tensor_sequence) in
  if forallb (fun v => Nat.eqb (length v) n_batch) tensor_sequence then
    Ok (flat_map (fun e => map (fun v => nth e v 0) tensor_sequence)
                 (seq 0 n_batch))
  else Err ValueError.

(** Modelled from the spec: [check_shape] of baselines.a2c.utils (not in the
    sources at hand), here for rank-1 tensors that must all have shape
    [[n]]: a mismatch fails fast. *)
Definition check_shape (tensors : list (list R)) (n : nat) : result unit :=
  if forallb (fun v => Nat.eqb (length v) n) tensors then Ok tt
  else Err AssertionError.

(** ** q_retrace (acer_simple.py, lines 28-57) *)

Section QRetrace.
Variables (n_envs : nat) (gamma : R).
Variables (rho_bar reward_seq done_seq q_is value_sequence : list (list R)).

(** The body of [for i in range(n_steps - 1, -1, -1)], iterated from
    [i = k - 1] down to [0]. *)
Fixpoint retrace_loop (k : nat) (qret : list R) (qrets : list (list R))
  : result (list R * list (list R)) :=
  match k with
  | O => Ok (qret, qrets)
  | S i =>
      done_i <- index done_seq i ;;
      reward_i <- index reward_seq i ;;
      rho_bar_i <- index rho_bar i ;;
      q_is_i <- index q_is i ;;
      value_i <- index value_sequence i ;;
      check_shape [qret; done_i; reward_i; rho_bar_i; q_is_i; value_i] n_envs ;;;
      let qret1 := vadd reward_i (vmul (vscale gamma qret) (vrsub 1 done_i)) in
      let qrets1 := qrets ++ [qret1] in
      let qret2 := vadd (vmul rho_bar_i (vsub qret1 q_is_i)) value_i in
      retrace_loop i qret2 qrets1
  end.
End QRetrace.

Definition q_retrace (rewards dones q_i values rho_i : list R)
           (n_envs n_steps : nat) (gamma : R) : result (list R) :=
  rho_bar <- batch_to_seq (map (Rmin 1) rho_i) n_envs n_steps ;;
  reward_seq <- batch_to_seq rewards n_envs n_steps ;;
  done_seq <- batch_to_seq dones n_envs n_steps ;;
  q_is <- batch_to_seq q_i n_envs n_steps ;;
  value_sequence <- batch_to_seq values n_envs (n_steps + 1) ;;
  final_value <- index_last value_sequence ;;
  st <- retrace_loop n_envs gamma rho_bar reward_seq done_seq q_is value_sequence
                     n_steps final_value [] ;;
  seq_to_batch (rev (snd st)).

(** *** The backward recursion of the specification, for one environment *)

(** One trajectory step: reward, done flag, Q-value of the action taken,
    value, importance ratio. *)
Record step_data : Type := mk_step
  { s_reward : R; s_done : R; s_q : R; s_value : R; s_rho : R }.

(** Follows the words of the specification: starting from the bootstrap
    value, for [i] from the last step down to the first,
    [target[i] = reward[i] + gamma * qret * (1 - done[i])] and the carried
    [qret] becomes [min(1, rho[i]) * (target[i] - q_i[i]) + value[i]].
    Returns the targets and the last carried [qret]. *)
Fixpoint retrace_spec (gamma : R) (steps : list step_data) (bootstrap : R)
  : list R * R :=
  match steps with
  | [] => ([], bootstrap)
  | s :: rest =>
      let '(targets, qret) := retrace_spec gamma rest bootstrap in
      let target := s_reward s + gamma * qret * (1 - s_done s) in
      (target :: targets, Rmin 1 (s_rho s) * (target - s_q s) + s_value s)
  end.

(** Step [i] of environment [e] in the flat batch layout ([values] has
    [n_steps + 1] entries per environment). *)
Definition step_of (rewards dones q_i values rho_i : list R) (n_steps e i : nat)
  : step_data :=
  mk_step (nth (e * n_steps + i) rewards 0)
          (nth (e * n_steps + i) dones 0)
          (nth (e * n_steps + i) q_i 0)
          (nth (e * (n_steps + 1) + i) values 0)
          (nth (e * n_steps + i) rho_i 0).

Definition env_steps (rewards dones q_i values rho_i : list R) (n_steps e : nat)
           (from len : nat) : list step_data :=
  map (step_of rewards dones q_i values rho_i n_steps e) (seq from len).

Definition env_bootstrap (values : list R) (n_steps e : nat) : R :=
  nth (e * (n_steps + 1) + n_steps) values 0.

Definition retrace_targets (rewards dones q_i values rho_i : list R)
           (n_envs n_steps : nat) (gamma : R) : list R :=
  flat_map (fun e => fst (retrace_spec gamma
                            (env_steps rewards dones q_i values rho_i n_steps e 0 n_steps)
                            (env_bootstrap values n_steps e)))
           (seq 0 n_envs).



(** ** Loss and gradient assembly (ACER.setup_model, lines 178-254) *)

(** [eps = 1e-6] *)
Definition eps : R := 1 / 1000000.

(** Rank-2 tensors [[n_envs * n_steps, n_act]] are lists of rows. *)
Definition t_add_scalar (t : list (list R)) (c : R) : list (list R) :=
  map (map (fun x => x + c)) t.
Definition t_div (a b : list (list R)) : list (list R) := map2 (map2 Rdiv) a b.
Definition t_mul (a b : list (list R)) : list (list R) := map2 (map2 Rmult) a b.
Definition t_neg (a : list (list R)) : list (list R) := map (map Ropp) a.
Definition t_square (a : list (list R)) : list (list R) := map (map (fun x => x * x)) a.

(** [tf.reduce_sum(t, axis=-1)] *)
Definition reduce_sum_last (t : list (list R)) : list R := map rsum t.

Definition tensor_forall (P : R -> Prop) (t : list (list R)) : Prop :=
  Forall (Forall P) t.

(** [rho = distribution_f / (self.mu_ph + eps)] (line 191) *)
Definition rho_denominator (mu : list (list R)) : list (list R) := t_add_scalar mu eps.
Definition rho (distribution_f mu : list (list R)) : list (list R) :=
  t_div distribution_f (rho_denominator mu).

(** [self.correction_term / (rho + eps)] (line 218) *)
Definition bc_denominator (rho_t : list (list R)) : list (list R) := t_add_scalar rho_t eps.
Definition bc_ratio (correction_term : R) (rho_t : list (list R)) : list (list R) :=
  map (map (Rdiv correction_term)) (bc_denominator rho_t).

(** [kl_grad = - f_polyak / (distribution_f + eps)] (line 241) *)
Definition kl_grad_denominator (distribution_f : list (list R)) : list (list R) :=
  t_add_scalar distribution_f eps.
Definition kl_grad (f_polyak distribution_f : list (list R)) : list (list R) :=
  t_div (t_neg f_polyak) (kl_grad_denominator distribution_f).

(** [k_dot_g = tf.reduce_sum(kl_grad * grad, axis=-1)] (line 242) *)
Definition k_dot_g (kl grad : list (list R)) : list R :=
  reduce_sum_last (t_mul kl grad).

(** [tf.reduce_sum(tf.square(kl_grad), axis=-1) + eps] (line 244) *)
Definition adj_denominator (kl : list (list R)) : list R :=
  map (fun s => s + eps) (reduce_sum_last (t_square kl)).

(** [adj = tf.maximum(0.0, (tf.reduce_sum(kl_grad * grad, axis=-1) - self.delta)
                           / (tf.reduce_sum(tf.square(kl_grad), axis=-1) + eps))]
    (lines 243-244) *)
Definition adj (kl grad : list (list R)) (delta : R) : list R :=
  map (Rmax 0)
      (map2 Rdiv (map (fun s => s - delta) (reduce_sum_last (t_mul kl grad)))
                 (adj_denominator kl)).

(** [grad = grad - tf.reshape(adj, [n_envs * n_steps, 1]) * kl_grad] (line 252):
    row [r] of [kl_grad] is scaled by [adj[r]]. *)
Definition grad_adjusted (grad : list (list R)) (adj_t : list R) (kl : list (list R))
  : list (list R) :=
  map2 vsub grad (map2 vscale adj_t kl).

(** The trust-region branch up to the adjusted gradient (lines 241-252),
    from the gradient [grad] of the policy objective with respect to
    [distribution_f] (the result of [tf.gradients], line 239). *)
Definition trust_region_grad (f_polyak distribution_f grad : list (list R)) (delta : R)
  : list (list R) :=
  let kl := kl_grad f_polyak distribution_f in
  grad_adjusted grad (adj kl grad delta) kl.

(** *** Values with gradients

    The policy loss is differentiated by TensorFlow.  A scalar of the graph
    is modelled together with its derivative along one direction of the
    trainable parameters, so that [tf.stop_gradient] (identity on the value,
    zero derivative) has its meaning. *)
Record dual : Type := mk_dual { val : R; tan : R }.

Definition d_sub (x y : dual) : dual := mk_dual (val x - val y) (tan x - tan y).
Definition d_mul (x y : dual) : dual :=
  mk_dual (val x * val y) (tan x * val y + val x * tan y).
Definition d_neg (x : dual) : dual := mk_dual (- val x) (- tan x).
Definition d_add_const (x : dual) (c : R) : dual := mk_dual (val x + c) (tan x).
(** [tf.log] *)
Definition d_log (x : dual) : dual := mk_dual (ln (val x)) (tan x / val x).
(** [tf.minimum(c, x)] for a constant [c]: the gradient flows to [x] only
    where [x] is the smaller argument. *)
Definition d_min_const (c : R) (x : dual) : dual :=
  mk_dual (Rmin c (val x)) (if Rle_dec c (val x) then 0 else tan x).
Definition stop_gradient (x : dual) : dual := mk_dual (val x) 0.
Definition d_reduce_mean (xs : list dual) : dual :=
  mk_dual (reduce_mean (map val xs)) (reduce_mean (map tan xs)).

(** Truncated importance sampling (lines 206-210):
    [adv = qret - value], [log_f = tf.log(f_i + eps)],
    [gain_f = log_f * tf.stop_gradient(adv * tf.minimum(self.correction_term, rho_i))],
    [loss_f = -tf.reduce_mean(gain_f)]. *)
Definition adv (qret value : list dual) : list dual := map2 d_sub qret value.
Definition log_f (f_i : list dual) : list dual :=
  map (fun f => d_log (d_add_const f eps)) f_i.
Definition gain_coefficient (correction_term : R) (qret value rho_i : list dual)
  : list dual :=
  map stop_gradient
      (map2 d_mul (adv qret value) (map (d_min_const correction_term) rho_i)).
Definition gain_f (correction_term : R) (qret value rho_i f_i : list dual) : list dual :=
  map2 d_mul (log_f f_i) (gain_coefficient correction_term qret value rho_i).
Definition loss_f (correction_term : R) (qret value rho_i f_i : list dual) : dual :=
  d_neg (d_reduce_mean (gain_f correction_term qret value rho_i f_i)).

(** The zero of the graph's scalars, the default of out-of-range reads. *)
Definition d_zero : dual := mk_dual 0 0.

(** A rank-2 tensor of shape [[n, m]]. *)
Definition shape (t : list (list R)) (n m : nat) : Prop :=
  length t = n /\ Forall (fun row => length row = m) t.

(** ** Frame stacking (_Runner.update_obs, lines 474-484) *)

(** Stacked observations are uint8 arrays of shape
    [[n_env, height, width, channels]]. *)
Definition uint8 (x : Z) : Z := (x mod 256)%Z.

(** [dones.astype(np.uint8)] *)
Definition bool_to_uint8 (b : bool) : Z := if b then 1%Z else 0%Z.

(** [np.roll(a, shift)] along one axis: the entry at [i] moves to
    [(i + shift) mod n]. *)
Definition np_roll (shift : Z) (l : list Z) : list Z :=
  map (fun j => nth (Z.to_nat ((Z.of_nat j - shift) mod Z.of_nat (length l))) l 0%Z)
      (seq 0 (length l)).

(** [a[-c:] = v] along one axis of a uint8 array (the slice [-c:] starts at
    [len(a) - c], and at [0] when [c = 0]); [v] is taken to have as many
    entries as the slice. *)
Definition set_last (c : nat) (l v : list Z) : list Z :=
  firstn (if Nat.eqb c 0 then 0 else length l - c) l ++ map uint8 v.

(** [self.obs *= (1 - dones.astype(np.uint8))[:, None, None, None]] *)
Definition mask_done (self_obs : list (list (list (list Z)))) (dones : list bool)
  : list (list (list (list Z))) :=
  map2 (fun env_obs done =>
          map (map (map (fun x => uint8 (x * uint8 (1 - bool_to_uint8 done))))) env_obs)
       self_obs dones.

Definition update_obs (num_channels : nat) (self_obs obs : list (list (list (list Z))))
           (dones : option (list bool)) : list (list (list (list Z))) :=
  let masked := match dones with
                | Some d => mask_done self_obs d
                | None => self_obs
                end in
  let rolled := map (map (map (np_roll (- Z.of_nat num_channels)))) masked in
  map2 (map2 (map2 (set_last num_channels))) rolled obs.

(** The channel vector of one pixel of one environment. *)
Definition pixel (t : list (list (list (list Z)))) (e h w : nat) : list Z :=
  nth w (nth h (nth e t []) []) [].

(** ** Rollout collection (_Runner.run, lines 486-525) *)

(** [np.asarray(rows).swapaxes(1, 0)]: [rows] has shape [[time, n_env, ...]],
    the result has shape [[n_env, time, ...]]. *)
Fixpoint swapaxes {A : Type} (n_env : nat) (rows : list (list A)) : list (list A) :=
  match rows with
  | [] => repeat [] n_env
  | r :: rs => map2 cons r (swapaxes n_env rs)
  end.

(** [np.split(a, nstack, axis=3)] *)
Definition np_split_axis3 (a : list (list (list (list Z)))) (nstack : nat)
  : list (list (list (list (list Z)))) :=
  map (fun k => map (map (map (fun px =>
                  firstn (length px / nstack) (skipn (k * (length px / nstack)) px)))) a)
      (seq 0 nstack).

Section Runner.
Variables (Action Mus State EnvSt : Type).
Variables (n_env n_steps nstack num_channels : nat).

(** [env.step(actions)] returns observations, rewards and done flags (the
    info dictionary is dropped by [run]). *)
Variable env_step :
  EnvSt -> list Action -> list (list (list (list Z))) * list R * list bool * EnvSt.

(** [model.step(obs, state=..., mask=...)] returns actions, behaviour
    probabilities and the next recurrent state. *)
Variable model_step :
  list (list (list (list Z))) -> State -> list bool -> list Action * list Mus * State.

(** The attributes of the runner that [run] reads and writes. *)
Record runner : Type := mk_runner
  { r_obs : list (list (list (list Z)));
    r_states : State;
    r_dones : list bool;
    r_env : EnvSt }.

(** The lists filled by the loop of [run]. *)
Record minibatch : Type := mk_minibatch
  { enc_obs : list (list (list (list (list Z))));
    mb_obs : list (list (list (list (list Z))));
    mb_actions : list (list Action);
    mb_mus : list (list Mus);
    mb_dones : list (list bool);
    mb_rewards : list (list R) }.

(** [for _ in range(self.n_steps)] (lines 495-507) *)
Fixpoint run_loop (n : nat) (self : runner) (mb : minibatch) : runner * minibatch :=
  match n with
  | O => (self, mb)
  | S n' =>
      let '(actions, mus, states) := model_step (r_obs self) (r_states self) (r_dones self) in
      let '(obs, rewards, dones, env') := env_step (r_env self) actions in
      let self' := mk_runner (update_obs num_channels (r_obs self) obs (Some dones))
                             states dones env' in
      run_loop n' self'
               (mk_minibatch (enc_obs mb ++ [obs])
                             (mb_obs mb ++ [r_obs self])
                             (mb_actions mb ++ [actions])
                             (mb_mus mb ++ [mus])
                             (mb_dones mb ++ [r_dones self])
                             (mb_rewards mb ++ [rewards]))
  end.

(** The tuple returned by [run]. *)
Record rollout : Type := mk_rollout
  { out_enc_obs : list (list (list (list (list Z))));
    out_obs : list (list (list (list (list Z))));
    out_actions : list (list Action);
    out_rewards : list (list R);
    out_mus : list (list Mus);
    out_dones : list (list bool);
    out_masks : list (list bool) }.

Definition run (self : runner) : rollout * runner :=
  let '(self', mb) :=
    run_loop n_steps self
             (mk_minibatch (np_split_axis3 (r_obs self) nstack) [] [] [] [] []) in
  let mb_obs1 := mb_obs mb ++ [r_obs self'] in
  let mb_dones1 := mb_dones mb ++ [r_dones self'] in
  let mb_dones2 := swapaxes n_env mb_dones1 in
  let mb_masks := mb_dones2 in
  let mb_dones3 := map (skipn 1) mb_dones2 in
  (mk_rollout (swapaxes n_env (enc_obs mb))
              (swapaxes n_env mb_obs1)
              (swapaxes n_env (mb_actions mb))
              (swapaxes n_env (mb_rewards mb))
              (swapaxes n_env (mb_mus mb))
              mb_dones3
              mb_masks,
   self').

(** What the successive calls of [env.step] in the loop of [run] return. *)
Fixpoint step_results (n : nat) (self : runner)
  : list (list (list (list (list Z))) * list R * list bool) :=
  match n with
  | O => []
  | S n' =>
      let '(actions, mus, states) := model_step (r_obs self) (r_states self) (r_dones self) in
      let '(obs, rewards, dones, env') := env_step (r_env self) actions in
      (obs, rewards, dones)
        :: step_results n' (mk_runner (update_obs num_channels (r_obs self) obs (Some dones))
                                      states dones env')
  end.
End Runner.

Arguments r_obs {State EnvSt} _.
Arguments r_states {State EnvSt} _.
Arguments r_dones {State EnvSt} _.
Arguments r_env {State EnvSt} _.
Arguments mk_runner {State EnvSt} _ _ _ _.
Arguments out_dones {Action Mus} _.
Arguments out_masks {Action Mus} _.
Arguments out_rewards {Action Mus} _.

(** Well-formed uint8 arrays of shape [[n_env, height, width, channels]]. *)
Definition is_uint8 (x : Z) : Prop := (0 <= x < 256)%Z.

Definition has_shape (t : list (list (list (list Z)))) (n_env height width channels : nat)
  : Prop :=
  length t = n_env
  /\ Forall (fun image =>
       length image = height
       /\ Forall (fun row =>
            length row = width
            /\ Forall (fun px => length px = channels /\ Forall is_uint8 px) row)
          image)
     t.

Arguments run_loop {Action Mus State EnvSt} _ _ _ _ _ _.
Arguments step_results {Action Mus State EnvSt} _ _ _ _ _.
Arguments run {Action Mus State EnvSt} _ _ _ _ _ _ _.
Arguments mb_dones {Action Mus} _.
Arguments mb_rewards {Action Mus} _.

(** A one-environment, one-step rollout whose only [env.step] call reports
    the end of the episode. *)
Definition ending_env_step (_ : unit) (_ : list unit)
  : list (list (list (list Z))) * list R * list bool * unit :=
  ([[[[0%Z]]]], [1], [true], tt).

Definition constant_model_step (_ : list (list (list (list Z)))) (_ : unit) (_ : list bool)
  : list unit * list unit * unit :=
  ([tt], [tt], tt).

Definition fresh_runner : runner unit unit :=
  mk_runner [[[[0%Z]]]] tt [false] tt.

(** ** The training op (setup_model, lines 164-166 and 269-275)

    TensorFlow builds a graph of operations.  An operation gets as control
    inputs the ones it is given and those of the [tf.control_dependencies]
    contexts that are open when it is constructed; operations constructed
    before a context is opened are not changed by it.  [session.run] executes
    the operations the fetched one depends on, in any order in which every
    operation comes after its control inputs. *)

Inductive op : Type :=
| EmaApplyOp   (* ema_apply_op = ema.apply(self.params) *)
| OptOp        (* _opt_op = trainer.apply_gradients(grads) *)
| TrainOp.     (* _train = tf.group(ema_apply_op) *)

Definition op_eqb (a b : op) : bool :=
  match a, b with
  | EmaApplyOp, EmaApplyOp | OptOp, OptOp | TrainOp, TrainOp => true
  | _, _ => false
  end.

Record graph : Type := mk_graph
  { g_ops : list (op * list op);      (* operations with their control inputs *)
    g_context : list op }.            (* open control_dependencies contexts *)

Definition empty_graph : graph := mk_graph [] [].

Definition create_op (o : op) (inputs : list op) (g : graph) : graph :=
  mk_graph (g_ops g ++ [(o, inputs ++ g_context g)]) (g_context g).

(** [with tf.control_dependencies(deps): body] *)
Definition with_control_dependencies (deps : list op) (body : graph -> graph)
           (g : graph) : graph :=
  let g' := body (mk_graph (g_ops g) (deps ++ g_context g)) in
  mk_graph (g_ops g') (g_context g).

(** The three operations in the order in which [setup_model] constructs
    them: line 166, line 271, lines 274-275. *)
Definition setup_model_graph : graph :=
  let g1 := create_op EmaApplyOp [] empty_graph in
  let g2 := create_op OptOp [] g1 in
  with_control_dependencies [OptOp] (create_op TrainOp [EmaApplyOp]) g2.

Definition control_inputs (g : graph) (o : op) : list op :=
  match find (fun n => op_eqb (fst n) o) (g_ops g) with
  | Some n => snd n
  | None => []
  end.

Definition op_mem (o : op) (l : list op) : bool := existsb (op_eqb o) l.

(** [respects g ran sched]: each operation of [sched] runs once, after its
    control inputs. *)
Fixpoint respects (g : graph) (ran sched : list op) : bool :=
  match sched with
  | [] => true
  | o :: rest =>
      forallb (fun i => op_mem i ran) (control_inputs g o)
      && negb (op_mem o ran)
      && respects g (o :: ran) rest
  end.

(** An execution order that [session.run(fetch)] may take. *)
Definition valid_schedule (g : graph) (fetch : op) (sched : list op) : bool :=
  respects g [] sched && op_mem fetch sched.

(** The variables of the session: live parameters and their shadow
    (Polyak) averages. *)
Record variables : Type := mk_variables { live : list R; shadow : list R }.

(** The effect of one operation.  The optimizer replaces the live
    parameters by [opt_update live]; the moving average
    ([tf.train.ExponentialMovingAverage(alpha)]) assigns
    [shadow -= (1 - alpha) * (shadow - live)]. *)
Definition exec_op (alpha : R) (opt_update : list R -> list R) (o : op)
           (v : variables) : variables :=
  match o with
  | OptOp => mk_variables (opt_update (live v)) (shadow v)
  | EmaApplyOp =>
      mk_variables (live v)
                   (map2 (fun s p => s - (1 - alpha) * (s - p)) (shadow v) (live v))
  | TrainOp => v
  end.

Definition run_schedule (alpha : R) (opt_update : list R -> list R)
           (sched : list op) (v : variables) : variables :=
  fold_left (fun v o => exec_op alpha opt_update o v) sched v.

(** What the specification asks of one training step. *)
Definition polyak_after_step (alpha : R) (opt_update : list R -> list R)
           (v : variables) : list R :=
  map2 (fun s p => alpha * s + (1 - alpha) * p) (shadow v) (opt_update (live v)).

(** ** The ACER object: setup_model, _train_step, predict, action_probability *)

(** The tensors that [sess.run] is asked to fetch. *)
Inductive fetch : Type :=
| F_train | F_loss | F_loss_q | F_entropy | F_loss_policy | F_loss_f | F_loss_bc
| F_explained_variance | F_norm_grads
| F_norm_grads_q | F_norm_grads_policy | F_avg_norm_grads_f | F_avg_norm_k
| F_avg_norm_g | F_avg_norm_k_dot_g | F_avg_norm_adj.

Section Acer.
Variables (Obs Actions Proba State Batch : Type).

(** A step function: observation, recurrent state, mask to actions,
    behaviour probabilities and next state. *)
Definition step_fn : Type :=
  Obs -> option State -> list bool -> result (Actions * Proba * State).

(** An instance of the policy class, as [setup_model] uses it. *)
Record policy_instance : Type := mk_policy_instance
  { inst_step : step_fn;
    inst_initial_state : State }.

(** The policy class given to the constructor: calling it builds an
    instance (the argument is the number of steps of the instance), and the
    class object may or may not have an attribute named [step] of its own. *)
Record policy_class : Type := mk_policy_class
  { construct : nat -> policy_instance;
    class_attr_step : option step_fn }.

(** The attributes of an ACER object that the methods below use; those that
    [__init__] sets to [None] are options. *)
Record acer : Type := mk_acer
  { policy : policy_class;
    n_envs : nat;
    n_steps : nat;
    trust_region : bool;
    max_grad_norm : option R;
    run_ops : option (list fetch);
    names_ops : option (list String.string);
    step : option step_fn;
    initial_state : option State;
    reshape_observation : Obs -> result Obs }.

(** [__init__] with [_init_setup_model=False]. *)
Definition init (pol : policy_class) (envs steps : nat) (tr : bool) (mgn : option R)
           (reshape : Obs -> result Obs) : acer :=
  mk_acer pol envs steps tr mgn None None None None reshape.

(** The end of [setup_model] (lines 265-291): [norm_grads] is set when
    [max_grad_norm] is, the assertion of line 278, the lists of line 279-281
    that are stored on the object inside [if self.trust_region:] only, and
    the step function and initial state of [step_model]. *)
Definition setup_model (self : acer) : result acer :=
  let step_model := construct (policy self) 1 in
  let norm_grads := match max_grad_norm self with
                    | Some _ => Some F_norm_grads
                    | None => None
                    end in
  match norm_grads with
  | None => Err AssertionError
  | Some norm_grads =>
      let run_ops_local :=
        [F_train; F_loss; F_loss_q; F_entropy; F_loss_policy; F_loss_f; F_loss_bc;
         F_explained_variance; norm_grads] in
      let names_ops_local :=
        ["loss"; "loss_q"; "entropy"; "loss_policy"; "loss_f"; "loss_bc";
         "explained_variance"; "norm_grads"]%string in
      let '(self_run_ops, self_names_ops) :=
        if trust_region self then
          (Some (run_ops_local
                 ++ [F_norm_grads_q; F_norm_grads_policy; F_avg_norm_grads_f;
                     F_avg_norm_k; F_avg_norm_g; F_avg_norm_k_dot_g; F_avg_norm_adj]),
           Some (names_ops_local
                 ++ ["norm_grads_q"; "norm_grads_policy"; "avg_norm_grads_f";
                     "avg_norm_k"; "avg_norm_g"; "avg_norm_k_dot_g";
                     "avg_norm_adj"]%string))
        else (run_ops self, names_ops self) in
      Ok (mk_acer (policy self) (n_envs self) (n_steps self) (trust_region self)
                  (max_grad_norm self) self_run_ops self_names_ops
                  (Some (inst_step step_model))
                  (Some (inst_initial_state step_model))
                  (reshape_observation self))
  end.

(** [__init__] with [_init_setup_model=True]. *)
Definition new_acer (pol : policy_class) (envs steps : nat) (tr : bool) (mgn : option R)
           (reshape : Obs -> result Obs) : result acer :=
  setup_model (init pol envs steps tr mgn reshape).

(** [self.sess.run(fetches, td_map)]: a list of fetches gives the list of
    their values, [None] is not a fetch. *)
Definition sess_run (eval : Batch -> fetch -> R) (fetches : option (list fetch))
           (td_map : Batch) : result (list R) :=
  match fetches with
  | Some fs => Ok (map (eval td_map) fs)
  | None => Err TypeError
  end.

(** [_train_step] (lines 309-319): the feed dictionary is the batch. *)
Definition _train_step (eval : Batch -> fetch -> R) (self : acer) (td_map : Batch)
  : result (option (list String.string) * list R) :=
  let names := names_ops self in
  values <- sess_run eval (run_ops self) td_map ;;
  Ok (names, skipn 1 values).

(** [state] and [mask] default to the initial state and to an all-False
    mask (lines 390-393 and 400-403). *)
Definition default_state (self : acer) (state : option State) : option State :=
  match state with
  | Some s => Some s
  | None => initial_state self
  end.

Definition default_mask (self : acer) (mask : option (list bool)) : list bool :=
  match mask with
  | Some m => m
  | None => repeat false (n_envs self)
  end.

(** [self.policy.step(observation, state, mask)]: the attribute [step] is
    looked up on [self.policy], the class. *)
Definition call_policy_step (self : acer) (observation : Obs) (state : option State)
           (mask : list bool) : result (Actions * Proba * State) :=
  match class_attr_step (policy self) with
  | None => Err AttributeError
  | Some f => f observation state mask
  end.

Definition predict (self : acer) (observation : Obs) (state : option State)
           (mask : option (list bool)) : result (Actions * State) :=
  let state := default_state self state in
  let mask := default_mask self mask in
  observation <- reshape_observation self observation ;;
  r <- call_policy_step self observation state mask ;;
  let '(actions, _, states) := r in
  Ok (actions, states).

Definition action_probability (self : acer) (observation : Obs) (state : option State)
           (mask : option (list bool)) : result Proba :=
  let state := default_state self state in
  let mask := default_mask self mask in
  observation <- reshape_observation self observation ;;
  r <- call_policy_step self observation state mask ;;
  let '(_, proba, _) := r in
  Ok proba.

(** Follows the words of the specification: the step function of the
    model, which [setup_model] stores in [self.step] (line 290) and which
    [_Runner.run] calls (line 496). *)
Definition call_model_step (self : acer) (observation : Obs) (state : option State)
           (mask : list bool) : result (Actions * Proba * State) :=
  match step self with
  | Some f => f observation state mask
  | None => Err TypeError
  end.
End Acer.

Arguments mk_policy_instance {Obs Actions Proba State} _ _.
Arguments mk_policy_class {Obs Actions Proba State} _ _.
Arguments new_acer {Obs Actions Proba State} _ _ _ _ _ _.
Arguments init {Obs Actions Proba State} _ _ _ _ _ _.
Arguments setup_model {Obs Actions Proba State} _.
Arguments _train_step {Obs Actions Proba State Batch} _ _ _.
Arguments predict {Obs Actions Proba State} _ _ _ _.
Arguments action_probability {Obs Actions Proba State} _ _ _ _.
Arguments call_model_step {Obs Actions Proba State} _ _ _ _.
Arguments step {Obs Actions Proba State} _.
Arguments initial_state {Obs Actions Proba State} _.
Arguments n_envs {Obs Actions Proba State} _.
Arguments policy {Obs Actions Proba State} _.

(** A policy class in the style of the ACER policies: the step function is
    a closure that the constructor stores on the instance, the class object
    itself has no attribute [step].  Observations and states are trivial,
    the action is 7 and the behaviour probability 1. *)
Definition closure_policy : policy_class unit nat nat unit :=
  mk_policy_class
    (fun _ => mk_policy_instance (fun _ _ _ => Ok (7%nat, 1%nat, tt)) tt)
    None.

(** ** The training loop (ACER.learn, lines 321-387)

    The runner, the replay buffer, the random generator, the callback and
    the session are collaborators: their calls are recorded as events, in
    a state that also holds what they leave behind.  A call that raises
    ends [learn]. *)

Inductive train_site : Type :=
| OnPolicy     (* the call of line 353 *)
| OffPolicy.   (* the call of line 385 *)

Section Learn.
Variables (Rollout Batch Buffer Rng RunnerSt Session : Type).

Inductive event : Type :=
| EvRun (r : Rollout)                                   (* runner.run() *)
| EvFeed (r : Rollout)                                  (* episode_stats.feed *)
| EvPut (r : Rollout)                                   (* buffer.put *)
| EvTrain (site : train_site) (b : Batch) (steps : nat) (* self._train_step *)
| EvCallback (steps : nat)                              (* callback(locals(), globals()) *)
| EvLog (steps : nat)                                   (* logger.dump_tabular *)
| EvHasAtleast (answer : bool)                          (* buffer.has_atleast *)
| EvPoisson (k : nat)                                   (* np.random.poisson *)
| EvGet (b : Batch).                                    (* buffer.get *)

Record world : Type := mk_world
  { w_runner : RunnerSt;
    w_buffer : option Buffer;
    w_rng : Rng;
    w_session : Session;
    w_trace : list event }.

(** State and exceptions. *)
Definition M (A : Type) : Type := world -> world * result A.

Definition ret {A : Type} (a : A) : M A := fun w => (w, Ok a).

Definition raise {A : Type} (e : exn) : M A := fun w => (w, Err e).

Definition bindM {A B : Type} (m : M A) (k : A -> M B) : M B :=
  fun w =>
    let (w1, r) := m w in
    match r with
    | Ok a => k a w1
    | Err e => (w1, Err e)
    end.

Definition emit (e : event) : M unit :=
  fun w => (mk_world (w_runner w) (w_buffer w) (w_rng w) (w_session w) (w_trace w ++ [e]),
            Ok tt).

(** The collaborators. *)
Variable runner_run : RunnerSt -> result (Rollout * RunnerSt).
Variable rollout_batch : Rollout -> Batch.       (* the reshapes of lines 346-351 *)
Variable buffer_new : Buffer.
Variable buffer_put : Buffer -> Rollout -> result Buffer.
Variable buffer_has_atleast : Buffer -> nat -> bool.
Variable buffer_get : Buffer -> Rng -> result (Batch * Rng).
Variable np_random_poisson : Q -> Rng -> nat * Rng.
Variable train_step : Session -> Batch -> nat -> result Session.
Variable callback : option (nat -> result unit).

(** The attributes and arguments that [learn] reads. *)
Variables (replay_ratio : Q) (replay_start n_batch verbose log_interval : nat).

Definition do_run : M Rollout :=
  fun w =>
    match runner_run (w_runner w) with
    | Ok (r, rs) =>
        (mk_world rs (w_buffer w) (w_rng w) (w_session w) (w_trace w ++ [EvRun r]), Ok r)
    | Err e => (w, Err e)
    end.

(** [if buffer is not None: buffer.put(...)] *)
Definition do_put (r : Rollout) : M unit :=
  fun w =>
    match w_buffer w with
    | None => (w, Ok tt)
    | Some b =>
        match buffer_put b r with
        | Ok b' =>
            (mk_world (w_runner w) (Some b') (w_rng w) (w_session w)
                      (w_trace w ++ [EvPut r]), Ok tt)
        | Err e => (w, Err e)
        end
    end.

Definition do_train (site : train_site) (b : Batch) (steps : nat) : M unit :=
  fun w =>
    match train_step (w_session w) b steps with
    | Ok s =>
        (mk_world (w_runner w) (w_buffer w) (w_rng w) s
                  (w_trace w ++ [EvTrain site b steps]), Ok tt)
    | Err e => (w, Err e)
    end.

(** [if callback is not None: callback(locals(), globals())] *)
Definition do_callback (steps : nat) : M unit :=
  match callback with
  | None => ret tt
  | Some f =>
      fun w =>
        match f steps with
        | Ok _ => emit (EvCallback steps) w
        | Err e => (w, Err e)
        end
  end.

(** [if self.verbose >= 1 and (int(steps / runner.n_batch) % log_interval == 0)] *)
Definition do_log (steps : nat) : M unit :=
  if Nat.leb 1 verbose then
    if Nat.eqb log_interval 0 then raise ZeroDivisionError
    else if Nat.eqb ((steps / n_batch) mod log_interval) 0 then emit (EvLog steps)
         else ret tt
  else ret tt.

Definition do_has_atleast : M bool :=
  fun w =>
    match w_buffer w with
    | Some b =>
        let answer := buffer_has_atleast b replay_start in
        (fst (emit (EvHasAtleast answer) w), Ok answer)
    | None => (w, Err AttributeError)
    end.

Definition do_poisson : M nat :=
  fun w =>
    let (k, rng) := np_random_poisson replay_ratio (w_rng w) in
    (mk_world (w_runner w) (w_buffer w) rng (w_session w) (w_trace w ++ [EvPoisson k]),
     Ok k).

Definition do_get : M Batch :=
  fun w =>
    match w_buffer w with
    | Some b =>
        match buffer_get b (w_rng w) with
        | Ok (batch, rng) =>
            (mk_world (w_runner w) (w_buffer w) rng (w_session w)
                      (w_trace w ++ [EvGet batch]), Ok batch)
        | Err e => (w, Err e)
        end
    | None => (w, Err AttributeError)
    end.

(** [for _ in range(samples_number)] (lines 373-385) *)
Fixpoint replay_loop (samples_number steps : nat) : M unit :=
  match samples_number with
  | O => ret tt
  | S k =>
      bindM do_get (fun batch =>
      bindM (do_train OffPolicy batch steps) (fun _ =>
      replay_loop k steps))
  end.

(** [self.replay_ratio > 0] *)
Definition replay_enabled : bool := negb (Qle_bool replay_ratio 0).

(** The body of the outer loop (lines 339-385). *)
Definition learn_iteration (steps : nat) : M unit :=
  bindM do_run (fun r =>
  bindM (emit (EvFeed r)) (fun _ =>
  bindM (do_put r) (fun _ =>
  bindM (do_train OnPolicy (rollout_batch r) steps) (fun _ =>
  bindM (do_callback steps) (fun _ =>
  bindM (do_log steps) (fun _ =>
  if replay_enabled then
    bindM do_has_atleast (fun enough =>
    if enough then
      bindM do_poisson (fun samples_number => replay_loop samples_number steps)
    else ret tt)
  else ret tt)))))).

Fixpoint for_each (l : list nat) (body : nat -> M unit) : M unit :=
  match l with
  | [] => ret tt
  | x :: l' => bindM (body x) (fun _ => for_each l' body)
  end.

(** [range(0, stop, step)] for natural numbers. *)
Definition py_range (stop step : nat) : result (list nat) :=
  if Nat.eqb step 0 then Err ValueError
  else Ok (map (fun i => i * step)%nat (seq 0 ((stop + step - 1) / step))).

(** [learn]: the buffer exists when [replay_ratio > 0] (lines 330-333). *)
Definition learn (total_timesteps : nat) : M unit :=
  fun w =>
    let buffer := if replay_enabled then Some buffer_new else None in
    let w0 := mk_world (w_runner w) buffer (w_rng w) (w_session w) (w_trace w) in
    match py_range total_timesteps n_batch with
    | Ok steps_list => for_each steps_list learn_iteration w0
    | Err e => (w0, Err e)
    end.

(** The training steps, the sampled batches and the Poisson draws among
    some events. *)
Definition trains (evs : list event) : list (train_site * Batch * nat) :=
  flat_map (fun e => match e with
                     | EvTrain site b steps => [(site, b, steps)]
                     | _ => []
                     end) evs.

Definition gets (evs : list event) : list Batch :=
  flat_map (fun e => match e with EvGet b => [b] | _ => [] end) evs.

Definition poisson_draws (evs : list event) : list nat :=
  flat_map (fun e => match e with EvPoisson k => [k] | _ => [] end) evs.

Definition has_atleast_answers (evs : list event) : list bool :=
  flat_map (fun e => match e with EvHasAtleast a => [a] | _ => [] end) evs.

(** Events among which there is no training step, no sampled batch, no
    Poisson draw and no [has_atleast] query. *)
Definition quiet (evs : list event) : Prop :=
  trains evs = [] /\ gets evs = [] /\ poisson_draws evs = []
  /\ has_atleast_answers evs = [].

(** The events of [k] replay steps on the batches [batches]. *)
Definition replay_events (steps : nat) (batches : list Batch) : list event :=
  flat_map (fun b => [EvGet b; EvTrain OffPolicy b steps]) batches.
End Learn.

Arguments EvRun {Rollout Batch} _.
Arguments EvFeed {Rollout Batch} _.
Arguments EvPut {Rollout Batch} _.
Arguments EvTrain {Rollout Batch} _ _ _.
Arguments EvCallback {Rollout Batch} _.
Arguments EvLog {Rollout Batch} _.
Arguments EvHasAtleast {Rollout Batch} _.
Arguments EvPoisson {Rollout Batch} _.
Arguments EvGet {Rollout Batch} _.
Arguments w_runner {Rollout Batch Buffer Rng RunnerSt Session} _.
Arguments w_buffer {Rollout Batch Buffer Rng RunnerSt Session} _.
Arguments w_rng {Rollout Batch Buffer Rng RunnerSt Session} _.
Arguments w_session {Rollout Batch Buffer Rng RunnerSt Session} _.
Arguments w_trace {Rollout Batch Buffer Rng RunnerSt Session} _.
Arguments mk_world {Rollout Batch Buffer Rng RunnerSt Session} _ _ _ _ _.
Arguments trains {Rollout Batch} _.
Arguments gets {Rollout Batch} _.
Arguments poisson_draws {Rollout Batch} _.
Arguments has_atleast_answers {Rollout Batch} _.
Arguments replay_events {Rollout Batch} _ _.
Arguments quiet {Rollout Batch} _.

Section LearnSpec.
Variables (Rollout Batch Buffer Rng RunnerSt Session : Type).
Variable runner_run : RunnerSt -> result (Rollout * RunnerSt).
Variable rollout_batch : Rollout -> Batch.
Variable buffer_has_atleast : Buffer -> nat -> bool.
Variable np_random_poisson : Q -> Rng -> nat * Rng.
Variables (replay_ratio : Q) (replay_start : nat).

(** What one outer iteration, from the world [w] to the world [w'], does
    according to the specification: the rollout [r] is collected first, one
    on-policy training step runs on it before any off-policy step, the
    off-policy steps run on the batches that [buffer.get] returned, one call
    for each step, and there are off-policy steps only if [replay_ratio > 0]
    and [buffer.has_atleast(replay_start)], their number being the Poisson
    draw. *)
Definition on_policy_then_replay (steps : nat)
           (w w' : world Rollout Batch Buffer Rng RunnerSt Session) : Prop :=
  exists (r : Rollout) (evs pre : list (event Rollout Batch)) (batches : list Batch),
    w_trace w' = w_trace w ++ evs
    /\ (exists rs, runner_run (w_runner w) = Ok (r, rs))
    /\ hd_error evs = Some (EvRun r)
    /\ trains evs
       = (OnPolicy, rollout_batch r, steps) :: map (fun b => (OffPolicy, b, steps)) batches
    /\ evs = pre ++ replay_events steps batches
    /\ gets pre = []
    /\ if replay_enabled replay_ratio then
         exists (b : Buffer),
           has_atleast_answers evs = [buffer_has_atleast b replay_start]
           /\ if buffer_has_atleast b replay_start then
                exists rng,
                  poisson_draws evs = [fst (np_random_poisson replay_ratio rng)]
                  /\ length batches = fst (np_random_poisson replay_ratio rng)
              else poisson_draws evs = [] /\ batches = []
       else has_atleast_answers evs = [] /\ poisson_draws evs = [] /\ batches = [].

(** [all_iterations body l w w']: running [body] for the elements of [l] in
    turn leads from [w] to [w'] without an exception, and [P] holds of every
    iteration. *)
Inductive all_iterations
          (P : nat -> world Rollout Batch Buffer Rng RunnerSt Session
               -> world Rollout Batch Buffer Rng RunnerSt Session -> Prop)
          (body : nat -> M Rollout Batch Buffer Rng RunnerSt Session unit)
  : list nat -> world Rollout Batch Buffer Rng RunnerSt Session
    -> world Rollout Batch Buffer Rng RunnerSt Session -> Prop :=
| all_iterations_nil : forall w, all_iterations P body [] w w
| all_iterations_cons : forall x l w w1 w2,
    body x w = (w1, Ok tt) -> P x w w1 -> all_iterations P body l w1 w2 ->
    all_iterations P body (x :: l) w w2.
End LearnSpec.

(** Collaborators for a small run of [learn]: rollouts and batches are
    numbered, the buffer is the list of the rollouts put so far, every
    Poisson draw is 2 and the session remembers the batches it trained on. *)
Definition toy_runner_run (s : nat) : result (nat * nat) := Ok (s, S s).
Definition toy_buffer_put (b : list nat) (r : nat) : result (list nat) := Ok (r :: b).
Definition toy_buffer_has_atleast (b : list nat) (n : nat) : bool :=
  Nat.leb n (length b).
Definition toy_buffer_get (b : list nat) (rng : nat) : result (nat * nat) :=
  Ok (nth (rng mod length b) b 0%nat, S rng).
Definition toy_poisson (_ : Q) (rng : nat) : nat * nat := (2%nat, S rng).
Definition toy_train_step (s : list nat) (b : nat) (_ : nat) : result (list nat) :=
  Ok (b :: s).
Definition toy_world : world nat nat (list nat) nat nat (list nat) :=
  mk_world 0%nat None 0%nat [] [].

(** [learn(total_timesteps=4)] with [n_batch = 2], [replay_ratio = 4],
    [replay_start = 2], no callback and [verbose = 0]. *)
Definition toy_learn : world nat nat (list nat) nat nat (list nat) * result unit :=
  learn nat nat (list nat) nat nat (list nat)
        toy_runner_run (fun r => r) [] toy_buffer_put toy_buffer_has_atleast
        toy_buffer_get toy_poisson toy_train_step None
        (4 # 1)%Q 2 2 0 100 4 toy_world.

(** ** strip (lines 14-25)

    [strip] with [flat=True], as [setup_model] calls it on the values
    (line 202): the batch is cut into [n_steps + 1] per-step tensors, the last
    one is dropped ([out_vars[:-1]]) and the rest is flattened back. *)
Definition strip (var : list R) (n_envs n_steps : nat) : result (list R) :=
  out_vars <- batch_to_seq var n_envs (n_steps + 1) ;;
  seq_to_batch (removelast out_vars).


(** ** Bias correction and critic loss (lines 212-229) *)

Definition d_const_sub (c : R) (x : dual) : dual := mk_dual (c - val x) (- tan x).
Definition d_const_div (c : R) (x : dual) : dual :=
  mk_dual (c / val x) (- c * tan x / (val x * val x)).
(** [tf.nn.relu] *)
Definition d_relu (x : dual) : dual :=
  mk_dual (Rmax 0 (val x)) (if Rle_dec (val x) 0 then 0 else tan x).
Definition d_mul_const (x : dual) (c : R) : dual := mk_dual (val x * c) (tan x * c).
Definition d_square (x : dual) : dual := mk_dual (val x * val x) (2 * val x * tan x).
Definition d_reduce_sum (xs : list dual) : dual :=
  mk_dual (rsum (map val xs)) (rsum (map tan xs)).

(** [adv_bc = q_value - tf.reshape(value, [n_envs * n_steps, 1])] (line 213) *)
Definition adv_bc (q_value : list (list dual)) (value : list dual) : list (list dual) :=
  map2 (fun q_row v => map (fun q => d_sub q v) q_row) q_value value.

(** [log_f_bc = tf.log(distribution_f + eps)] (line 214) *)
Definition log_f_bc (distribution_f : list (list dual)) : list (list dual) :=
  map (map (fun f => d_log (d_add_const f eps))) distribution_f.

(** [tf.nn.relu(1.0 - (self.correction_term / (rho + eps)))] (line 218) *)
Definition bc_weight (correction_term : R) (rho_t : list (list dual)) : list (list dual) :=
  map (map (fun r => d_relu (d_const_sub 1 (d_const_div correction_term
                                                        (d_add_const r eps)))))
      rho_t.

(** [tf.stop_gradient(adv_bc * relu(...) * distribution_f)] (lines 217-218) *)
Definition bc_coefficient (correction_term : R) (q_value : list (list dual))
           (value : list dual) (rho_t distribution_f : list (list dual))
  : list (list dual) :=
  map (map stop_gradient)
      (map2 (map2 d_mul)
            (map2 (map2 d_mul) (adv_bc q_value value) (bc_weight correction_term rho_t))
            distribution_f).

(** [gain_bc = tf.reduce_sum(log_f_bc * tf.stop_gradient(...), axis=1)] and
    [loss_bc = -tf.reduce_mean(gain_bc)] (lines 216-221) *)
Definition gain_bc (correction_term : R) (q_value : list (list dual))
           (value : list dual) (rho_t distribution_f : list (list dual)) : list dual :=
  map d_reduce_sum
      (map2 (map2 d_mul) (log_f_bc distribution_f)
            (bc_coefficient correction_term q_value value rho_t distribution_f)).

Definition loss_bc (correction_term : R) (q_value : list (list dual))
           (value : list dual) (rho_t distribution_f : list (list dual)) : dual :=
  d_neg (d_reduce_mean (gain_bc correction_term q_value value rho_t distribution_f)).

(** [loss_q = tf.reduce_mean(tf.square(tf.stop_gradient(qret) - q_i) * 0.5)]
    (line 229) *)
Definition loss_q (qret q_i : list dual) : dual :=
  d_reduce_mean
    (map (fun x => d_mul_const (d_square x) (1 / 2))
         (map2 d_sub (map stop_gradient qret) q_i)).

(** The name under which [setup_model] reports a fetched tensor: the name
    of the variable that holds it. *)
Definition fetch_name (f : fetch) : String.string :=
  match f with
  | F_train => "_train"
  | F_loss => "loss"
  | F_loss_q => "loss_q"
  | F_entropy => "entropy"
  | F_loss_policy => "loss_policy"
  | F_loss_f => "loss_f"
  | F_loss_bc => "loss_bc"
  | F_explained_variance => "explained_variance"
  | F_norm_grads => "norm_grads"
  | F_norm_grads_q => "norm_grads_q"
  | F_norm_grads_policy => "norm_grads_policy"
  | F_avg_norm_grads_f => "avg_norm_grads_f"
  | F_avg_norm_k => "avg_norm_k"
  | F_avg_norm_g => "avg_norm_g"
  | F_avg_norm_k_dot_g => "avg_norm_k_dot_g"
  | F_avg_norm_adj => "avg_norm_adj"
  end%string.

(** ** save and load (lines 409-449) *)

(** The keyword arguments of [__init__] (lines 61-64), in its order. *)
Record hyperparameters : Type := mk_hyperparameters
  { h_gamma : R;
    h_n_steps : nat;
    h_nstack : nat;
    h_num_procs : nat;
    h_q_coef : R;
    h_ent_coef : R;
    h_max_grad_norm : option R;
    h_learning_rate : R;
    h_lr_schedule : String.string;
    h_rprop_alpha : R;
    h_rprop_epsilon : R;
    h_buffer_size : nat;
    h_replay_ratio : Q;
    h_replay_start : nat;
    h_correction_term : R;
    h_trust_region : bool;
    h_alpha : R;
    h_delta : R;
    h_verbose : nat }.

(** Their default values. *)
Definition default_hyperparameters : hyperparameters :=
  mk_hyperparameters (99 / 100) 20 4 1 (1 / 2) (1 / 100) (Some 10) (7 / 10000)
                     "linear"%string (99 / 100) (1 / 100000) 5000 (4 # 1)%Q 1000
                     10 true (99 / 100) 1 0.

(** A trainable variable: its shape and its values. *)
Record param : Type := mk_param { p_shape : list nat; p_values : list R }.

Definition shape_eqb (a b : list nat) : bool :=
  Nat.eqb (length a) (length b) && forallb (fun p => Nat.eqb (fst p) (snd p)) (combine a b).

Section SaveLoad.
Variables (Policy Space : Type).

(** The attributes of the model that [save] and [load] touch. *)
Record model_state : Type := mk_model_state
  { m_hyper : hyperparameters;
    m_policy : Policy;
    m_observation_space : Space;
    m_action_space : Space;
    m_n_envs : nat;
    m_params : list param }.

(** The dictionary [data] of [save] (lines 410-428). *)
Record saved_data : Type := mk_saved_data
  { d_gamma : R;
    d_n_steps : nat;
    d_nstack : nat;
    d_q_coef : R;
    d_ent_coef : R;
    d_max_grad_norm : option R;
    d_learning_rate : R;
    d_lr_schedule : String.string;
    d_rprop_alpha : R;
    d_rprop_epsilon : R;
    d_replay_ratio : Q;
    d_replay_start : nat;
    d_verbose : nat;
    d_policy : Policy;
    d_observation_space : Space;
    d_action_space : Space;
    d_n_envs : nat }.

(** [save]: what is handed to [_save_to_file], the dictionary and the
    values of the parameters. *)
Definition save (self : model_state) : saved_data * list param :=
  let h := m_hyper self in
  (mk_saved_data (h_gamma h) (h_n_steps h) (h_nstack h) (h_q_coef h) (h_ent_coef h)
                 (h_max_grad_norm h) (h_learning_rate h) (h_lr_schedule h)
                 (h_rprop_alpha h) (h_rprop_epsilon h) (h_replay_ratio h)
                 (h_replay_start h) (h_verbose h) (m_policy self)
                 (m_observation_space self) (m_action_space self) (m_n_envs self),
   m_params self).

(** [model.__dict__.update(data)] *)
Definition update_with_data (model : model_state) (data : saved_data) : model_state :=
  let h := m_hyper model in
  mk_model_state
    (mk_hyperparameters (d_gamma data) (d_n_steps data) (d_nstack data) (h_num_procs h)
                        (d_q_coef data) (d_ent_coef data) (d_max_grad_norm data)
                        (d_learning_rate data) (d_lr_schedule data) (d_rprop_alpha data)
                        (d_rprop_epsilon data) (h_buffer_size h) (d_replay_ratio data)
                        (d_replay_start data) (h_correction_term h) (h_trust_region h)
                        (h_alpha h) (h_delta h) (d_verbose data))
    (d_policy data) (d_observation_space data) (d_action_space data) (d_n_envs data)
    (m_params model).

(** [param.assign(loaded_p)] for the pairs of [zip(model.params, params)]
    (lines 444-447): a value of another shape cannot be assigned; the
    parameters beyond the shorter list are left alone. *)
Fixpoint restore (model_params loaded : list param) : result (list param) :=
  match model_params, loaded with
  | p :: ps, l :: ls =>
      if shape_eqb (p_shape p) (p_shape l) then
        rest <- restore ps ls ;;
        Ok (mk_param (p_shape p) (p_values l) :: rest)
      else Err ValueError
  | ps, _ => Ok ps
  end.

(** The collaborators of [load]: the attributes that the constructor of the
    base class derives from [env], [set_env] of the base class, and the
    values with which [setup_model] initialises the parameters. *)
Variable base_init : result (Space * Space * nat).
Variable set_env : Space * Space * nat -> result (Space * Space * nat).
Variable initial_params : model_state -> list param.

(** [load] (lines 434-449), from what [_load_from_file] returns; [kwargs]
    is the update of attributes asked for by the keyword arguments. *)
Definition load (file : saved_data * list param) (kwargs : model_state -> model_state)
  : result model_state :=
  let '(data, params) := file in
  env_attrs <- base_init ;;
  let '(obs_space, act_space, envs) := env_attrs in
  let model := mk_model_state default_hyperparameters (d_policy data)
                              obs_space act_space envs [] in
  let model := update_with_data model data in
  let model := kwargs model in
  env_attrs <- set_env (m_observation_space model, m_action_space model, m_n_envs model) ;;
  let '(obs_space, act_space, envs) := env_attrs in
  let model := mk_model_state (m_hyper model) (m_policy model)
                              obs_space act_space envs (m_params model) in
  match h_max_grad_norm (m_hyper model) with
  | None => Err AssertionError
  | Some _ =>
      restored <- restore (initial_params model) params ;;
      Ok (mk_model_state (m_hyper model) (m_policy model) (m_observation_space model)
                         (m_action_space model) (m_n_envs model) restored)
  end.
End SaveLoad.

Arguments save {Policy Space} _.
Arguments load {Policy Space} _ _ _ _ _.
Arguments m_hyper {Policy Space} _.
Arguments m_policy {Policy Space} _.
Arguments m_params {Policy Space} _.
Arguments m_observation_space {Policy Space} _.
Arguments m_action_space {Policy Space} _.
Arguments m_n_envs {Policy Space} _.
Arguments mk_model_state {Policy Space} _ _ _ _ _ _.

(** A model with [trust_region=False], [alpha=0.5], [delta=2],
    [correction_term=5], [buffer_size=100], [num_procs=8] and one
    parameter. *)
Definition tuned_model : model_state unit unit :=
  mk_model_state
    (mk_hyperparameters (9 / 10) 5 2 8 (1 / 4) 0 (Some 10) (1 / 1000) "constant"%string
                        (9 / 10) (1 / 100) 100 (1 # 1)%Q 10 5 false (1 / 2) 2 1)
    tt tt tt 2 [mk_param [1%nat] [7]].

(** ** The first stacked observation (_Runner.__init__, lines 470-472) *)

(** [np.zeros((n_env, height, width, channels), dtype=np.uint8)] *)
Definition np_zeros (n_env height width channels : nat) : list (list (list (list Z))) :=
  repeat (repeat (repeat (repeat 0%Z channels) width) height) n_env.

(** [self.obs = np.zeros(...)], [obs = env.reset()], [self.update_obs(obs)] *)
Definition initial_stack (n_env height width num_channels nstack : nat)
           (reset_obs : list (list (list (list Z)))) : list (list (list (list Z))) :=
  update_obs num_channels (np_zeros n_env height width (num_channels * nstack))
             reset_obs None.

(** The stack after a sequence of calls [update_obs(obs, dones)]. *)
Definition update_obs_many (num_channels : nat) (self_obs : list (list (list (list Z))))
           (calls : list (list (list (list (list Z))) * list bool))
  : list (list (list (list Z))) :=
  fold_left (fun stack call => update_obs num_channels stack (fst call) (Some (snd call)))
            calls self_obs.

Arguments out_enc_obs {Action Mus} _.
Arguments out_obs {Action Mus} _.
Arguments out_actions {Action Mus} _.
Arguments out_mus {Action Mus} _.

(** ** What a run of [learn] can record *)

Section LearnEvents.
Variables (Rollout Batch Session : Type).
Variable train_step : Session -> Batch -> nat -> result Session.
Variables (replay_ratio : Q) (verbose log_interval : nat).

(** Events of the replay buffer and of the off-policy steps. *)
Definition is_replay_event (e : event Rollout Batch) : bool :=
  match e with
  | EvPut _ | EvHasAtleast _ | EvPoisson _ | EvGet _ | EvTrain OffPolicy _ _ => true
  | _ => false
  end.

Definition is_train_event (e : event Rollout Batch) : bool :=
  match e with
  | EvTrain _ _ _ => true
  | _ => false
  end.

Definition is_log_event (e : event Rollout Batch) : bool :=
  match e with
  | EvLog _ => true
  | _ => false
  end.

(** The step counters of the on-policy training steps among some events. *)
Definition on_policy_steps (evs : list (event Rollout Batch)) : list nat :=
  flat_map (fun e => match e with
                     | EvTrain OnPolicy _ steps => [steps]
                     | _ => []
                     end) evs.

(** What has to hold for an event to be recorded, in a run with
    ([with_buffer = true]) or without a replay buffer. *)
Definition possible_event (with_buffer : bool) (e : event Rollout Batch) : Prop :=
  match e with
  | EvRun _ | EvFeed _ | EvCallback _ => True
  | EvPut _ => with_buffer = true
  | EvHasAtleast _ | EvPoisson _ | EvGet _ =>
      with_buffer = true /\ replay_enabled replay_ratio = true
  | EvTrain OnPolicy b k => exists s s', train_step s b k = Ok s'
  | EvTrain OffPolicy b k =>
      with_buffer = true /\ replay_enabled replay_ratio = true
      /\ exists s s', train_step s b k = Ok s'
  | EvLog _ => (1 <= verbose)%nat /\ log_interval <> 0%nat
  end.
End LearnEvents.

Arguments is_replay_event {Rollout Batch} _.
Arguments is_train_event {Rollout Batch} _.
Arguments is_log_event {Rollout Batch} _.
Arguments on_policy_steps {Rollout Batch} _.

Definition has_buffer {Rollout Batch Buffer Rng RunnerSt Session : Type}
           (w : world Rollout Batch Buffer Rng RunnerSt Session) : bool :=
  match w_buffer w with
  | Some _ => true
  | None => false
  end.
(* ================================================================== *)
(** * Theorems *)

(** ** Lists and the error monad *)

Lemma map2_map_map {X A B C : Type} (f : A -> B -> C) (g : X -> A) (h : X -> B)
      (l : list X) :
  map2 f (map g l) (map h l) = map (fun x => f (g x) (h x)) l.
Proof.
  induction l as [|x l IH]; simpl; [reflexivity|].
  now rewrite IH.
Qed.

Lemma index_map_seq {A : Type} (f : nat -> A) (n i : nat) :
  (i < n)%nat -> index (map f (seq 0 n)) i = Ok (f i).
Proof.
  intros Hi. unfold index.
  rewrite nth_error_map, nth_error_seq.
  destruct (Nat.ltb_spec i n); [reflexivity | lia].
Qed.

Lemma index_last_map_seq {A : Type} (f : nat -> A) (n : nat) :
  index_last (map f (seq 0 (n + 1))) = Ok (f n).
Proof.
  unfold index_last.
  rewrite seq_app, map_app, rev_app_distr. reflexivity.
Qed.

Lemma forallb_length_map_seq {A : Type} (F : nat -> nat -> A) (n : nat) (js : list nat) :
  forallb (fun v => Nat.eqb (length v) n) (map (fun j => map (F j) (seq 0 n)) js) = true.
Proof.
  induction js as [|j js IH]; simpl; [reflexivity|].
  rewrite length_map, length_seq, Nat.eqb_refl. exact IH.
Qed.

Lemma forallb_length_map_seq' {A : Type} (F : nat -> nat -> A) (n : nat) (js : list nat) :
  forallb (fun v => Nat.eqb (length v) (length (hd [] (map (fun j => map (F j) (seq 0 n)) js))))
          (map (fun j => map (F j) (seq 0 n)) js) = true.
Proof.
  destruct js as [|j js]; [reflexivity|].
  cbn [map hd]. rewrite length_map, length_seq.
  apply (forallb_length_map_seq F n (j :: js)).
Qed.

Lemma length_hd_map_seq {A : Type} (F : nat -> nat -> A) (n m : nat) :
  length (hd [] (map (fun j => map (F j) (seq 0 n)) (seq 0 m)))
  = if Nat.eqb m 0 then 0%nat else n.
Proof.
  destruct m as [|m]; [reflexivity|].
  cbn [seq map hd Nat.eqb]. now rewrite length_map, length_seq.
Qed.

Lemma flat_map_ext_in {A B : Type} (f g : A -> list B) (l : list A) :
  (forall a, In a l -> f a = g a) -> flat_map f l = flat_map g l.
Proof.
  induction l as [|a l IH]; simpl; intros H; [reflexivity|].
  rewrite (H a) by now left.
  rewrite IH; [reflexivity|]. intros b Hb. apply H. now right.
Qed.

Lemma flat_map_nil {A B : Type} (l : list A) :
  flat_map (fun _ : A => @nil B) l = [].
Proof. induction l; simpl; auto. Qed.

Lemma nth_map_seq (f : nat -> R) (n i : nat) :
  (i < n)%nat -> nth i (map f (seq 0 n)) 0 = f i.
Proof.
  intros Hi.
  rewrite (nth_indep _ 0 (f 0%nat)) by now rewrite length_map, length_seq.
  rewrite map_nth, seq_nth by assumption. reflexivity.
Qed.

Lemma Rmin_1_0 : Rmin 1 0 = 0.
Proof. unfold Rmin. destruct (Rle_dec 1 0); lra. Qed.

Lemma nth_map_Rmin1 (k : nat) (l : list R) :
  nth k (map (Rmin 1) l) 0 = Rmin 1 (nth k l 0).
Proof.
  rewrite <- Rmin_1_0 at 1. apply map_nth.
Qed.

(** ** q_retrace computes the backward recursion *)

Section QRetraceCorrect.
Variables (rewards dones q_i values rho_i : list R).
Variables (n_envs n_steps : nat) (gamma : R).

Let steps_from (e from : nat) : list step_data :=
  env_steps rewards dones q_i values rho_i n_steps e from (n_steps - from).
Let boot (e : nat) : R := env_bootstrap values n_steps e.
Let carried (e from : nat) : R := snd (retrace_spec gamma (steps_from e from) (boot e)).
Let target (e i : nat) : R := hd 0 (fst (retrace_spec gamma (steps_from e i) (boot e))).
Let layout (l : list R) (n : nat) : list (list R) :=
  map (fun t => map (fun e => nth (e * n + t) l 0) (seq 0 n_envs)) (seq 0 n).

Lemma steps_from_unfold (e i : nat) :
  (i < n_steps)%nat ->
  steps_from e i
  = step_of rewards dones q_i values rho_i n_steps e i :: steps_from e (S i).
Proof.
  intros Hi. unfold steps_from, env_steps.
  replace (n_steps - i)%nat with (S (n_steps - S i)) by lia.
  reflexivity.
Qed.

Lemma target_unfold (e i : nat) :
  (i < n_steps)%nat ->
  target e i
  = nth (e * n_steps + i) rewards 0
    + gamma * carried e (S i) * (1 - nth (e * n_steps + i) dones 0).
Proof.
  intros Hi. unfold target, carried.
  rewrite (steps_from_unfold e i Hi). simpl.
  destruct (retrace_spec gamma (steps_from e (S i)) (boot e)) as [ts q].
  reflexivity.
Qed.

Lemma carried_unfold (e i : nat) :
  (i < n_steps)%nat ->
  carried e i
  = Rmin 1 (nth (e * n_steps + i) rho_i 0)
    * (target e i - nth (e * n_steps + i) q_i 0)
    + nth (e * (n_steps + 1) + i) values 0.
Proof.
  intros Hi. unfold target, carried.
  rewrite (steps_from_unfold e i Hi). simpl.
  destruct (retrace_spec gamma (steps_from e (S i)) (boot e)) as [ts q].
  reflexivity.
Qed.

Lemma targets_as_map (e : nat) (m k : nat) :
  (k + m = n_steps)%nat ->
  fst (retrace_spec gamma
         (env_steps rewards dones q_i values rho_i n_steps e k m) (boot e))
  = map (target e) (seq k m).
Proof.
  revert k. induction m as [|m IH]; intros k Hk; [reflexivity|].
  assert (Hlt : (k < n_steps)%nat) by lia.
  cbn [seq map]. unfold target at 1.
  rewrite (steps_from_unfold e k Hlt).
  unfold env_steps at 1. cbn [seq map retrace_spec].
  specialize (IH (S k) ltac:(lia)).
  unfold steps_from.
  replace (n_steps - S k)%nat with m by lia.
  unfold env_steps in IH |- *.
  destruct (retrace_spec gamma
              (map (step_of rewards dones q_i values rho_i n_steps e) (seq (S k) m))
              (boot e)) as [ts q] eqn:E.
  cbn [fst hd]. f_equal. exact IH.
Qed.

Lemma retrace_loop_invariant (k : nat) (qrets : list (list R)) :
  (k <= n_steps)%nat ->
  retrace_loop n_envs gamma
    (layout (map (Rmin 1) rho_i) n_steps) (layout rewards n_steps)
    (layout dones n_steps) (layout q_i n_steps) (layout values (n_steps + 1))
    k (map (fun e => carried e k) (seq 0 n_envs)) qrets
  = Ok (map (fun e => carried e 0) (seq 0 n_envs),
        qrets ++ map (fun j => map (fun e => target e j) (seq 0 n_envs))
                     (rev (seq 0 k))).
Proof.
  revert qrets. induction k as [|i IH]; intros qrets Hk.
  - cbn. now rewrite app_nil_r.
  - assert (Hi : (i < n_steps)%nat) by lia.
    assert (Hi' : (i < n_steps + 1)%nat) by lia.
    cbn [retrace_loop]. unfold layout.
    rewrite !(index_map_seq _ n_steps i Hi), (index_map_seq _ (n_steps + 1) i Hi').
    cbn [bind]. unfold check_shape. cbn [forallb].
    rewrite !length_map, !length_seq, Nat.eqb_refl. cbn [andb bind].
    unfold vadd, vmul, vsub, vscale, vrsub.
    rewrite !map_map, !map2_map_map.
    rewrite seq_S, rev_app_distr. cbn [rev app map Nat.add].
    fold (layout (map (Rmin 1) rho_i) n_steps) (layout rewards n_steps)
         (layout dones n_steps) (layout q_i n_steps) (layout values (n_steps + 1)).
    replace (map (fun x : nat =>
                    nth (x * n_steps + i) rewards 0
                    + gamma * carried x (S i) * (1 - nth (x * n_steps + i) dones 0))
                 (seq 0 n_envs))
      with (map (fun e => target e i) (seq 0 n_envs)).
    2:{ apply map_ext. intros e. apply (target_unfold e i Hi). }
    replace (map _ (seq 0 n_envs)) with (map (fun e => carried e i) (seq 0 n_envs)) at 1.
    + rewrite (IH _ ltac:(lia)). rewrite <- app_assoc. reflexivity.
    + apply map_ext. intros e.
      rewrite (carried_unfold e i Hi), (target_unfold e i Hi).
      rewrite nth_map_Rmin1. reflexivity.
Qed.

Lemma q_retrace_runs :
  length rewards = (n_envs * n_steps)%nat ->
  length dones = (n_envs * n_steps)%nat ->
  length q_i = (n_envs * n_steps)%nat ->
  length rho_i = (n_envs * n_steps)%nat ->
  length values = (n_envs * (n_steps + 1))%nat ->
  q_retrace rewards dones q_i values rho_i n_envs n_steps gamma
  = Ok (retrace_targets rewards dones q_i values rho_i n_envs n_steps gamma).
Proof.
  intros Hr Hd Hq Hrho Hv.
  unfold q_retrace, batch_to_seq.
  rewrite length_map, Hr, Hd, Hq, Hrho, Hv, !Nat.eqb_refl. cbn [bind].
  rewrite index_last_map_seq. cbn [bind].
  pose proof (retrace_loop_invariant n_steps [] (le_n _)) as Hloop.
  unfold layout, carried at 1, steps_from, env_steps in Hloop.
  rewrite Nat.sub_diag in Hloop. cbn [seq map retrace_spec snd] in Hloop.
  unfold boot, env_bootstrap in Hloop.
  rewrite Hloop. cbn [bind snd app].
  rewrite <- map_rev, rev_involutive.
  unfold seq_to_batch, retrace_targets.
  rewrite forallb_length_map_seq', length_hd_map_seq.
  destruct (Nat.eqb_spec n_steps 0) as [Hz|Hnz].
  - rewrite Hz. cbn. now rewrite flat_map_nil.
  - f_equal.
    apply flat_map_ext_in. intros e He. apply in_seq in He.
    rewrite map_map.
    pose proof (targets_as_map e n_steps 0 eq_refl) as Ht.
    unfold boot in Ht. rewrite Ht.
    apply map_ext. intros j. unfold target, boot, steps_from.
    rewrite nth_map_seq by lia. reflexivity.
Qed.

End QRetraceCorrect.

Lemma flat_map_singleton {A B : Type} (f : A -> B) (l : list A) :
  flat_map (fun a => [f a]) l = map f l.
Proof. induction l; simpl; congruence. Qed.

(** C1: for inputs of the stated shapes [q_retrace] returns exactly the
    targets of the backward recursion (bootstrap from [value[n_steps]],
    [target[i] = reward[i] + gamma * qret * (1 - done[i])], carried
    [qret = min(1, rho_i[i]) * (target[i] - q_i[i]) + value[i]]), laid out
    environment-major; and for [n_steps = 1] an environment whose done flag
    is 1 gets its reward as target, whatever the bootstrap value. *)
Theorem q_retrace_backward_recursion :
  forall (rewards dones q_i values rho_i : list R) (n_envs n_steps : nat) (gamma : R),
    length rewards = (n_envs * n_steps)%nat ->
    length dones = (n_envs * n_steps)%nat ->
    length q_i = (n_envs * n_steps)%nat ->
    length rho_i = (n_envs * n_steps)%nat ->
    length values = (n_envs * (n_steps + 1))%nat ->
    q_retrace rewards dones q_i values rho_i n_envs n_steps gamma
    = Ok (retrace_targets rewards dones q_i values rho_i n_envs n_steps gamma)
    /\ (n_steps = 1%nat ->
        forall e, (e < n_envs)%nat -> nth e dones 0 = 1 ->
          nth e (retrace_targets rewards dones q_i values rho_i n_envs n_steps gamma) 0
          = nth e rewards 0).
Proof.
  intros rewards dones q_i values rho_i n_envs n_steps gamma Hr Hd Hq Hrho Hv.
  split.
  - now apply q_retrace_runs.
  - intros -> e He Hdone.
    unfold retrace_targets, env_steps. cbn [seq map retrace_spec fst].
    rewrite (flat_map_singleton
               (fun e => s_reward (step_of rewards dones q_i values rho_i 1 e 0)
                         + gamma * env_bootstrap values 1 e
                           * (1 - s_done (step_of rewards dones q_i values rho_i 1 e 0)))).
    rewrite nth_map_seq by assumption.
    unfold step_of. cbn [s_reward s_done].
    rewrite Nat.mul_1_r, Nat.add_0_r, Hdone. ring.
Qed.

Lemma q_retrace_backward_recursion_witness :
  q_retrace [3] [1] [5] [7; 9] [2] 1 1 (1/2)
  = Ok (retrace_targets [3] [1] [5] [7; 9] [2] 1 1 (1/2))
  /\ (1%nat = 1%nat ->
      forall e, (e < 1)%nat -> nth e [1] 0 = 1 ->
        nth e (retrace_targets [3] [1] [5] [7; 9] [2] 1 1 (1/2)) 0 = nth e [3] 0).
Proof.
  apply (q_retrace_backward_recursion [3] [1] [5] [7; 9] [2] 1 1 (1/2));
    reflexivity.
Defined.

(** A hand-computed trajectory: one environment, two steps, no termination. *)
Example q_retrace_two_steps :
  q_retrace [1; 2] [0; 0] [0; 0] [0; 0; 10] [1/2; 2] 1 2 1 = Ok [13; 12].
Proof.
  rewrite q_retrace_runs by reflexivity.
  unfold retrace_targets, env_steps, env_bootstrap, step_of.
  cbn [seq map flat_map retrace_spec fst app nth Nat.mul Nat.add
       s_reward s_done s_q s_value s_rho].
  unfold Rmin. destruct (Rle_dec 1 2); [|lra].
  repeat f_equal; lra.
Qed.

(** Two environments, one step each: the batch is environment-major. *)
Example q_retrace_two_envs :
  q_retrace [1; 2] [1; 0] [0; 0] [0; 5; 0; 7] [1; 1] 2 1 1 = Ok [1; 9].
Proof.
  rewrite q_retrace_runs by reflexivity.
  unfold retrace_targets, env_steps, env_bootstrap, step_of.
  cbn [seq map flat_map retrace_spec fst app nth Nat.mul Nat.add
       s_reward s_done s_q s_value s_rho].
  repeat f_equal; lra.
Qed.

(** ** Lists seen through their indices *)

Lemma map_as_seq {A B : Type} (f : A -> B) (d : A) (xs : list A) (n : nat) :
  length xs = n -> map f xs = map (fun k => f (nth k xs d)) (seq 0 n).
Proof.
  revert n. induction xs as [|x xs IH]; intros n Hn; subst n; [reflexivity|].
  cbn [length seq map nth]. f_equal.
  rewrite <- seq_shift, map_map. now apply IH.
Qed.

Lemma map2_as_seq {A B C : Type} (f : A -> B -> C) (da : A) (db : B)
      (xs : list A) (ys : list B) (n : nat) :
  length xs = n -> length ys = n ->
  map2 f xs ys = map (fun k => f (nth k xs da) (nth k ys db)) (seq 0 n).
Proof.
  revert ys n. induction xs as [|x xs IH]; intros [|y ys] n Hx Hy; subst n;
    try discriminate; [reflexivity|].
  cbn [length seq map map2 nth]. f_equal.
  rewrite <- seq_shift, map_map. apply IH; [reflexivity|].
  now injection Hy.
Qed.

Lemma nth_map_seq_gen {A : Type} (f : nat -> A) (d : A) (n i : nat) :
  (i < n)%nat -> nth i (map f (seq 0 n)) d = f i.
Proof.
  intros Hi.
  rewrite (nth_indep _ d (f 0%nat)) by now rewrite length_map, length_seq.
  rewrite map_nth, seq_nth by assumption. reflexivity.
Qed.

Lemma nth_map2 {A B C : Type} (f : A -> B -> C) (da : A) (db : B) (dc : C)
      (xs : list A) (ys : list B) (k : nat) :
  length xs = length ys -> (k < length xs)%nat ->
  nth k (map2 f xs ys) dc = f (nth k xs da) (nth k ys db).
Proof.
  intros Hlen Hk.
  rewrite (map2_as_seq f da db xs ys (length xs) eq_refl (eq_sym Hlen)).
  now apply (nth_map_seq_gen (fun i => f (nth i xs da) (nth i ys db))).
Qed.

Lemma length_map2 {A B C : Type} (f : A -> B -> C) (xs : list A) (ys : list B) :
  length xs = length ys -> length (map2 f xs ys) = length xs.
Proof.
  revert ys. induction xs as [|x xs IH]; intros [|y ys] H; try discriminate;
    [reflexivity|].
  cbn. f_equal. apply IH. now injection H.
Qed.

Lemma map2_map_r {A B B' C : Type} (f : A -> B -> C) (h : B' -> B)
      (xs : list A) (ys : list B') :
  map2 f xs (map h ys) = map2 (fun x y => f x (h y)) xs ys.
Proof.
  revert ys. induction xs as [|x xs IH]; intros [|y ys]; cbn; try reflexivity.
  now rewrite IH.
Qed.

Lemma map2_map_l {A A' B C : Type} (f : A -> B -> C) (h : A' -> A)
      (xs : list A') (ys : list B) :
  map2 f (map h xs) ys = map2 (fun x y => f (h x) y) xs ys.
Proof.
  revert ys. induction xs as [|x xs IH]; intros [|y ys]; cbn; try reflexivity.
  now rewrite IH.
Qed.

Lemma Forall_map2 {A B C : Type} (P : A -> Prop) (Q : B -> Prop) (S : C -> Prop)
      (f : A -> B -> C) (xs : list A) (ys : list B) :
  (forall x y, P x -> Q y -> S (f x y)) ->
  Forall P xs -> Forall Q ys -> Forall S (map2 f xs ys).
Proof.
  intros Hf Hxs. revert ys.
  induction Hxs as [|x xs Hx Hxs IH]; intros ys Hys; [constructor|].
  destruct Hys as [|y ys Hy Hys]; cbn; constructor; auto.
Qed.

(** ** Truncated importance sampling in the policy loss *)

(** C2: in the truncated-importance-sampling policy loss the coefficient in
    front of the advantage [qret - value], inside the stop-gradient, is
    [min(correction_term, rho_i)], which never exceeds [correction_term]
    however large [rho_i] is; the coefficient carries no gradient, the
    gradient of each gain flows through [log(f_i + eps)] only, and the value
    of the loss is
    [-mean(log(f_i + eps) * (advantage * min(correction_term, rho_i)))]. *)
Theorem loss_f_truncated_importance :
  forall (correction_term : R) (qret value rho_i f_i : list dual) (n : nat),
    length qret = n -> length value = n -> length rho_i = n -> length f_i = n ->
    let advantage k := val (nth k qret d_zero) - val (nth k value d_zero) in
    let coef k := Rmin correction_term (val (nth k rho_i d_zero)) in
    let f k := nth k f_i d_zero in
    val (loss_f correction_term qret value rho_i f_i)
    = - reduce_mean (map (fun k => ln (val (f k) + eps) * (advantage k * coef k))
                         (seq 0 n))
    /\ forall k, (k < n)%nat ->
         nth k (gain_coefficient correction_term qret value rho_i) d_zero
         = mk_dual (advantage k * coef k) 0
         /\ nth k (gain_f correction_term qret value rho_i f_i) d_zero
            = mk_dual (ln (val (f k) + eps) * (advantage k * coef k))
                      (tan (f k) / (val (f k) + eps) * (advantage k * coef k))
         /\ coef k <= correction_term.
Proof.
  intros c qret value rho_i f_i n Hq Hv Hrho Hf advantage coef f.
  assert (Hcoef : gain_coefficient c qret value rho_i
                  = map (fun k => mk_dual (advantage k * coef k) 0) (seq 0 n)).
  { unfold gain_coefficient, adv.
    rewrite (map2_as_seq d_sub d_zero d_zero qret value n Hq Hv).
    rewrite (map_as_seq (d_min_const c) d_zero rho_i n Hrho).
    rewrite map2_map_map, map_map. reflexivity. }
  assert (Hgain : gain_f c qret value rho_i f_i
                  = map (fun k => mk_dual (ln (val (f k) + eps) * (advantage k * coef k))
                                          (tan (f k) / (val (f k) + eps)
                                           * (advantage k * coef k)))
                        (seq 0 n)).
  { unfold gain_f, log_f. rewrite Hcoef.
    rewrite (map_as_seq (fun x => d_log (d_add_const x eps)) d_zero f_i n Hf).
    rewrite map2_map_map. apply map_ext. intros k.
    unfold d_mul, d_log, d_add_const. cbn [val tan]. fold (f k).
    f_equal. ring. }
  split.
  - unfold loss_f, d_neg, d_reduce_mean. cbn [val]. rewrite Hgain, map_map.
    reflexivity.
  - intros k Hk. rewrite Hcoef, Hgain, !nth_map_seq_gen by assumption.
    repeat split. apply Rmin_l.
Qed.

Lemma loss_f_truncated_importance_witness :
  let qret := [mk_dual 3 1] in
  let value := [mk_dual 1 1] in
  let rho_i := [mk_dual 1000 1] in
  let f_i := [mk_dual (1/2) 1] in
  let advantage k := val (nth k qret d_zero) - val (nth k value d_zero) in
  let coef k := Rmin 10 (val (nth k rho_i d_zero)) in
  let f k := nth k f_i d_zero in
  val (loss_f 10 qret value rho_i f_i)
  = - reduce_mean (map (fun k => ln (val (f k) + eps) * (advantage k * coef k))
                       (seq 0 1))
  /\ forall k, (k < 1)%nat ->
       nth k (gain_coefficient 10 qret value rho_i) d_zero
       = mk_dual (advantage k * coef k) 0
       /\ nth k (gain_f 10 qret value rho_i f_i) d_zero
          = mk_dual (ln (val (f k) + eps) * (advantage k * coef k))
                    (tan (f k) / (val (f k) + eps) * (advantage k * coef k))
       /\ coef k <= 10.
Proof.
  apply (loss_f_truncated_importance 10 [mk_dual 3 1] [mk_dual 1 1]
           [mk_dual 1000 1] [mk_dual (1/2) 1] 1); reflexivity.
Defined.

(** With an importance ratio of 1000 and [correction_term = 10] the
    advantage 2 is multiplied by 10, not by 1000. *)
Example gain_coefficient_truncates :
  gain_coefficient 10 [mk_dual 3 1] [mk_dual 1 1] [mk_dual 1000 1] = [mk_dual 20 0].
Proof.
  unfold gain_coefficient, adv, stop_gradient, d_mul, d_sub, d_min_const.
  cbn [map map2 val tan]. unfold Rmin. destruct (Rle_dec 10 1000); [|lra].
  repeat f_equal. lra.
Qed.

(** ** Trust-region adjustment *)

Lemma shape_row (t : list (list R)) (n m r : nat) :
  shape t n m -> (r < n)%nat -> length (nth r t []) = m.
Proof.
  intros [Hn Hrows] Hr.
  rewrite Forall_forall in Hrows. apply Hrows, nth_In. lia.
Qed.

Lemma eps_pos : 0 < eps.
Proof. unfold eps. lra. Qed.

Lemma rsum_squares_nonneg (xs : list R) : 0 <= rsum (map (fun x => x * x) xs).
Proof.
  induction xs as [|x xs IH]; cbn; [lra|]. nra.
Qed.

Lemma map2_minus_zero_scaled (gs ks : list R) :
  length gs = length ks -> map2 (fun g k => g - 0 * k) gs ks = gs.
Proof.
  revert ks. induction gs as [|g gs IH]; intros [|k ks] H; try discriminate;
    [reflexivity|].
  cbn. f_equal; [lra|]. apply IH. now injection H.
Qed.

(** C3: with the trust region enabled, for each row [r] of the batch the
    KL gradient is [-f_polyak / (distribution_f + eps)], the adjustment
    factor is [max(0, (sum_a kl_grad * grad - delta) / (sum_a kl_grad^2 + eps))],
    it is never negative, the adjusted gradient is [grad - adj * kl_grad],
    its linearised KL term is not larger than that of [grad], and the row is
    left unchanged when [sum_a kl_grad * grad <= delta]. *)
Theorem trust_region_adjustment :
  forall (f_polyak distribution_f grad : list (list R)) (delta : R) (n n_act r : nat),
    shape f_polyak n n_act -> shape distribution_f n n_act -> shape grad n n_act ->
    (r < n)%nat ->
    let kl := kl_grad f_polyak distribution_f in
    let k_r := nth r kl [] in
    let g_r := nth r grad [] in
    let a_r := nth r (adj kl grad delta) 0 in
    let g_r' := nth r (trust_region_grad f_polyak distribution_f grad delta) [] in
    k_r = map2 (fun p f => - p / (f + eps)) (nth r f_polyak []) (nth r distribution_f [])
    /\ nth r (k_dot_g kl grad) 0 = rsum (vmul k_r g_r)
    /\ a_r = Rmax 0 ((rsum (vmul k_r g_r) - delta)
                     / (rsum (map (fun x => x * x) k_r) + eps))
    /\ 0 <= a_r
    /\ g_r' = map2 (fun g k => g - a_r * k) g_r k_r
    /\ rsum (vmul k_r g_r') <= rsum (vmul k_r g_r)
    /\ (rsum (vmul k_r g_r) <= delta -> g_r' = g_r).
Proof.
  intros f_polyak distribution_f grad delta n n_act r Hp Hf Hg Hr kl k_r g_r a_r g_r'.
  assert (Hkl : kl = map (fun i => map2 (fun p f => - p / (f + eps))
                                         (nth i f_polyak []) (nth i distribution_f []))
                         (seq 0 n)).
  { unfold kl, kl_grad, kl_grad_denominator, t_div, t_neg, t_add_scalar.
    rewrite (map_as_seq (map Ropp) [] f_polyak n (proj1 Hp)).
    rewrite (map_as_seq (map (fun x => x + eps)) [] distribution_f n (proj1 Hf)).
    rewrite map2_map_map. apply map_ext. intros i.
    rewrite map2_map_l, map2_map_r. reflexivity. }
  assert (Hk_r : k_r = map2 (fun p f => - p / (f + eps))
                             (nth r f_polyak []) (nth r distribution_f [])).
  { unfold k_r. rewrite Hkl. now rewrite nth_map_seq_gen. }
  assert (Hlen_k : length k_r = n_act).
  { rewrite Hk_r, length_map2; rewrite (shape_row _ _ _ _ Hp Hr); [reflexivity|].
    now rewrite (shape_row _ _ _ _ Hf Hr). }
  assert (Hlen_g : length g_r = n_act) by (apply (shape_row _ _ _ _ Hg Hr)).
  assert (Hlen_kl : length kl = n) by (rewrite Hkl; now rewrite length_map, length_seq).
  assert (Hkg : k_dot_g kl grad = map (fun i => rsum (vmul (nth i kl []) (nth i grad [])))
                                      (seq 0 n)).
  { unfold k_dot_g, reduce_sum_last, t_mul.
    rewrite (map2_as_seq _ [] [] kl grad n Hlen_kl (proj1 Hg)), map_map. reflexivity. }
  assert (Hadj : adj kl grad delta
                 = map (fun i => Rmax 0 ((rsum (vmul (nth i kl []) (nth i grad [])) - delta)
                                         / (rsum (map (fun x => x * x) (nth i kl [])) + eps)))
                       (seq 0 n)).
  { unfold adj, adj_denominator. fold (k_dot_g kl grad). rewrite Hkg.
    unfold reduce_sum_last, t_square.
    rewrite (map_as_seq (map (fun x => x * x)) [] kl n Hlen_kl).
    rewrite !map_map, map2_map_map, map_map. reflexivity. }
  assert (Ha_r : a_r = Rmax 0 ((rsum (vmul k_r g_r) - delta)
                               / (rsum (map (fun x => x * x) k_r) + eps))).
  { unfold a_r. rewrite Hadj. now rewrite nth_map_seq_gen. }
  assert (Hg_r' : g_r' = map2 (fun g k => g - a_r * k) g_r k_r).
  { unfold g_r', trust_region_grad, grad_adjusted. fold kl.
    assert (Hlen_adj : length (adj kl grad delta) = n)
      by (rewrite Hadj; now rewrite length_map, length_seq).
    assert (Hlen_sc : length (map2 vscale (adj kl grad delta) kl) = n)
      by (rewrite length_map2; congruence).
    rewrite (nth_map2 vsub [] [] [] grad _ r) by (destruct Hg; congruence || lia).
    rewrite (nth_map2 vscale 0 [] [] (adj kl grad delta) kl r) by (congruence || lia).
    unfold vsub, vscale. rewrite map2_map_r. reflexivity. }
  assert (Hden : 0 < rsum (map (fun x => x * x) k_r) + eps).
  { pose proof (rsum_squares_nonneg k_r). pose proof eps_pos. lra. }
  assert (Hnonneg : 0 <= a_r) by (rewrite Ha_r; apply Rmax_l).
  split; [exact Hk_r|].
  split; [unfold k_r, g_r; rewrite Hkg; now rewrite nth_map_seq_gen|].
  split; [exact Ha_r|].
  split; [exact Hnonneg|].
  split; [exact Hg_r'|].
  split.
  - rewrite Hg_r'.
    assert (Hlin : forall (ks gs : list R) (a : R), length ks = length gs ->
               rsum (vmul ks (map2 (fun g k => g - a * k) gs ks))
               = rsum (vmul ks gs) - a * rsum (map (fun x => x * x) ks)).
    { clear. unfold vmul.
      induction ks as [|k ks IH]; intros [|g gs] a H; try discriminate;
        cbn [map2 map rsum]; [lra|].
      rewrite (IH gs a) by (now injection H). lra. }
    rewrite Hlin by congruence.
    pose proof (rsum_squares_nonneg k_r). nra.
  - intros Hle. rewrite Hg_r'.
    assert (Hzero : a_r = 0).
    { rewrite Ha_r. apply Rmax_left.
      apply Rmult_le_reg_r with (r := rsum (map (fun x => x * x) k_r) + eps);
        [exact Hden|].
      unfold Rdiv. rewrite Rmult_assoc, Rinv_l by lra. lra. }
    rewrite Hzero. apply map2_minus_zero_scaled. congruence.
Qed.

Lemma trust_region_adjustment_witness :
  let f_polyak := [[1/2; 1/2]] in
  let distribution_f := [[1/2; 1/2]] in
  let grad := [[1; 0]] in
  let kl := kl_grad f_polyak distribution_f in
  let k_r := nth 0 kl [] in
  let g_r := nth 0 grad [] in
  let a_r := nth 0 (adj kl grad 1) 0 in
  let g_r' := nth 0 (trust_region_grad f_polyak distribution_f grad 1) [] in
  k_r = map2 (fun p f => - p / (f + eps)) (nth 0 f_polyak []) (nth 0 distribution_f [])
  /\ nth 0 (k_dot_g kl grad) 0 = rsum (vmul k_r g_r)
  /\ a_r = Rmax 0 ((rsum (vmul k_r g_r) - 1)
                   / (rsum (map (fun x => x * x) k_r) + eps))
  /\ 0 <= a_r
  /\ g_r' = map2 (fun g k => g - a_r * k) g_r k_r
  /\ rsum (vmul k_r g_r') <= rsum (vmul k_r g_r)
  /\ (rsum (vmul k_r g_r) <= 1 -> g_r' = g_r).
Proof.
  apply (trust_region_adjustment [[1/2; 1/2]] [[1/2; 1/2]] [[1; 0]] 1 1 2 0);
    try (split; [reflexivity | repeat constructor]).
  lia.
Defined.

(** ** Denominators *)

Lemma tensor_forall_add_eps (t : list (list R)) :
  tensor_forall (fun x => 0 <= x) t ->
  tensor_forall (fun d => 0 < d) (t_add_scalar t eps).
Proof.
  intros H. unfold tensor_forall, t_add_scalar.
  apply Forall_map. eapply Forall_impl; [|exact H].
  intros row Hrow. apply Forall_map. eapply Forall_impl; [|exact Hrow].
  intros x Hx. cbn. pose proof eps_pos. lra.
Qed.

Lemma tensor_forall_impl (P Q : R -> Prop) (t : list (list R)) :
  (forall x, P x -> Q x) -> tensor_forall P t -> tensor_forall Q t.
Proof.
  intros HPQ H. eapply Forall_impl; [|exact H].
  intros row Hrow. eapply Forall_impl; [|exact Hrow]. exact HPQ.
Qed.

Lemma rho_nonneg (distribution_f mu : list (list R)) :
  tensor_forall (fun x => 0 <= x) distribution_f ->
  tensor_forall (fun x => 0 <= x) mu ->
  tensor_forall (fun x => 0 <= x) (rho distribution_f mu).
Proof.
  intros Hf Hmu. unfold rho, t_div, rho_denominator.
  apply (Forall_map2 (Forall (fun x => 0 <= x)) (Forall (fun d => 0 < d))
                     (Forall (fun x => 0 <= x))); [|exact Hf|].
  - intros xs ys Hxs Hys.
    apply (Forall_map2 (fun x => 0 <= x) (fun d => 0 < d) (fun x => 0 <= x));
      [|exact Hxs|exact Hys].
    intros x y Hx Hy. unfold Rdiv. apply Rmult_le_pos; [exact Hx|].
    left. now apply Rinv_0_lt_compat.
  - now apply tensor_forall_add_eps.
Qed.

Lemma map2_ext {A B C : Type} (f g : A -> B -> C) (xs : list A) (ys : list B) :
  (forall x y, f x y = g x y) -> map2 f xs ys = map2 g xs ys.
Proof.
  intros H. revert ys. induction xs as [|x xs IH]; intros [|y ys]; cbn; try reflexivity.
  now rewrite H, IH.
Qed.

Lemma rho_divides_by_mu_plus_eps (distribution_f mu : list (list R)) :
  rho distribution_f mu = map2 (map2 (fun f m => f / (m + eps))) distribution_f mu.
Proof.
  unfold rho, t_div, rho_denominator, t_add_scalar.
  rewrite map2_map_r. apply map2_ext. intros xs ys. apply map2_map_r.
Qed.

Lemma bc_ratio_divides_by_rho_plus_eps (c : R) (rho_t : list (list R)) :
  bc_ratio c rho_t = map (map (fun r => c / (r + eps))) rho_t.
Proof.
  unfold bc_ratio, bc_denominator, t_add_scalar.
  rewrite map_map. apply map_ext. intros row. apply map_map.
Qed.

Lemma kl_grad_divides_by_f_plus_eps (f_polyak distribution_f : list (list R)) :
  kl_grad f_polyak distribution_f
  = map2 (map2 (fun p f => - p / (f + eps))) f_polyak distribution_f.
Proof.
  unfold kl_grad, t_div, t_neg, kl_grad_denominator, t_add_scalar.
  rewrite map2_map_l, map2_map_r. apply map2_ext. intros xs ys.
  now rewrite map2_map_l, map2_map_r.
Qed.

Lemma adj_divides_by_squares_plus_eps (kl grad : list (list R)) (delta : R) :
  adj kl grad delta
  = map2 (fun k g => Rmax 0 ((rsum (vmul k g) - delta)
                             / (rsum (map (fun x => x * x) k) + eps)))
         kl grad.
Proof.
  unfold adj, adj_denominator, reduce_sum_last, t_square, t_mul.
  revert grad. induction kl as [|k kl IH]; intros [|g grad]; try reflexivity.
  cbn [map2 map]. f_equal. apply IH.
Qed.

(** C7: every division of the loss and gradient assembly that could see a
    zero denominator adds [eps = 1e-6] to its denominator: the importance
    ratio is [distribution_f / (mu + eps)], the bias-correction ratio
    [correction_term / (rho + eps)], the KL gradient
    [-f_polyak / (distribution_f + eps)] and the adjustment factor divides by
    [sum_a kl_grad^2 + eps]; for non-negative probabilities none of these
    denominators is zero. *)
Theorem denominators_nonzero :
  forall (distribution_f mu f_polyak grad : list (list R)) (correction_term delta : R),
    tensor_forall (fun x => 0 <= x) distribution_f ->
    tensor_forall (fun x => 0 <= x) mu ->
    eps = 1 / 1000000
    /\ rho distribution_f mu
       = map2 (map2 (fun f m => f / (m + eps))) distribution_f mu
    /\ tensor_forall (fun m => m + eps <> 0) mu
    /\ bc_ratio correction_term (rho distribution_f mu)
       = map (map (fun r => correction_term / (r + eps))) (rho distribution_f mu)
    /\ tensor_forall (fun r => r + eps <> 0) (rho distribution_f mu)
    /\ kl_grad f_polyak distribution_f
       = map2 (map2 (fun p f => - p / (f + eps))) f_polyak distribution_f
    /\ tensor_forall (fun f => f + eps <> 0) distribution_f
    /\ adj (kl_grad f_polyak distribution_f) grad delta
       = map2 (fun k g => Rmax 0 ((rsum (vmul k g) - delta)
                                  / (rsum (map (fun x => x * x) k) + eps)))
              (kl_grad f_polyak distribution_f) grad
    /\ Forall (fun k => rsum (map (fun x => x * x) k) + eps <> 0)
              (kl_grad f_polyak distribution_f).
Proof.
  intros distribution_f mu f_polyak grad c delta Hf Hmu.
  assert (Hne : forall x : R, 0 <= x -> x + eps <> 0)
    by (intros x Hx; pose proof eps_pos; lra).
  split; [reflexivity|].
  split; [apply rho_divides_by_mu_plus_eps|].
  split; [exact (tensor_forall_impl _ _ _ Hne Hmu)|].
  split; [apply bc_ratio_divides_by_rho_plus_eps|].
  split; [apply (tensor_forall_impl _ _ _ Hne); now apply rho_nonneg|].
  split; [apply kl_grad_divides_by_f_plus_eps|].
  split; [exact (tensor_forall_impl _ _ _ Hne Hf)|].
  split; [apply adj_divides_by_squares_plus_eps|].
  apply Forall_forall. intros k _. apply Hne, rsum_squares_nonneg.
Qed.

Lemma denominators_nonzero_witness :
  eps = 1 / 1000000
  /\ rho [[0; 1]] [[0; 1]] = map2 (map2 (fun f m => f / (m + eps))) [[0; 1]] [[0; 1]]
  /\ tensor_forall (fun m => m + eps <> 0) [[0; 1]]
  /\ bc_ratio 10 (rho [[0; 1]] [[0; 1]])
     = map (map (fun r => 10 / (r + eps))) (rho [[0; 1]] [[0; 1]])
  /\ tensor_forall (fun r => r + eps <> 0) (rho [[0; 1]] [[0; 1]])
  /\ kl_grad [[0; 0]] [[0; 1]]
     = map2 (map2 (fun p f => - p / (f + eps))) [[0; 0]] [[0; 1]]
  /\ tensor_forall (fun f => f + eps <> 0) [[0; 1]]
  /\ adj (kl_grad [[0; 0]] [[0; 1]]) [[1; 2]] 1
     = map2 (fun k g => Rmax 0 ((rsum (vmul k g) - 1)
                                / (rsum (map (fun x => x * x) k) + eps)))
            (kl_grad [[0; 0]] [[0; 1]]) [[1; 2]]
  /\ Forall (fun k => rsum (map (fun x => x * x) k) + eps <> 0)
            (kl_grad [[0; 0]] [[0; 1]]).
Proof.
  apply (denominators_nonzero [[0; 1]] [[0; 1]] [[0; 0]] [[1; 2]] 10 1);
    repeat constructor; lra.
Defined.

(** With a behaviour probability 0 the importance ratio is [f / eps], a
    finite number. *)
Example rho_at_zero_mu : rho [[1 / 2]] [[0]] = [[500000]].
Proof.
  rewrite rho_divides_by_mu_plus_eps. unfold eps. cbn [map2].
  repeat f_equal. field.
Qed.

(** ** Frame stacking *)

Lemma nth_map_gen {A B : Type} (f : A -> B) (d : A) (d' : B) (l : list A) (k : nat) :
  (k < length l)%nat -> nth k (map f l) d' = f (nth k l d).
Proof.
  intros Hk. rewrite (nth_indep _ d' (f d)) by now rewrite length_map.
  apply map_nth.
Qed.

Lemma np_roll_left (c : nat) (l : list Z) :
  (c <= length l)%nat ->
  np_roll (- Z.of_nat c) l = skipn c l ++ firstn c l.
Proof.
  intros Hc. unfold np_roll.
  apply nth_ext with (d := 0%Z) (d' := 0%Z).
  - rewrite length_map, length_seq, length_app, length_skipn, length_firstn. lia.
  - rewrite length_map, length_seq. intros j Hj.
    rewrite (nth_map_seq_gen _ 0%Z) by assumption.
    replace (Z.of_nat j - - Z.of_nat c)%Z with (Z.of_nat (j + c)) by lia.
    rewrite <- Nat2Z.inj_mod, Nat2Z.id.
    destruct (Nat.lt_ge_cases (j + c) (length l)) as [Hlt|Hge].
    + rewrite Nat.mod_small by assumption.
      rewrite app_nth1 by (rewrite length_skipn; lia).
      rewrite nth_skipn. f_equal. lia.
    + replace (j + c)%nat with ((j + c - length l) + 1 * length l)%nat at 1 by lia.
      rewrite Nat.Div0.mod_add, Nat.mod_small by lia.
      rewrite app_nth2 by (rewrite length_skipn; lia).
      rewrite length_skipn, nth_firstn.
      destruct (Nat.ltb_spec (j - (length l - c)) c); [f_equal; lia | lia].
Qed.

Lemma roll_then_set_last (c nstack : nat) (l v : list Z) :
  length l = (c * nstack)%nat ->
  set_last c (np_roll (- Z.of_nat c) l) v = skipn c l ++ map uint8 v.
Proof.
  intros Hl. unfold set_last. f_equal.
  destruct (Nat.eqb_spec c 0) as [->|Hc].
  - destruct l; [reflexivity | discriminate].
  - destruct nstack as [|k].
    { rewrite Nat.mul_0_r in Hl. destruct l; [|discriminate].
      cbn. now destruct c. }
    assert (c <= length l)%nat by nia.
    rewrite np_roll_left by assumption.
    rewrite length_app, length_skipn, length_firstn.
    replace (length l - c + Nat.min c (length l) - c)%nat
      with (length (skipn c l) + 0)%nat by (rewrite length_skipn; lia).
    rewrite firstn_app_2. cbn. apply app_nil_r.
Qed.

Lemma mask_done_true (l : list Z) :
  map (fun x => uint8 (x * uint8 (1 - bool_to_uint8 true))) l = repeat 0%Z (length l).
Proof.
  induction l as [|x l IH]; cbn [map length repeat]; [reflexivity|].
  rewrite IH. f_equal. cbn. unfold uint8. now rewrite Z.mul_0_r.
Qed.

Lemma mask_done_false (l : list Z) :
  Forall is_uint8 l ->
  map (fun x => uint8 (x * uint8 (1 - bool_to_uint8 false))) l = l.
Proof.
  induction 1 as [|x l Hx Hl IH]; cbn [map]; [reflexivity|].
  rewrite IH. f_equal. cbn. unfold uint8.
  change (1 mod 256)%Z with 1%Z. rewrite Z.mul_1_r.
  apply Z.mod_small. exact Hx.
Qed.

Lemma uint8_id (l : list Z) : Forall is_uint8 l -> map uint8 l = l.
Proof.
  induction 1 as [|x l Hx Hl IH]; cbn [map]; [reflexivity|].
  rewrite IH. f_equal. apply Z.mod_small. exact Hx.
Qed.

Lemma skipn_repeat {A : Type} (a : A) (c n : nat) :
  skipn c (repeat a n) = repeat a (n - c).
Proof.
  revert n. induction c as [|c IH]; intros [|n]; cbn; auto.
Qed.

Lemma has_shape_pixel (t : list (list (list (list Z)))) (n H W L e h w : nat) :
  has_shape t n H W L -> (e < n)%nat -> (h < H)%nat -> (w < W)%nat ->
  length (nth e t []) = H
  /\ length (nth h (nth e t []) []) = W
  /\ length (pixel t e h w) = L
  /\ Forall is_uint8 (pixel t e h w).
Proof.
  intros [Hn Ht] He Hh Hw. unfold pixel.
  rewrite Forall_forall in Ht.
  destruct (Ht (nth e t []) ltac:(apply nth_In; lia)) as [HH Him].
  rewrite Forall_forall in Him.
  destruct (Him (nth h (nth e t []) []) ltac:(apply nth_In; lia)) as [HW Hrow].
  rewrite Forall_forall in Hrow.
  destruct (Hrow (nth w (nth h (nth e t []) []) []) ltac:(apply nth_In; lia)) as [HL Hpx].
  auto.
Qed.

(** C6: when [update_obs] is called with done flags, a pixel of a finished
    environment ends up with zeros in all older channel slots and the raw
    frame in the newest [C] slots; a pixel of a running environment is
    shifted by [C] channels, losing its oldest frame, and gets the raw frame
    in the newest [C] slots. *)
Theorem update_obs_stack :
  forall (num_channels nstack n_env height width : nat)
         (self_obs obs : list (list (list (list Z)))) (dones : list bool)
         (e h w : nat),
    has_shape self_obs n_env height width (num_channels * nstack) ->
    has_shape obs n_env height width num_channels ->
    length dones = n_env ->
    (e < n_env)%nat -> (h < height)%nat -> (w < width)%nat ->
    pixel (update_obs num_channels self_obs obs (Some dones)) e h w
    = (if nth e dones false
       then repeat 0%Z (num_channels * nstack - num_channels)
       else skipn num_channels (pixel self_obs e h w))
      ++ pixel obs e h w.
Proof.
  intros C nstack n_env H W self_obs obs dones e h w Hself Hobs Hd He Hh Hw.
  destruct (has_shape_pixel _ _ _ _ _ e h w Hself He Hh Hw) as (HsH & HsW & HsL & Hsu).
  destruct (has_shape_pixel _ _ _ _ _ e h w Hobs He Hh Hw) as (HoH & HoW & HoL & Hou).
  destruct Hself as [Hsn _]. destruct Hobs as [Hon _].
  assert (Hpx : pixel (update_obs C self_obs obs (Some dones)) e h w
                = set_last C
                    (np_roll (- Z.of_nat C)
                       (map (fun x => uint8 (x * uint8 (1 - bool_to_uint8 (nth e dones false))))
                            (pixel self_obs e h w)))
                    (pixel obs e h w)).
  { unfold pixel, update_obs, mask_done.
    rewrite (nth_map2 _ [] [] []) by (rewrite length_map, length_map2; lia).
    rewrite (nth_map_gen _ [] []) by (rewrite length_map2; lia).
    rewrite (nth_map2 _ [] false []) by lia.
    rewrite (nth_map2 _ [] [] [])
      by (rewrite !length_map; lia).
    rewrite (nth_map_gen _ [] []) by (rewrite length_map; lia).
    rewrite (nth_map_gen _ [] []) by lia.
    rewrite (nth_map2 _ [] [] [])
      by (rewrite !length_map; lia).
    rewrite (nth_map_gen _ [] []) by (rewrite length_map; lia).
    rewrite (nth_map_gen _ [] []) by lia.
    reflexivity. }
  assert (Heq : pixel (update_obs C self_obs obs (Some dones)) e h w
                = (if nth e dones false
                   then repeat 0%Z (C * nstack - C)
                   else skipn C (pixel self_obs e h w))
                  ++ pixel obs e h w).
  { rewrite Hpx.
    destruct (nth e dones false).
    - rewrite mask_done_true.
      rewrite (roll_then_set_last C nstack) by (now rewrite repeat_length).
      rewrite skipn_repeat, HsL, uint8_id by assumption. reflexivity.
    - rewrite mask_done_false by assumption.
      rewrite (roll_then_set_last C nstack) by assumption.
      now rewrite uint8_id. }
  exact Heq.
Qed.

Ltac solve_shape :=
  repeat (split || constructor); unfold is_uint8; lia.

Lemma update_obs_stack_witness :
  pixel (update_obs 1 [[[[5; 6]]]; [[[7; 8]]]]%Z [[[[9]]]; [[[10]]]]%Z
                    (Some [true; false]))
        0 0 0
  = (if nth 0 [true; false] false
     then repeat 0%Z (1 * 2 - 1)
     else skipn 1 (pixel [[[[5; 6]]]; [[[7; 8]]]]%Z 0 0 0))
    ++ pixel [[[[9]]]; [[[10]]]]%Z 0 0 0.
Proof.
  apply (update_obs_stack 1 2 2 1 1 [[[[5; 6]]]; [[[7; 8]]]]%Z [[[[9]]]; [[[10]]]]%Z
           [true; false] 0 0 0); try solve_shape; reflexivity.
Defined.

(** Two environments with two stacked one-channel frames each: the first
    one has finished, the second one has not. *)
Example update_obs_two_envs :
  update_obs 1 [[[[5; 6]]]; [[[7; 8]]]]%Z [[[[9]]]; [[[10]]]]%Z (Some [true; false])
  = [[[[0; 9]]]; [[[8; 10]]]]%Z.
Proof. reflexivity. Qed.

(** ** Rollout collection: done flags and masks *)

Lemma nth_map2_lt {A B C : Type} (f : A -> B -> C) (da : A) (db : B) (dc : C)
      (xs : list A) (ys : list B) (k : nat) :
  (k < length (map2 f xs ys))%nat ->
  nth k (map2 f xs ys) dc = f (nth k xs da) (nth k ys db).
Proof.
  revert ys k. induction xs as [|x xs IH]; intros [|y ys] k Hk; cbn in Hk; try lia.
  destruct k as [|k]; cbn; [reflexivity|]. apply IH. lia.
Qed.

Lemma swapaxes_nth {A : Type} (d : A) (n : nat) (rows : list (list A)) (e : nat) :
  (e < length (swapaxes n rows))%nat ->
  nth e (swapaxes n rows) [] = map (fun r => nth e r d) rows.
Proof.
  revert e. induction rows as [|r rows IH]; intros e He; cbn [swapaxes map] in *.
  - apply nth_repeat.
  - rewrite (nth_map2_lt cons d [] []) by assumption.
    f_equal. apply IH.
    clear -He. revert He. generalize (swapaxes n rows). revert e.
    induction r as [|x r IHr]; intros e [|y ys] He; cbn in He; try lia.
    destruct e as [|e]; cbn; [lia|]. apply -> Nat.succ_lt_mono.
    apply (IHr e ys). lia.
Qed.

Lemma swapaxes_length {A : Type} (n : nat) (rows : list (list A)) :
  Forall (fun r => length r = n) rows -> length (swapaxes n rows) = n.
Proof.
  induction 1 as [|r rows Hr Hrows IH]; cbn [swapaxes].
  - apply repeat_length.
  - rewrite length_map2; congruence.
Qed.

Section RunnerCorrect.
Variables (Action Mus State EnvSt : Type).
Variables (n_env n_steps nstack num_channels : nat).
Variable env_step :
  EnvSt -> list Action -> list (list (list (list Z))) * list R * list bool * EnvSt.
Variable model_step :
  list (list (list (list Z))) -> State -> list bool -> list Action * list Mus * State.

Lemma length_step_results (n : nat) (self : runner State EnvSt) :
  length (step_results num_channels env_step model_step n self) = n.
Proof.
  revert self. induction n as [|n IH]; intros self; cbn [step_results]; [reflexivity|].
  destruct (model_step _ _ _) as [[actions mus] states].
  destruct (env_step _ _) as [[[obs rewards] dones] env'].
  cbn [length]. now rewrite IH.
Qed.

Lemma run_loop_trace (n : nat) (self : runner State EnvSt) (mb : minibatch Action Mus) :
  let st := run_loop num_channels env_step model_step n self mb in
  let results := step_results num_channels env_step model_step n self in
  mb_dones (snd st) ++ [r_dones (fst st)]
  = mb_dones mb ++ r_dones self :: map snd results
  /\ mb_rewards (snd st) = mb_rewards mb ++ map (fun r => snd (fst r)) results.
Proof.
  revert self mb. induction n as [|n IH]; intros self mb; cbn [run_loop step_results].
  - cbn. now rewrite app_nil_r.
  - destruct (model_step _ _ _) as [[actions mus] states].
    destruct (env_step _ _) as [[[obs rewards] dones] env'].
    match goal with
    | |- context [run_loop _ _ _ n ?s ?m] => destruct (IH s m) as [Hd Hr]
    end.
    cbn zeta in Hd, Hr |- *. rewrite Hd, Hr. cbn [mb_dones mb_rewards r_dones map snd fst].
    rewrite <- !app_assoc. split; reflexivity.
Qed.
End RunnerCorrect.

Section RunDones.
Variables (Action Mus State EnvSt : Type).
Variables (n_env n_steps nstack num_channels : nat).
Variable env_step :
  EnvSt -> list Action -> list (list (list (list Z))) * list R * list bool * EnvSt.
Variable model_step :
  list (list (list (list Z))) -> State -> list bool -> list Action * list Mus * State.

(** C5, as the code has it: [run] returns masks rows with all
    [n_steps + 1] recorded done flags, starting with the flag the runner held
    before the rollout, and dones rows of length [n_steps] that drop this
    first flag: [dones[env, t] = masks[env, t + 1]], the flag returned by the
    [env.step] call that returned [rewards[env, t]]. *)
Theorem run_dones_drop_first_mask :
  forall (self : runner State EnvSt) (e : nat),
    let out := fst (run n_env n_steps nstack num_channels env_step model_step self) in
    let results := step_results num_channels env_step model_step n_steps self in
    (e < length (out_masks out))%nat ->
    length (nth e (out_masks out) []) = (n_steps + 1)%nat
    /\ length (nth e (out_dones out) []) = n_steps
    /\ nth 0 (nth e (out_masks out) []) false = nth e (r_dones self) false
    /\ forall t, (t < n_steps)%nat ->
         nth t (nth e (out_dones out) []) false
         = nth (S t) (nth e (out_masks out) []) false
         /\ nth t (nth e (out_dones out) []) false
            = nth e (snd (nth t results ([], [], []))) false
         /\ ((e < length (out_rewards out))%nat ->
             nth t (nth e (out_rewards out) []) 0
             = nth e (snd (fst (nth t results ([], [], [])))) 0).
Proof.
  intros self e out results He.
  pose proof (run_loop_trace Action Mus State EnvSt num_channels env_step model_step
                n_steps self
                (mk_minibatch Action Mus (np_split_axis3 (r_obs self) nstack) [] [] [] [] []))
    as Htrace.
  cbn zeta in Htrace. fold results in Htrace.
  unfold out, run in *.
  destruct (run_loop num_channels env_step model_step n_steps self _) as [self' mb].
  cbn [fst snd out_masks out_dones out_rewards mb_dones mb_rewards app] in *.
  destruct Htrace as [Hd Hr]. rewrite Hd in *. rewrite Hr in *. clear Hd Hr.
  assert (Hlen : length results = n_steps) by apply length_step_results.
  assert (Hmask : nth e (swapaxes n_env (r_dones self :: map snd results)) []
                  = map (fun r => nth e r false) (r_dones self :: map snd results))
    by (now apply swapaxes_nth).
  assert (Hdone : nth e (map (skipn 1) (swapaxes n_env (r_dones self :: map snd results))) []
                  = map (fun r => nth e r false) (map snd results)).
  { rewrite (nth_map_gen _ [] []) by assumption. now rewrite Hmask. }
  rewrite Hmask, Hdone.
  split; [cbn [map length]; rewrite !length_map; lia|].
  split; [rewrite !length_map; lia|].
  split; [reflexivity|].
  intros t Ht. split; [reflexivity|]. split.
  - rewrite map_map.
    now rewrite (nth_map_gen _ ([], [], []) false) by lia.
  - intros Hrew.
    rewrite (swapaxes_nth 0) by assumption.
    rewrite map_map.
    now rewrite (nth_map_gen _ ([], [], []) 0) by lia.
Qed.
End RunDones.

Lemma run_dones_drop_first_mask_witness :
  let out := fst (run 1 1 1 1 ending_env_step constant_model_step fresh_runner) in
  let results := step_results 1 ending_env_step constant_model_step 1 fresh_runner in
  length (nth 0 (out_masks out) []) = (1 + 1)%nat
  /\ length (nth 0 (out_dones out) []) = 1%nat
  /\ nth 0 (nth 0 (out_masks out) []) false = nth 0 (r_dones fresh_runner) false
  /\ forall t, (t < 1)%nat ->
       nth t (nth 0 (out_dones out) []) false
       = nth (S t) (nth 0 (out_masks out) []) false
       /\ nth t (nth 0 (out_dones out) []) false
          = nth 0 (snd (nth t results ([], [], []))) false
       /\ ((0 < length (out_rewards out))%nat ->
           nth t (nth 0 (out_rewards out) []) 0
           = nth 0 (snd (fst (nth t results ([], [], [])))) 0).
Proof.
  apply (run_dones_drop_first_mask unit unit unit unit 1 1 1 1
           ending_env_step constant_model_step fresh_runner 0).
  cbn. lia.
Defined.

(** C5 as stated fails: in a one-step rollout whose [env.step] call reports
    the end of the episode, [masks] is [[false, true]] and [dones] is
    [[true]], so [dones[0, 0]] is not [masks[0, 0]]. *)
Lemma run_dones_not_first_entries :
  let out := fst (run 1 1 1 1 ending_env_step constant_model_step fresh_runner) in
  out_masks out = [[false; true]]
  /\ out_dones out = [[true]]
  /\ ~ (forall e t, (e < 1)%nat -> (t < 1)%nat ->
          nth t (nth e (out_dones out) []) false
          = nth t (nth e (out_masks out) []) false).
Proof.
  cbn. repeat split. intros H.
  specialize (H 0%nat 0%nat ltac:(lia) ltac:(lia)). cbn in H. discriminate.
Qed.

(** ** The Polyak update and the optimizer step *)

(** C4 fails on the graph that [setup_model] builds: [ema_apply_op] is
    constructed before the [tf.control_dependencies([_opt_op])] context is
    opened, so it has no control input; only the grouping op [_train] waits
    for [_opt_op].  Running [_train] may execute the moving average before
    the optimizer, and then the shadow parameters are averaged with the
    parameters from before the step.  With [alpha = 0.99], a parameter that
    the optimizer moves from 1 to 2 and a shadow value 0, this order gives
    0.01 where the specification asks for 0.02. *)
Theorem train_op_does_not_order_ema_after_optimizer :
  control_inputs setup_model_graph EmaApplyOp = []
  /\ control_inputs setup_model_graph TrainOp = [EmaApplyOp; OptOp]
  /\ valid_schedule setup_model_graph TrainOp [OptOp; EmaApplyOp; TrainOp] = true
  /\ valid_schedule setup_model_graph TrainOp [EmaApplyOp; OptOp; TrainOp] = true
  /\ (forall alpha opt_update v,
        shadow (run_schedule alpha opt_update [EmaApplyOp; OptOp; TrainOp] v)
        = map2 (fun s p => s - (1 - alpha) * (s - p)) (shadow v) (live v))
  /\ (forall alpha opt_update v,
        shadow (run_schedule alpha opt_update [OptOp; EmaApplyOp; TrainOp] v)
        = map2 (fun s p => s - (1 - alpha) * (s - p)) (shadow v) (opt_update (live v)))
  /\ shadow (run_schedule (99/100) (fun _ => [2]) [EmaApplyOp; OptOp; TrainOp]
                          (mk_variables [1] [0]))
     <> polyak_after_step (99/100) (fun _ => [2]) (mk_variables [1] [0]).
Proof.
  repeat split; try reflexivity.
  cbn. intros H. injection H as H. lra.
Qed.

(** ** The training step without trust region *)

(** C9 fails on the code: [setup_model] stores [run_ops] and [names_ops] on
    the object only inside [if self.trust_region:], so with
    [trust_region=False] they keep the [None] of [__init__] and
    [_train_step] raises in [sess.run]; with [trust_region=True] it returns
    the fifteen names and values. *)
Theorem train_step_fails_without_trust_region :
  forall (Obs Actions Proba State Batch : Type)
         (pol : policy_class Obs Actions Proba State) (envs steps : nat) (mgn : R)
         (reshape : Obs -> result Obs) (eval : Batch -> fetch -> R) (td_map : Batch),
    (self <- new_acer pol envs steps false (Some mgn) reshape ;;
     _train_step eval self td_map)
    = Err TypeError
    /\ (self <- new_acer pol envs steps true (Some mgn) reshape ;;
        _train_step eval self td_map)
       = Ok (Some ["loss"; "loss_q"; "entropy"; "loss_policy"; "loss_f"; "loss_bc";
                   "explained_variance"; "norm_grads"; "norm_grads_q";
                   "norm_grads_policy"; "avg_norm_grads_f"; "avg_norm_k";
                   "avg_norm_g"; "avg_norm_k_dot_g"; "avg_norm_adj"]%string,
             map (eval td_map)
                 [F_loss; F_loss_q; F_entropy; F_loss_policy; F_loss_f; F_loss_bc;
                  F_explained_variance; F_norm_grads; F_norm_grads_q;
                  F_norm_grads_policy; F_avg_norm_grads_f; F_avg_norm_k;
                  F_avg_norm_g; F_avg_norm_k_dot_g; F_avg_norm_adj]).
Proof.
  intros. split; reflexivity.
Qed.

(** ** predict and action_probability *)

(** C10 fails on the code: [predict] and [action_probability] look [step]
    up on [self.policy], the policy class, not on the model, so their result
    does not depend on the step function that [setup_model] stored in
    [self.step]; for a policy class whose step function is a closure of its
    instances both raise, although the model's step function answers.  The
    defaults of [state] and [mask] are as the specification says. *)
Theorem predict_ignores_model_step :
  (forall (Obs Actions Proba State : Type) (self : acer Obs Actions Proba State)
          (other_step : option (step_fn Obs Actions Proba State))
          (observation : Obs) (state : option State) (mask : option (list bool)),
      let self' := mk_acer Obs Actions Proba State
                     (policy self) (n_envs self) (n_steps _ _ _ _ self)
                     (trust_region _ _ _ _ self) (max_grad_norm _ _ _ _ self)
                     (run_ops _ _ _ _ self) (names_ops _ _ _ _ self)
                     other_step (initial_state self)
                     (reshape_observation _ _ _ _ self) in
      predict self' observation state mask = predict self observation state mask
      /\ action_probability self' observation state mask
         = action_probability self observation state mask
      /\ predict self observation None None
         = predict self observation (initial_state self)
                   (Some (repeat false (n_envs self))))
  /\ (self <- new_acer closure_policy 2 20 true (Some 10) Ok ;;
      call_model_step self tt (initial_state self) (repeat false (n_envs self)))
     = Ok (7%nat, 1%nat, tt)
  /\ (self <- new_acer closure_policy 2 20 true (Some 10) Ok ;;
      predict self tt None None)
     = Err AttributeError
  /\ (self <- new_acer closure_policy 2 20 true (Some 10) Ok ;;
      action_probability self tt None None)
     = Err AttributeError.
Proof.
  split; [|repeat split].
  intros Obs Actions Proba State self other_step observation state mask self'.
  repeat split.
  unfold predict, default_state. cbn. destruct (initial_state self); reflexivity.
Qed.

(** ** The training loop *)

Section LearnCorrect.
Variables (Rollout Batch Buffer Rng RunnerSt Session : Type).
Variable runner_run : RunnerSt -> result (Rollout * RunnerSt).
Variable rollout_batch : Rollout -> Batch.
Variable buffer_new : Buffer.
Variable buffer_put : Buffer -> Rollout -> result Buffer.
Variable buffer_has_atleast : Buffer -> nat -> bool.
Variable buffer_get : Buffer -> Rng -> result (Batch * Rng).
Variable np_random_poisson : Q -> Rng -> nat * Rng.
Variable train_step : Session -> Batch -> nat -> result Session.
Variable callback : option (nat -> result unit).
Variables (replay_ratio : Q) (replay_start n_batch verbose log_interval : nat).

Let World : Type := world Rollout Batch Buffer Rng RunnerSt Session.
Let iteration : nat -> World -> World * result unit :=
  learn_iteration Rollout Batch Buffer Rng RunnerSt Session runner_run rollout_batch
                  buffer_put buffer_has_atleast buffer_get np_random_poisson train_step
                  callback replay_ratio replay_start n_batch verbose log_interval.
Let replay : nat -> nat -> World -> World * result unit :=
  replay_loop Rollout Batch Buffer Rng RunnerSt Session buffer_get train_step.

Lemma bindM_ok {A B : Type}
      (m : M Rollout Batch Buffer Rng RunnerSt Session A)
      (k : A -> M Rollout Batch Buffer Rng RunnerSt Session B)
      (w w' : World) (b : B) :
  bindM Rollout Batch Buffer Rng RunnerSt Session m k w = (w', Ok b) ->
  exists w1 a, m w = (w1, Ok a) /\ k a w1 = (w', Ok b).
Proof.
  unfold bindM. destruct (m w) as [w1 [a|e]]; [|discriminate].
  intros H. now exists w1, a.
Qed.

Lemma replay_loop_events (k steps : nat) (w w' : World) :
  replay k steps w = (w', Ok tt) ->
  exists batches,
    length batches = k
    /\ w_trace w' = w_trace w ++ replay_events steps batches
    /\ w_buffer w' = w_buffer w.
Proof.
  revert w. induction k as [|k IH]; intros w Hrun.
  - injection Hrun as <-. exists []. cbn. now rewrite app_nil_r.
  - unfold replay in Hrun. cbn [replay_loop] in Hrun.
    unfold bindM at 1, do_get in Hrun.
    destruct (w_buffer w) as [b|] eqn:Hb; [|discriminate].
    destruct (buffer_get b (w_rng w)) as [[batch rng]|e]; [|discriminate].
    unfold bindM at 1, do_train in Hrun. cbn [w_session w_trace] in Hrun.
    destruct (train_step (w_session w) batch steps) as [s|e]; [|discriminate].
    apply IH in Hrun. destruct Hrun as (batches & Hlen & Htrace & Hbuf).
    cbn [w_trace w_buffer] in Htrace, Hbuf.
    exists (batch :: batches). cbn [length replay_events flat_map].
    split; [now rewrite Hlen|]. split; [|congruence].
    rewrite Htrace, <- !app_assoc. reflexivity.
Qed.

Lemma trains_app (xs ys : list (event Rollout Batch)) :
  trains (xs ++ ys) = trains xs ++ trains ys.
Proof. apply flat_map_app. Qed.

Lemma gets_app (xs ys : list (event Rollout Batch)) :
  gets (xs ++ ys) = gets xs ++ gets ys.
Proof. apply flat_map_app. Qed.

Lemma poisson_draws_app (xs ys : list (event Rollout Batch)) :
  poisson_draws (xs ++ ys) = poisson_draws xs ++ poisson_draws ys.
Proof. apply flat_map_app. Qed.

Lemma has_atleast_answers_app (xs ys : list (event Rollout Batch)) :
  has_atleast_answers (xs ++ ys) = has_atleast_answers xs ++ has_atleast_answers ys.
Proof. apply flat_map_app. Qed.

Lemma replay_events_projections (steps : nat) (batches : list Batch) :
  trains (replay_events (Rollout := Rollout) steps batches)
  = map (fun b => (OffPolicy, b, steps)) batches
  /\ poisson_draws (replay_events (Rollout := Rollout) steps batches) = []
  /\ has_atleast_answers (replay_events (Rollout := Rollout) steps batches) = []
  /\ gets (replay_events (Rollout := Rollout) steps batches) = batches.
Proof.
  induction batches as [|b bs (IH1 & IH2 & IH3 & IH4)]; [cbn; auto|].
  change (replay_events (Rollout := Rollout) steps (b :: bs))
    with ([EvGet b; EvTrain OffPolicy b steps]
          ++ replay_events (Rollout := Rollout) steps bs).
  rewrite trains_app, poisson_draws_app, has_atleast_answers_app, gets_app,
    IH1, IH2, IH3, IH4.
  auto.
Qed.

Lemma do_put_events (r : Rollout) (w w1 : World) :
  do_put Rollout Batch Buffer Rng RunnerSt Session buffer_put r w = (w1, Ok tt) ->
  exists put, w_trace w1 = w_trace w ++ put /\ quiet put
              /\ w_session w1 = w_session w /\ w_rng w1 = w_rng w.
Proof.
  unfold do_put. intros H.
  destruct (w_buffer w) as [b|].
  - destruct (buffer_put b r) as [b'|e]; [|discriminate].
    injection H as <-. exists [EvPut r]. cbn. repeat split.
  - injection H as <-. exists []. rewrite app_nil_r. repeat split.
Qed.

Lemma do_callback_events (steps : nat) (w w1 : World) :
  do_callback Rollout Batch Buffer Rng RunnerSt Session callback steps w = (w1, Ok tt) ->
  exists cb, w_trace w1 = w_trace w ++ cb /\ quiet cb
             /\ w_buffer w1 = w_buffer w /\ w_rng w1 = w_rng w.
Proof.
  unfold do_callback. intros H.
  destruct callback as [f|].
  - destruct (f steps) as [u|e]; [|discriminate].
    injection H as <-. exists [EvCallback steps]. cbn. repeat split.
  - injection H as <-. exists []. rewrite app_nil_r. repeat split.
Qed.

Lemma do_log_events (steps : nat) (w w1 : World) :
  do_log Rollout Batch Buffer Rng RunnerSt Session n_batch verbose log_interval steps w
  = (w1, Ok tt) ->
  exists lg, w_trace w1 = w_trace w ++ lg /\ quiet lg
             /\ w_buffer w1 = w_buffer w /\ w_rng w1 = w_rng w.
Proof.
  unfold do_log. intros H.
  destruct (Nat.leb 1 verbose).
  - destruct (Nat.eqb log_interval 0); [discriminate|].
    destruct (Nat.eqb ((steps / n_batch) mod log_interval) 0).
    + injection H as <-. exists [EvLog steps]. cbn. repeat split.
    + injection H as <-. exists []. rewrite app_nil_r. repeat split.
  - injection H as <-. exists []. rewrite app_nil_r. repeat split.
Qed.
Lemma learn_iteration_spec (steps : nat) (w w' : World) :
  iteration steps w = (w', Ok tt) ->
  on_policy_then_replay Rollout Batch Buffer Rng RunnerSt Session runner_run
    rollout_batch buffer_has_atleast np_random_poisson replay_ratio replay_start
    steps w w'.
Proof.
  unfold iteration, learn_iteration. intros H.
  apply bindM_ok in H. destruct H as (w1 & r & Hrun & H).
  apply bindM_ok in H. destruct H as (w2 & [] & Hfeed & H).
  apply bindM_ok in H. destruct H as (w3 & [] & Hput & H).
  apply bindM_ok in H. destruct H as (w4 & [] & Htrain & H).
  apply bindM_ok in H. destruct H as (w5 & [] & Hcb & H).
  apply bindM_ok in H. destruct H as (w6 & [] & Hlog & H).
  unfold do_run in Hrun.
  destruct (runner_run (w_runner w)) as [[r0 rs]|e] eqn:Hrunner; [|discriminate].
  injection Hrun as <- <-.
  unfold emit in Hfeed. injection Hfeed as <-.
  apply do_put_events in Hput.
  destruct Hput as (put & Hput & (Hp1 & Hp2 & Hp3 & Hp4) & Hput_s & Hput_r).
  unfold do_train in Htrain.
  destruct (train_step (w_session w3) (rollout_batch r0) steps) as [s|e]; [|discriminate].
  injection Htrain as <-.
  apply do_callback_events in Hcb.
  destruct Hcb as (cb & Hcb & (Hc1 & Hc2 & Hc3 & Hc4) & Hcb_b & Hcb_r).
  apply do_log_events in Hlog.
  destruct Hlog as (lg & Hlog & (Hl1 & Hl2 & Hl3 & Hl4) & Hlog_b & Hlog_r).
  cbn [w_trace w_buffer w_rng w_session] in *.
  assert (Hpre : w_trace w6
                 = w_trace w
                   ++ ([EvRun r0; EvFeed r0] ++ put
                       ++ [EvTrain OnPolicy (rollout_batch r0) steps] ++ cb ++ lg)).
  { rewrite Hlog, Hcb, Hput, <- !app_assoc. reflexivity. }
  assert (Htr : forall tail,
             trains (([EvRun r0; EvFeed r0] ++ put
                      ++ [EvTrain OnPolicy (rollout_batch r0) steps] ++ cb ++ lg) ++ tail)
             = (OnPolicy, rollout_batch r0, steps) :: trains tail).
  { intros tail. rewrite !trains_app, Hp1, Hc1, Hl1. reflexivity. }
  assert (Hge : gets ([EvRun r0; EvFeed r0] ++ put
                      ++ [EvTrain OnPolicy (rollout_batch r0) steps] ++ cb ++ lg) = []).
  { rewrite !gets_app, Hp2, Hc2, Hl2. reflexivity. }
  assert (Hpo : forall tail,
             poisson_draws (([EvRun r0; EvFeed r0] ++ put
                      ++ [EvTrain OnPolicy (rollout_batch r0) steps] ++ cb ++ lg) ++ tail)
             = poisson_draws tail).
  { intros tail. rewrite !poisson_draws_app, Hp3, Hc3, Hl3. reflexivity. }
  assert (Hha : forall tail,
             has_atleast_answers (([EvRun r0; EvFeed r0] ++ put
                      ++ [EvTrain OnPolicy (rollout_batch r0) steps] ++ cb ++ lg) ++ tail)
             = has_atleast_answers tail).
  { intros tail. rewrite !has_atleast_answers_app, Hp4, Hc4, Hl4. reflexivity. }
  set (prefix := [EvRun r0; EvFeed r0] ++ put
                 ++ [EvTrain OnPolicy (rollout_batch r0) steps] ++ cb ++ lg) in *.
  unfold on_policy_then_replay.
  destruct (replay_enabled replay_ratio) eqn:Hen.
  - apply bindM_ok in H. destruct H as (w7 & enough & Hhas & H).
    unfold do_has_atleast in Hhas.
    destruct (w_buffer w6) as [b|] eqn:Hb; [|discriminate].
    injection Hhas as <- <-. cbn [emit fst w_trace] in H.
    destruct (buffer_has_atleast b replay_start) eqn:Hans.
    + apply bindM_ok in H. destruct H as (w8 & k & Hpois & H).
      unfold do_poisson in Hpois. cbn [w_rng w_trace] in Hpois.
      destruct (np_random_poisson replay_ratio (w_rng w6)) as [k0 rng] eqn:Hdraw.
      injection Hpois as <- <-.
      apply replay_loop_events in H. destruct H as (batches & Hlen & Htrace & _).
      cbn [w_trace] in Htrace.
      destruct (replay_events_projections steps batches) as (Hr1 & Hr2 & Hr3 & Hr4).
      exists r0, ((prefix ++ [EvHasAtleast true; EvPoisson k0]) ++ replay_events steps batches),
             (prefix ++ [EvHasAtleast true; EvPoisson k0]), batches.
      split; [rewrite Htrace, Hpre, <- !app_assoc; reflexivity|].
      split; [now exists rs|].
      split; [reflexivity|].
      split; [rewrite <- app_assoc, Htr, trains_app, Hr1; reflexivity|].
      split; [reflexivity|].
      split; [rewrite gets_app, Hge; reflexivity|].
      exists b. rewrite Hans.
      split; [rewrite <- app_assoc, Hha, has_atleast_answers_app, Hr3; reflexivity|].
      exists (w_rng w6). rewrite Hdraw. cbn [fst].
      split; [rewrite <- app_assoc, Hpo, poisson_draws_app, Hr2; reflexivity|].
      exact Hlen.
    + injection H as <-. cbn [w_trace].
      exists r0, ((prefix ++ [EvHasAtleast false]) ++ replay_events steps []),
             (prefix ++ [EvHasAtleast false]), [].
      cbn [replay_events flat_map]. rewrite !app_nil_r.
      split; [rewrite Hpre, <- !app_assoc; reflexivity|].
      split; [now exists rs|].
      split; [reflexivity|].
      split; [rewrite Htr; reflexivity|].
      split; [reflexivity|].
      split; [rewrite gets_app, Hge; reflexivity|].
      exists b. rewrite Hans.
      split; [rewrite Hha; reflexivity|].
      split; [rewrite Hpo; reflexivity | reflexivity].
  - injection H as <-.
    exists r0, (prefix ++ replay_events steps []), prefix, [].
    cbn [replay_events flat_map]. rewrite !app_nil_r.
    split; [exact Hpre|].
    split; [now exists rs|].
    split; [reflexivity|].
    split; [rewrite <- (app_nil_r prefix), Htr; reflexivity|].
    split; [reflexivity|].
    split; [exact Hge|].
    split; [rewrite <- (app_nil_r prefix), Hha; reflexivity|].
    split; [rewrite <- (app_nil_r prefix), Hpo; reflexivity | reflexivity].
Qed.
Lemma for_each_all_iterations (l : list nat) (w w' : World) :
  for_each Rollout Batch Buffer Rng RunnerSt Session l iteration w = (w', Ok tt) ->
  all_iterations Rollout Batch Buffer Rng RunnerSt Session
    (on_policy_then_replay Rollout Batch Buffer Rng RunnerSt Session runner_run
       rollout_batch buffer_has_atleast np_random_poisson replay_ratio replay_start)
    iteration l w w'.
Proof.
  revert w. induction l as [|x l IH]; intros w H.
  - injection H as <-. constructor.
  - cbn [for_each] in H. apply bindM_ok in H. destruct H as (w1 & [] & Hx & H).
    econstructor; [exact Hx | now apply learn_iteration_spec | now apply IH].
Qed.

(** C8: in every outer iteration of a run of [learn], the rollout is
    collected, exactly one on-policy training step runs on it before any
    off-policy step; off-policy steps run only when [replay_ratio > 0] and
    the buffer answers [has_atleast(replay_start)], their number is the
    draw of [np.random.poisson(replay_ratio)], possibly 0, and each of them
    runs on the batch of its own call of [buffer.get]. *)
Theorem learn_on_policy_then_replay :
  forall (total_timesteps : nat) (w w' : World),
    learn Rollout Batch Buffer Rng RunnerSt Session runner_run rollout_batch buffer_new
          buffer_put buffer_has_atleast buffer_get np_random_poisson train_step callback
          replay_ratio replay_start n_batch verbose log_interval total_timesteps w
    = (w', Ok tt) ->
    exists steps_list,
      py_range total_timesteps n_batch = Ok steps_list
      /\ all_iterations Rollout Batch Buffer Rng RunnerSt Session
           (on_policy_then_replay Rollout Batch Buffer Rng RunnerSt Session runner_run
              rollout_batch buffer_has_atleast np_random_poisson replay_ratio
              replay_start)
           iteration steps_list
           (mk_world (w_runner w)
                     (if replay_enabled replay_ratio then Some buffer_new else None)
                     (w_rng w) (w_session w) (w_trace w))
           w'.
Proof.
  intros total w w' H. unfold learn in H.
  destruct (py_range total n_batch) as [steps_list|e]; [|discriminate].
  exists steps_list. split; [reflexivity|].
  now apply for_each_all_iterations.
Qed.
End LearnCorrect.

Lemma learn_on_policy_then_replay_witness :
  exists steps_list,
    py_range 4 2 = Ok steps_list
    /\ all_iterations nat nat (list nat) nat nat (list nat)
         (on_policy_then_replay nat nat (list nat) nat nat (list nat) toy_runner_run
            (fun r => r) toy_buffer_has_atleast toy_poisson (4 # 1)%Q 2)
         (learn_iteration nat nat (list nat) nat nat (list nat)
            toy_runner_run (fun r => r) toy_buffer_put toy_buffer_has_atleast
            toy_buffer_get toy_poisson toy_train_step None (4 # 1)%Q 2 2 0 100)
         steps_list
         (mk_world (w_runner toy_world)
                   (if replay_enabled (4 # 1)%Q then Some [] else None)
                   (w_rng toy_world) (w_session toy_world) (w_trace toy_world))
         (fst toy_learn).
Proof.
  apply (learn_on_policy_then_replay nat nat (list nat) nat nat (list nat)
           toy_runner_run (fun r => r) [] toy_buffer_put toy_buffer_has_atleast
           toy_buffer_get toy_poisson toy_train_step None (4 # 1)%Q 2 2 0 100 4
           toy_world (fst toy_learn)).
  vm_compute. reflexivity.
Defined.

(** The events of the small run: two iterations, the second one with two
    replay steps after its on-policy step. *)
Example toy_learn_trace :
  w_trace (fst toy_learn)
  = [EvRun 0%nat; EvFeed 0%nat; EvPut 0%nat; EvTrain OnPolicy 0%nat 0;
     EvHasAtleast false;
     EvRun 1%nat; EvFeed 1%nat; EvPut 1%nat; EvTrain OnPolicy 1%nat 2;
     EvHasAtleast true; EvPoisson 2;
     EvGet 0%nat; EvTrain OffPolicy 0%nat 2;
     EvGet 1%nat; EvTrain OffPolicy 1%nat 2].
Proof. vm_compute. reflexivity. Qed.

(** ** More on strip and q_retrace *)

Lemma flat_map_rows_length {A : Type} (f : nat -> list A) (n : nat) :
  (forall e, length (f e) = n) ->
  forall m a, length (flat_map f (seq a m)) = (m * n)%nat.
Proof.
  intros Hf. induction m as [|m IH]; intros a; [reflexivity|].
  cbn [seq flat_map]. rewrite length_app, Hf, IH. reflexivity.
Qed.

Lemma flat_map_rows_nth {A : Type} (f : nat -> list A) (n : nat) (d : A) :
  (forall e, length (f e) = n) ->
  forall m a e t, (e < m)%nat -> (t < n)%nat ->
    nth (e * n + t) (flat_map f (seq a m)) d = nth t (f (a + e)%nat) d.
Proof.
  intros Hf. induction m as [|m IH]; intros a e t He Ht; [lia|].
  cbn [seq flat_map]. destruct e as [|e].
  - rewrite app_nth1 by (rewrite Hf; lia). now rewrite Nat.add_0_r.
  - rewrite app_nth2 by (rewrite Hf; nia).
    rewrite Hf. replace (S e * n + t - n)%nat with (e * n + t)%nat by nia.
    rewrite IH by lia. f_equal. f_equal. lia.
Qed.

Lemma length_retrace_spec (gamma : R) (steps : list step_data) (bootstrap : R) :
  length (fst (retrace_spec gamma steps bootstrap)) = length steps.
Proof.
  induction steps as [|s steps IH]; [reflexivity|].
  cbn [retrace_spec]. destruct (retrace_spec gamma steps bootstrap) as [ts q].
  cbn [fst length] in *. now rewrite IH.
Qed.

Lemma strip_runs (var : list R) (n_envs n_steps : nat) :
  length var = (n_envs * (n_steps + 1))%nat -> (0 < n_steps)%nat ->
  strip var n_envs n_steps
  = Ok (flat_map (fun e => map (fun t => nth (e * (n_steps + 1) + t) var 0)
                               (seq 0 n_steps))
                 (seq 0 n_envs)).
Proof.
  intros Hlen Hpos. unfold strip, batch_to_seq.
  rewrite Hlen, Nat.eqb_refl. cbn [bind].
  rewrite seq_app, map_app. cbn [seq map]. rewrite removelast_last.
  unfold seq_to_batch.
  rewrite forallb_length_map_seq', length_hd_map_seq.
  destruct (Nat.eqb_spec n_steps 0) as [Hz|_]; [lia|].
  f_equal. apply flat_map_ext_in. intros e He. apply in_seq in He.
  rewrite map_map. apply map_ext. intros t.
  now rewrite nth_map_seq by lia.
Qed.

(** X1: [strip] removes the last of the [n_steps + 1] entries of every
    environment and keeps the others in place. *)
Theorem strip_drops_last_step :
  forall (var : list R) (n_envs n_steps : nat),
    length var = (n_envs * (n_steps + 1))%nat -> (0 < n_steps)%nat ->
    exists out,
      strip var n_envs n_steps = Ok out
      /\ length out = (n_envs * n_steps)%nat
      /\ forall e t, (e < n_envs)%nat -> (t < n_steps)%nat ->
           nth (e * n_steps + t) out 0 = nth (e * (n_steps + 1) + t) var 0.
Proof.
  intros var n_envs n_steps Hlen Hpos.
  eexists. split; [now apply strip_runs|]. split.
  - apply flat_map_rows_length. intros e. now rewrite length_map, length_seq.
  - intros e t He Ht.
    rewrite (flat_map_rows_nth _ n_steps 0)
      by (try (intros e'; now rewrite length_map, length_seq); assumption).
    now rewrite nth_map_seq by assumption.
Qed.

Lemma strip_drops_last_step_witness :
  exists out,
    strip [1; 2; 3; 4; 5; 6] 2 2 = Ok out
    /\ length out = (2 * 2)%nat
    /\ forall e t, (e < 2)%nat -> (t < 2)%nat ->
         nth (e * 2 + t) out 0 = nth (e * (2 + 1) + t) [1; 2; 3; 4; 5; 6] 0.
Proof.
  apply (strip_drops_last_step [1; 2; 3; 4; 5; 6] 2 2); [reflexivity | lia].
Defined.

(** The value batch [1 2 3 | 4 5 6] of two environments loses the bootstrap
    entries 3 and 6. *)
Example strip_two_envs : strip [1; 2; 3; 4; 5; 6] 2 2 = Ok [1; 2; 4; 5].
Proof. rewrite strip_runs by (reflexivity || lia). reflexivity. Qed.

Lemma retrace_targets_length (rewards dones q_i values rho_i : list R)
      (n_envs n_steps : nat) (gamma : R) :
  length (retrace_targets rewards dones q_i values rho_i n_envs n_steps gamma)
  = (n_envs * n_steps)%nat.
Proof.
  unfold retrace_targets. apply flat_map_rows_length. intros e.
  rewrite length_retrace_spec. unfold env_steps. now rewrite length_map, length_seq.
Qed.

Lemma retrace_targets_nth (rewards dones q_i values rho_i : list R)
      (n_envs n_steps : nat) (gamma : R) (e i : nat) :
  (e < n_envs)%nat -> (i < n_steps)%nat ->
  nth (e * n_steps + i)
      (retrace_targets rewards dones q_i values rho_i n_envs n_steps gamma) 0
  = nth (e * n_steps + i) rewards 0
    + gamma
      * snd (retrace_spec gamma
               (env_steps rewards dones q_i values rho_i n_steps e (S i) (n_steps - S i))
               (env_bootstrap values n_steps e))
      * (1 - nth (e * n_steps + i) dones 0).
Proof.
  intros He Hi. unfold retrace_targets.
  rewrite (flat_map_rows_nth _ n_steps 0); try assumption.
  - cbn [Nat.add].
    rewrite (targets_as_map rewards dones q_i values rho_i n_steps gamma e n_steps 0 eq_refl).
    rewrite nth_map_seq by assumption.
    now apply target_unfold.
  - intros e'. rewrite length_retrace_spec. unfold env_steps.
    now rewrite length_map, length_seq.
Qed.

(** X2: whatever the number of steps, a step whose done flag is 1 gets its
    reward as target: nothing of the later steps or of the bootstrap value
    enters it. *)
Theorem q_retrace_done_step_target :
  forall (rewards dones q_i values rho_i : list R) (n_envs n_steps : nat) (gamma : R)
         (e i : nat),
    length rewards = (n_envs * n_steps)%nat ->
    length dones = (n_envs * n_steps)%nat ->
    length q_i = (n_envs * n_steps)%nat ->
    length rho_i = (n_envs * n_steps)%nat ->
    length values = (n_envs * (n_steps + 1))%nat ->
    (e < n_envs)%nat -> (i < n_steps)%nat ->
    nth (e * n_steps + i) dones 0 = 1 ->
    exists out,
      q_retrace rewards dones q_i values rho_i n_envs n_steps gamma = Ok out
      /\ nth (e * n_steps + i) out 0 = nth (e * n_steps + i) rewards 0.
Proof.
  intros rewards dones q_i values rho_i n_envs n_steps gamma e i
         Hr Hd Hq Hrho Hv He Hi Hdone.
  eexists. split; [now apply q_retrace_runs|].
  rewrite retrace_targets_nth by assumption. rewrite Hdone. ring.
Qed.

Lemma q_retrace_done_step_target_witness :
  exists out,
    q_retrace [1; 2] [1; 0] [0; 0] [0; 0; 10] [1/2; 2] 1 2 1 = Ok out
    /\ nth (0 * 2 + 0) out 0 = nth (0 * 2 + 0) [1; 2] 0.
Proof.
  apply (q_retrace_done_step_target [1; 2] [1; 0] [0; 0] [0; 0; 10] [1/2; 2] 1 2 1 0 0);
    try reflexivity; lia.
Defined.

(** X3: the target of the last step of every environment is the one-step
    bootstrap [reward + gamma * value[n_steps] * (1 - done)]; the importance
    ratios and the Q-values do not enter it. *)
Theorem q_retrace_last_step_target :
  forall (rewards dones q_i values rho_i : list R) (n_envs n_steps : nat) (gamma : R)
         (e : nat),
    length rewards = (n_envs * n_steps)%nat ->
    length dones = (n_envs * n_steps)%nat ->
    length q_i = (n_envs * n_steps)%nat ->
    length rho_i = (n_envs * n_steps)%nat ->
    length values = (n_envs * (n_steps + 1))%nat ->
    (e < n_envs)%nat -> (0 < n_steps)%nat ->
    exists out,
      q_retrace rewards dones q_i values rho_i n_envs n_steps gamma = Ok out
      /\ nth (e * n_steps + (n_steps - 1)) out 0
         = nth (e * n_steps + (n_steps - 1)) rewards 0
           + gamma * nth (e * (n_steps + 1) + n_steps) values 0
             * (1 - nth (e * n_steps + (n_steps - 1)) dones 0).
Proof.
  intros rewards dones q_i values rho_i n_envs n_steps gamma e
         Hr Hd Hq Hrho Hv He Hpos.
  eexists. split; [now apply q_retrace_runs|].
  rewrite retrace_targets_nth by (assumption || lia).
  replace (n_steps - S (n_steps - 1))%nat with 0%nat by lia.
  reflexivity.
Qed.

Lemma q_retrace_last_step_target_witness :
  exists out,
    q_retrace [1; 2] [0; 0] [0; 0] [0; 0; 10] [1/2; 2] 1 2 1 = Ok out
    /\ nth (0 * 2 + (2 - 1)) out 0
       = nth (0 * 2 + (2 - 1)) [1; 2] 0
         + 1 * nth (0 * (2 + 1) + 2) [0; 0; 10] 0
           * (1 - nth (0 * 2 + (2 - 1)) [0; 0] 0).
Proof.
  apply (q_retrace_last_step_target [1; 2] [0; 0] [0; 0] [0; 0; 10] [1/2; 2] 1 2 1 0);
    try reflexivity; lia.
Defined.

(** X4: the targets of [q_retrace] and the values without their bootstrap
    step ([strip]) have the same shape [[n_envs * n_steps]], so the shape
    assertion that precedes [adv = qret - value] passes. *)
Theorem q_retrace_and_strip_shapes :
  forall (rewards dones q_i values rho_i f_i : list R) (n_envs n_steps : nat) (gamma : R),
    length rewards = (n_envs * n_steps)%nat ->
    length dones = (n_envs * n_steps)%nat ->
    length q_i = (n_envs * n_steps)%nat ->
    length rho_i = (n_envs * n_steps)%nat ->
    length f_i = (n_envs * n_steps)%nat ->
    length values = (n_envs * (n_steps + 1))%nat ->
    (0 < n_steps)%nat ->
    (qret <- q_retrace rewards dones q_i values rho_i n_envs n_steps gamma ;;
     value <- strip values n_envs n_steps ;;
     check_shape [qret; value; rho_i; f_i] (n_envs * n_steps))
    = Ok tt.
Proof.
  intros rewards dones q_i values rho_i f_i n_envs n_steps gamma
         Hr Hd Hq Hrho Hf Hv Hpos.
  rewrite q_retrace_runs by assumption. cbn [bind].
  rewrite strip_runs by assumption. cbn [bind].
  unfold check_shape. cbn [forallb].
  rewrite retrace_targets_length, Hrho, Hf.
  rewrite (flat_map_rows_length _ n_steps)
    by (intros e; now rewrite length_map, length_seq).
  now rewrite Nat.eqb_refl.
Qed.

Lemma q_retrace_and_strip_shapes_witness :
  (qret <- q_retrace [1; 2] [0; 0] [0; 0] [0; 0; 10] [1/2; 2] 1 2 1 ;;
   value <- strip [0; 0; 10] 1 2 ;;
   check_shape [qret; value; [1/2; 2]; [1/3; 1/4]] (1 * 2))
  = Ok tt.
Proof.
  apply (q_retrace_and_strip_shapes [1; 2] [0; 0] [0; 0] [0; 0; 10] [1/2; 2]
           [1/3; 1/4] 1 2 1);
    try reflexivity; lia.
Defined.




(** ** More on the trust region *)





(** ** Bias correction and critic loss *)

Lemma Forall_map2_r {A B C : Type} (Q : B -> Prop) (S : C -> Prop)
      (f : A -> B -> C) (xs : list A) (ys : list B) :
  (forall x y, Q y -> S (f x y)) -> Forall Q ys -> Forall S (map2 f xs ys).
Proof.
  intros Hf Hys. revert xs.
  induction Hys as [|y ys Hy Hys IH]; intros [|x xs]; cbn; constructor; auto.
Qed.

Lemma Forall_map2_l {A B C : Type} (P : A -> Prop) (S : C -> Prop)
      (f : A -> B -> C) (xs : list A) (ys : list B) :
  (forall x y, P x -> S (f x y)) -> Forall P xs -> Forall S (map2 f xs ys).
Proof.
  intros Hf Hxs. revert ys.
  induction Hxs as [|x xs Hx Hxs IH]; intros [|y ys]; cbn; constructor; auto.
Qed.

Lemma rsum_zero (xs : list R) : Forall (fun x => x = 0) xs -> rsum xs = 0.
Proof.
  induction 1 as [|x xs Hx Hxs IH]; cbn; [reflexivity|]. rewrite Hx, IH. ring.
Qed.

Lemma bc_weight_inactive (c : R) (r : dual) :
  0 < val r + eps <= c ->
  val (d_relu (d_const_sub 1 (d_const_div c (d_add_const r eps)))) = 0.
Proof.
  intros [Hpos Hle]. cbn [d_relu d_const_sub d_const_div d_add_const val].
  apply Rmax_left.
  assert (1 <= c / (val r + eps)); [|lra].
  apply Rmult_le_reg_r with (r := val r + eps); [exact Hpos|].
  unfold Rdiv. rewrite Rmult_assoc, Rinv_l by lra. lra.
Qed.

(** X7: when every importance ratio satisfies [0 < rho + eps <= correction_term],
    as on-policy batches do, the bias-correction loss vanishes: its value is
    0 and it contributes no gradient. *)
Theorem loss_bc_vanishes_below_correction_term :
  forall (correction_term : R) (q_value : list (list dual)) (value : list dual)
         (rho_t distribution_f : list (list dual)),
    Forall (Forall (fun r => 0 < val r + eps <= correction_term)) rho_t ->
    loss_bc correction_term q_value value rho_t distribution_f = d_zero.
Proof.
  intros c q_value value rho_t distribution_f Hrho.
  assert (Hw : Forall (Forall (fun w => val w = 0)) (bc_weight c rho_t)).
  { unfold bc_weight. apply Forall_map. eapply Forall_impl; [|exact Hrho].
    intros row Hrow. apply Forall_map. eapply Forall_impl; [|exact Hrow].
    intros r Hr. now apply bc_weight_inactive. }
  assert (Hc : Forall (Forall (fun x => x = d_zero))
                      (bc_coefficient c q_value value rho_t distribution_f)).
  { unfold bc_coefficient. apply Forall_map.
    apply (Forall_map2_l (Forall (fun x => val x = 0))).
    - intros xs ys Hxs. apply Forall_map.
      apply (Forall_map2_l (fun x => val x = 0)); [|exact Hxs].
      intros x y Hx. unfold stop_gradient, d_mul, d_zero. cbn [val tan].
      rewrite Hx. f_equal. ring.
    - apply (Forall_map2_r (Forall (fun w => val w = 0))); [|exact Hw].
      intros xs ys Hys. apply (Forall_map2_r (fun w => val w = 0)); [|exact Hys].
      intros x y Hy. cbn [d_mul val]. rewrite Hy. ring. }
  assert (Hg : Forall (fun g => g = d_zero)
                      (gain_bc c q_value value rho_t distribution_f)).
  { unfold gain_bc. apply Forall_map.
    apply (Forall_map2_r (Forall (fun x => x = d_zero))); [|exact Hc].
    intros xs ys Hys.
    assert (Hrow : Forall (fun x => x = d_zero) (map2 d_mul xs ys)).
    { apply (Forall_map2_r (fun x => x = d_zero)); [|exact Hys].
      intros x y ->. unfold d_mul, d_zero. cbn [val tan]. f_equal; ring. }
    unfold d_reduce_sum, d_zero. f_equal; apply rsum_zero; apply Forall_map;
      (eapply Forall_impl; [|exact Hrow]); intros x ->; reflexivity. }
  unfold loss_bc, d_neg, d_reduce_mean, reduce_mean, d_zero.
  assert (Hv : rsum (map val (gain_bc c q_value value rho_t distribution_f)) = 0).
  { apply rsum_zero, Forall_map. eapply Forall_impl; [|exact Hg].
    intros x ->. reflexivity. }
  assert (Ht : rsum (map tan (gain_bc c q_value value rho_t distribution_f)) = 0).
  { apply rsum_zero, Forall_map. eapply Forall_impl; [|exact Hg].
    intros x ->. reflexivity. }
  cbn [val tan]. rewrite Hv, Ht. unfold Rdiv. f_equal; ring.
Qed.

Lemma loss_bc_vanishes_below_correction_term_witness :
  loss_bc 10 [[mk_dual 3 1; mk_dual 4 1]] [mk_dual 2 1]
          [[mk_dual 1 1; mk_dual 2 1]] [[mk_dual (1/2) 1; mk_dual (1/2) (-1)]]
  = d_zero.
Proof.
  apply (loss_bc_vanishes_below_correction_term 10).
  repeat constructor; unfold eps; cbn [val]; lra.
Defined.

Lemma rsum_nonneg (xs : list R) : Forall (fun x => 0 <= x) xs -> 0 <= rsum xs.
Proof.
  induction 1 as [|x xs Hx Hxs IH]; cbn; lra.
Qed.

Lemma rsum_nonneg_zero (xs : list R) :
  Forall (fun x => 0 <= x) xs -> rsum xs = 0 -> Forall (fun x => x = 0) xs.
Proof.
  induction 1 as [|x xs Hx Hxs IH]; cbn; intros Hsum; constructor.
  - pose proof (rsum_nonneg xs Hxs). lra.
  - apply IH. pose proof (rsum_nonneg xs Hxs). lra.
Qed.

(** X8: the critic loss is never negative, it does not depend on the
    derivative of the targets (they are under [tf.stop_gradient]), and on a
    non-empty batch it is zero only when every Q-value equals its target. *)
Theorem loss_q_nonnegative :
  forall (qret q_i : list dual) (n : nat),
    length qret = n -> length q_i = n ->
    0 <= val (loss_q qret q_i)
    /\ loss_q (map stop_gradient qret) q_i = loss_q qret q_i
    /\ ((0 < n)%nat -> val (loss_q qret q_i) = 0 ->
        forall k, (k < n)%nat -> val (nth k q_i d_zero) = val (nth k qret d_zero)).
Proof.
  intros qret q_i n Hq Hp.
  assert (Hvals : map val (map (fun x => d_mul_const (d_square x) (1 / 2))
                               (map2 d_sub (map stop_gradient qret) q_i))
                  = map (fun k => (val (nth k qret d_zero) - val (nth k q_i d_zero))
                                  * (val (nth k qret d_zero) - val (nth k q_i d_zero))
                                  * (1 / 2))
                        (seq 0 n)).
  { rewrite map2_map_l.
    rewrite (map2_as_seq _ d_zero d_zero qret q_i n Hq Hp), !map_map.
    reflexivity. }
  assert (Hnn : Forall (fun x => 0 <= x)
                       (map (fun k => (val (nth k qret d_zero) - val (nth k q_i d_zero))
                                      * (val (nth k qret d_zero) - val (nth k q_i d_zero))
                                      * (1 / 2))
                            (seq 0 n))).
  { apply Forall_map, Forall_forall. intros k _.
    apply Rmult_le_pos; [apply Rle_0_sqr | lra]. }
  assert (Hlen : length (map (fun x => d_mul_const (d_square x) (1 / 2))
                             (map2 d_sub (map stop_gradient qret) q_i)) = n).
  { rewrite length_map, length_map2; rewrite length_map; congruence. }
  split; [|split].
  - unfold loss_q, d_reduce_mean, reduce_mean. cbn [val]. rewrite Hvals.
    unfold Rdiv. apply Rmult_le_pos; [now apply rsum_nonneg|].
    rewrite length_map, length_seq.
    destruct n as [|m]; [cbn; rewrite Rinv_0; lra|].
    left. apply Rinv_0_lt_compat. apply lt_0_INR. lia.
  - unfold loss_q. rewrite map_map. reflexivity.
  - intros Hpos Hzero k Hk.
    unfold loss_q, d_reduce_mean, reduce_mean in Hzero. cbn [val] in Hzero.
    rewrite Hvals in Hzero. rewrite length_map, length_seq in Hzero.
    assert (Hn : 0 < INR n) by (apply lt_0_INR; lia).
    assert (Hsum : rsum (map (fun k => (val (nth k qret d_zero) - val (nth k q_i d_zero))
                                      * (val (nth k qret d_zero) - val (nth k q_i d_zero))
                                      * (1 / 2))
                             (seq 0 n)) = 0).
    { apply Rmult_eq_reg_r with (r := / INR n).
      - rewrite Rmult_0_l. exact Hzero.
      - apply Rinv_neq_0_compat. lra. }
    pose proof (rsum_nonneg_zero _ Hnn Hsum) as Hall.
    rewrite Forall_forall in Hall.
    assert (Hin : In k (seq 0 n)) by (apply in_seq; lia).
    specialize (Hall _ (in_map _ _ k Hin)).
    cbv beta in Hall.
    assert (Hsq : (val (nth k qret d_zero) - val (nth k q_i d_zero))
                  * (val (nth k qret d_zero) - val (nth k q_i d_zero)) = 0) by lra.
    apply Rmult_integral in Hsq. destruct Hsq; lra.
Qed.

Lemma loss_q_nonnegative_witness :
  0 <= val (loss_q [mk_dual 3 1] [mk_dual 3 2])
  /\ loss_q (map stop_gradient [mk_dual 3 1]) [mk_dual 3 2]
     = loss_q [mk_dual 3 1] [mk_dual 3 2]
  /\ ((0 < 1)%nat -> val (loss_q [mk_dual 3 1] [mk_dual 3 2]) = 0 ->
      forall k, (k < 1)%nat ->
        val (nth k [mk_dual 3 2] d_zero) = val (nth k [mk_dual 3 1] d_zero)).
Proof.
  apply (loss_q_nonnegative [mk_dual 3 1] [mk_dual 3 2] 1); reflexivity.
Defined.

(** ** Construction and reports of the ACER object *)

(** X9: with [max_grad_norm=None] the constructor never returns a model:
    no gradient norm exists, so [setup_model] raises, by the assertion
    [norm_grads is not None] if nothing fails before it, with or without
    trust region. *)
Theorem new_acer_needs_max_grad_norm :
  forall (Obs Actions Proba State : Type)
         (pol : policy_class Obs Actions Proba State) (envs steps : nat) (tr : bool)
         (reshape : Obs -> result Obs),
    exists e, new_acer pol envs steps tr None reshape = Err e.
Proof.
  intros. exists AssertionError. reflexivity.
Qed.

(** X10: with the trust region, the values that [_train_step] returns are
    those of the fetched tensors without [_train], and the names returned
    beside them are the names of these tensors in the same order: every
    reported value carries its own name. *)
Theorem train_step_names_match_values :
  forall (Obs Actions Proba State Batch : Type)
         (pol : policy_class Obs Actions Proba State) (envs steps : nat) (mgn : R)
         (reshape : Obs -> result Obs) (eval : Batch -> fetch -> R) (td_map : Batch),
  exists self fetched,
    new_acer pol envs steps true (Some mgn) reshape = Ok self
    /\ run_ops _ _ _ _ self = Some (F_train :: fetched)
    /\ names_ops _ _ _ _ self = Some (map fetch_name fetched)
    /\ NoDup fetched
    /\ _train_step eval self td_map
       = Ok (Some (map fetch_name fetched), map (eval td_map) fetched).
Proof.
  intros. eexists. eexists. split; [reflexivity|].
  split; [reflexivity|]. split; [reflexivity|]. split; [|reflexivity].
  repeat (constructor; [cbn; intuition discriminate|]). constructor.
Qed.

(** ** save and load *)

Lemma shape_eqb_refl (a : list nat) : shape_eqb a a = true.
Proof.
  unfold shape_eqb. rewrite Nat.eqb_refl. cbn.
  induction a as [|x a IH]; cbn; [reflexivity|]. now rewrite Nat.eqb_refl.
Qed.

Lemma restore_zip (fresh loaded : list param) :
  (forall k, (k < length fresh)%nat -> (k < length loaded)%nat ->
     p_shape (nth k fresh (mk_param [] [])) = p_shape (nth k loaded (mk_param [] []))) ->
  restore fresh loaded
  = Ok (firstn (length fresh) loaded ++ skipn (length loaded) fresh).
Proof.
  revert loaded. induction fresh as [|p ps IH]; intros [|l ls] H; try reflexivity.
  cbn [restore length firstn skipn app].
  assert (Hp : p_shape p = p_shape l) by (apply (H 0%nat); cbn; lia).
  rewrite Hp, shape_eqb_refl.
  rewrite IH by (intros k Hk1 Hk2; apply (H (S k)); cbn; lia).
  cbn [bind]. destruct l as [sh vs]. reflexivity.
Qed.

(** X11: [load] restores, pair by pair, only as many parameters as both the
    model and the file have: when the shapes of these pairs agree, the
    loaded values take the place of the first parameters, parameters without
    a loaded value keep their initial value and loaded values without a
    parameter are dropped, without an error. *)
Theorem restore_follows_zip :
  forall (fresh loaded : list param),
    (forall k, (k < length fresh)%nat -> (k < length loaded)%nat ->
       p_shape (nth k fresh (mk_param [] [])) = p_shape (nth k loaded (mk_param [] []))) ->
    restore fresh loaded
    = Ok (firstn (length fresh) loaded ++ skipn (length loaded) fresh)
    /\ (length fresh = length loaded -> restore fresh loaded = Ok loaded).
Proof.
  intros fresh loaded H. split; [now apply restore_zip|].
  intros Hlen. rewrite restore_zip by assumption.
  rewrite Hlen, firstn_all, skipn_all2 by lia. now rewrite app_nil_r.
Qed.

Lemma restore_follows_zip_witness :
  restore [mk_param [2%nat] [0; 0]; mk_param [1%nat] [5]] [mk_param [2%nat] [3; 4]]
  = Ok (firstn (length [mk_param [2%nat] [0; 0]; mk_param [1%nat] [5]]) [mk_param [2%nat] [3; 4]]
        ++ skipn (length [mk_param [2%nat] [3; 4]]) [mk_param [2%nat] [0; 0]; mk_param [1%nat] [5]])
  /\ (length [mk_param [2%nat] [0; 0]; mk_param [1%nat] [5]] = length [mk_param [2%nat] [3; 4]] ->
      restore [mk_param [2%nat] [0; 0]; mk_param [1%nat] [5]] [mk_param [2%nat] [3; 4]]
      = Ok [mk_param [2%nat] [3; 4]]).
Proof.
  apply (restore_follows_zip [mk_param [2%nat] [0; 0]; mk_param [1%nat] [5]]
                             [mk_param [2%nat] [3; 4]]).
  intros [|k] Hk1 Hk2; [reflexivity | cbn in Hk2; lia].
Defined.

(** X12: a saved model that is loaded again has its parameters, its policy
    and the thirteen hyperparameters that [save] writes; the six that [save]
    leaves out ([num_procs], [buffer_size], [correction_term],
    [trust_region], [alpha], [delta]) come back with the default values of
    the constructor, whatever they were in the saved model. *)
Theorem load_save_round_trip :
  forall (Policy Space : Type) (self : model_state Policy Space)
         (base_init : result (Space * Space * nat))
         (set_env : Space * Space * nat -> result (Space * Space * nat))
         (initial_params : model_state Policy Space -> list param)
         (attrs0 attrs1 : Space * Space * nat) (g : R),
    base_init = Ok attrs0 ->
    set_env (m_observation_space self, m_action_space self, m_n_envs self) = Ok attrs1 ->
    h_max_grad_norm (m_hyper self) = Some g ->
    (forall m, map p_shape (initial_params m) = map p_shape (m_params self)) ->
    load base_init set_env initial_params (save self) (fun m => m)
    = Ok (mk_model_state
            (let h := m_hyper self in
             mk_hyperparameters
               (h_gamma h) (h_n_steps h) (h_nstack h)
               (h_num_procs default_hyperparameters)
               (h_q_coef h) (h_ent_coef h) (h_max_grad_norm h) (h_learning_rate h)
               (h_lr_schedule h) (h_rprop_alpha h) (h_rprop_epsilon h)
               (h_buffer_size default_hyperparameters)
               (h_replay_ratio h) (h_replay_start h)
               (h_correction_term default_hyperparameters)
               (h_trust_region default_hyperparameters)
               (h_alpha default_hyperparameters)
               (h_delta default_hyperparameters)
               (h_verbose h))
            (m_policy self) (fst (fst attrs1)) (snd (fst attrs1)) (snd attrs1)
            (m_params self)).
Proof.
  intros Policy Space self base_init set_env initial_params attrs0 attrs1 g
         Hinit Hset Hmgn Hshapes.
  unfold load, save. rewrite Hinit. cbn [bind].
  destruct attrs0 as [[o0 a0] n0]. cbn [update_with_data m_observation_space
    m_action_space m_n_envs d_observation_space d_action_space d_n_envs m_hyper
    m_policy m_params d_policy].
  rewrite Hset. cbn [bind]. destruct attrs1 as [[o1 a1] n1].
  cbn [h_max_grad_norm d_max_grad_norm]. rewrite Hmgn.
  assert (Hlen : forall m, length (initial_params m) = length (m_params self)).
  { intros m. rewrite <- (length_map p_shape), Hshapes. apply length_map. }
  rewrite restore_zip.
  - cbn [bind m_params].
    rewrite firstn_all2 by (rewrite Hlen; lia).
    rewrite skipn_all2 by (rewrite Hlen; lia).
    rewrite app_nil_r. reflexivity.
  - intros k Hk1 Hk2. cbn [m_params].
    rewrite <- !(map_nth p_shape). now rewrite Hshapes.
Qed.

Lemma load_save_round_trip_witness :
  load (Ok (tt, tt, 1%nat)) Ok (fun _ => [mk_param [1%nat] [0]])
       (save tuned_model) (fun m => m)
  = Ok (mk_model_state
          (let h := m_hyper tuned_model in
           mk_hyperparameters
             (h_gamma h) (h_n_steps h) (h_nstack h)
             (h_num_procs default_hyperparameters)
             (h_q_coef h) (h_ent_coef h) (h_max_grad_norm h) (h_learning_rate h)
             (h_lr_schedule h) (h_rprop_alpha h) (h_rprop_epsilon h)
             (h_buffer_size default_hyperparameters)
             (h_replay_ratio h) (h_replay_start h)
             (h_correction_term default_hyperparameters)
             (h_trust_region default_hyperparameters)
             (h_alpha default_hyperparameters)
             (h_delta default_hyperparameters)
             (h_verbose h))
          (m_policy tuned_model) (fst (fst (tt, tt, 2%nat))) (snd (fst (tt, tt, 2%nat)))
          (snd (tt, tt, 2%nat))
          (m_params tuned_model)).
Proof.
  apply (load_save_round_trip unit unit tuned_model (Ok (tt, tt, 1%nat)) Ok
           (fun _ => [mk_param [1%nat] [0]]) (tt, tt, 1%nat) (tt, tt, 2%nat) 10);
    reflexivity.
Defined.

(** A model built without trust region comes back from [save] and [load]
    with the trust region enabled. *)
Example load_resets_trust_region :
  h_trust_region (m_hyper tuned_model) = false
  /\ exists m, load (Ok (tt, tt, 1%nat)) Ok (fun _ => [mk_param [1%nat] [0]])
                    (save tuned_model) (fun m => m) = Ok m
               /\ h_trust_region (m_hyper m) = true.
Proof.
  split; [reflexivity|]. eexists. split; reflexivity.
Qed.

(** ** More on frame stacking *)

Lemma has_shape_intro (t : list (list (list (list Z)))) (n H W L : nat) :
  length t = n ->
  (forall e, (e < n)%nat -> length (nth e t []) = H) ->
  (forall e h, (e < n)%nat -> (h < H)%nat -> length (nth h (nth e t []) []) = W) ->
  (forall e h w, (e < n)%nat -> (h < H)%nat -> (w < W)%nat ->
     length (pixel t e h w) = L /\ Forall is_uint8 (pixel t e h w)) ->
  has_shape t n H W L.
Proof.
  intros Hn HH HW HL. split; [exact Hn|].
  apply Forall_forall. intros image Him.
  destruct (In_nth _ _ [] Him) as (e & He & <-). rewrite Hn in He.
  split; [now apply HH|].
  apply Forall_forall. intros row Hrow.
  destruct (In_nth _ _ [] Hrow) as (h & Hh & <-). rewrite (HH e He) in Hh.
  split; [now apply HW|].
  apply Forall_forall. intros px Hpx.
  destruct (In_nth _ _ [] Hpx) as (w & Hw & <-). rewrite (HW e h He Hh) in Hw.
  now apply HL.
Qed.

Lemma has_shape_pixel_rows (t : list (list (list (list Z)))) (n H W L e : nat) :
  has_shape t n H W L -> (e < n)%nat -> length (nth e t []) = H.
Proof.
  intros [Hn Ht] He. rewrite Forall_forall in Ht.
  now destruct (Ht (nth e t []) ltac:(apply nth_In; lia)).
Qed.

Lemma has_shape_pixel_cols (t : list (list (list (list Z)))) (n H W L e h : nat) :
  has_shape t n H W L -> (e < n)%nat -> (h < H)%nat ->
  length (nth h (nth e t []) []) = W.
Proof.
  intros [Hn Ht] He Hh. rewrite Forall_forall in Ht.
  destruct (Ht (nth e t []) ltac:(apply nth_In; lia)) as [HH Him].
  rewrite Forall_forall in Him.
  now destruct (Him (nth h (nth e t []) []) ltac:(apply nth_In; lia)).
Qed.

Lemma update_obs_dims (C : nat) (self_obs obs : list (list (list (list Z))))
      (dones : option (list bool)) (n H W L L' : nat) :
  has_shape self_obs n H W L -> has_shape obs n H W L' ->
  (forall d, dones = Some d -> length d = n) ->
  length (update_obs C self_obs obs dones) = n
  /\ (forall e, (e < n)%nat -> length (nth e (update_obs C self_obs obs dones) []) = H)
  /\ (forall e h, (e < n)%nat -> (h < H)%nat ->
        length (nth h (nth e (update_obs C self_obs obs dones) []) []) = W)
  /\ (forall e h w, (e < n)%nat -> (h < H)%nat -> (w < W)%nat ->
        pixel (update_obs C self_obs obs dones) e h w
        = set_last C
            (np_roll (- Z.of_nat C)
               (match dones with
                | Some d =>
                    map (fun x => uint8 (x * uint8 (1 - bool_to_uint8 (nth e d false))))
                        (pixel self_obs e h w)
                | None => pixel self_obs e h w
                end))
            (pixel obs e h w)).
Proof.
  intros Hself Hobs Hd.
  assert (Hmask_len :
            length (match dones with
                    | Some d => mask_done self_obs d
                    | None => self_obs
                    end) = n).
  { destruct dones as [d|]; [|exact (proj1 Hself)].
    unfold mask_done. rewrite length_map2; [exact (proj1 Hself)|].
    rewrite (Hd d eq_refl). exact (proj1 Hself). }
  assert (Hmask_e : forall e, (e < n)%nat ->
            nth e (match dones with
                   | Some d => mask_done self_obs d
                   | None => self_obs
                   end) []
            = match dones with
              | Some d =>
                  map (map (map (fun x =>
                    uint8 (x * uint8 (1 - bool_to_uint8 (nth e d false))))))
                      (nth e self_obs [])
              | None => nth e self_obs []
              end).
  { intros e He. destruct dones as [d|]; [|reflexivity].
    unfold mask_done. rewrite (nth_map2 _ [] false []);
      [reflexivity | rewrite (Hd d eq_refl); exact (proj1 Hself)
       | rewrite (proj1 Hself); exact He]. }
  assert (Hrow_e : forall e, (e < n)%nat ->
            nth e (update_obs C self_obs obs dones) []
            = map2 (map2 (set_last C))
                   (map (map (np_roll (- Z.of_nat C)))
                        (match dones with
                         | Some d =>
                             map (map (map (fun x =>
                               uint8 (x * uint8 (1 - bool_to_uint8 (nth e d false))))))
                                 (nth e self_obs [])
                         | None => nth e self_obs []
                         end))
                   (nth e obs [])).
  { intros e He. unfold update_obs.
    rewrite (nth_map2 _ [] [] [])
      by (rewrite length_map, Hmask_len; destruct Hobs; lia).
    rewrite (nth_map_gen _ [] []) by lia.
    now rewrite Hmask_e. }
  assert (Hlen_e : forall e, (e < n)%nat ->
            length (match dones with
                    | Some d =>
                        map (map (map (fun x =>
                          uint8 (x * uint8 (1 - bool_to_uint8 (nth e d false))))))
                            (nth e self_obs [])
                    | None => nth e self_obs []
                    end) = length (nth e self_obs [])).
  { intros e He. destruct dones; [apply length_map | reflexivity]. }
  assert (Himg_h : forall e h, (e < n)%nat -> (h < H)%nat ->
            nth h (match dones with
                   | Some d =>
                       map (map (map (fun x =>
                         uint8 (x * uint8 (1 - bool_to_uint8 (nth e d false))))))
                           (nth e self_obs [])
                   | None => nth e self_obs []
                   end) []
            = match dones with
              | Some d =>
                  map (map (fun x =>
                    uint8 (x * uint8 (1 - bool_to_uint8 (nth e d false)))))
                      (nth h (nth e self_obs []) [])
              | None => nth h (nth e self_obs []) []
              end).
  { intros e h He Hh. destruct dones; [|reflexivity].
    apply (nth_map_gen _ [] []).
    rewrite (has_shape_pixel_rows _ _ _ _ _ e Hself He). exact Hh. }
  split; [|split; [|split]].
  - unfold update_obs. rewrite length_map2; rewrite length_map, Hmask_len;
      destruct Hobs; lia.
  - intros e He. rewrite (Hrow_e e He).
    pose proof (has_shape_pixel_rows _ _ _ _ _ e Hself He) as HsH.
    pose proof (has_shape_pixel_rows _ _ _ _ _ e Hobs He) as HoH.
    rewrite length_map2; rewrite length_map, Hlen_e by assumption; lia.
  - intros e h He Hh. rewrite (Hrow_e e He).
    pose proof (has_shape_pixel_rows _ _ _ _ _ e Hself He) as HsH.
    pose proof (has_shape_pixel_rows _ _ _ _ _ e Hobs He) as HoH.
    pose proof (has_shape_pixel_cols _ _ _ _ _ e h Hself He Hh) as HsW.
    pose proof (has_shape_pixel_cols _ _ _ _ _ e h Hobs He Hh) as HoW.
    rewrite (nth_map2 _ [] [] [])
      by (rewrite length_map, Hlen_e by assumption; lia).
    rewrite (nth_map_gen _ [] []) by (rewrite Hlen_e by assumption; lia).
    rewrite Himg_h by assumption.
    rewrite length_map2; rewrite length_map; destruct dones;
      rewrite ?length_map; lia.
  - intros e h w He Hh Hw. unfold pixel at 1. rewrite (Hrow_e e He).
    pose proof (has_shape_pixel_rows _ _ _ _ _ e Hself He) as HsH.
    pose proof (has_shape_pixel_rows _ _ _ _ _ e Hobs He) as HoH.
    pose proof (has_shape_pixel_cols _ _ _ _ _ e h Hself He Hh) as HsW.
    pose proof (has_shape_pixel_cols _ _ _ _ _ e h Hobs He Hh) as HoW.
    rewrite (nth_map2 _ [] [] [])
      by (rewrite length_map, Hlen_e by assumption; lia).
    rewrite (nth_map_gen _ [] []) by (rewrite Hlen_e by assumption; lia).
    rewrite Himg_h by assumption.
    rewrite (nth_map2 _ [] [] [])
      by (rewrite length_map; destruct dones; rewrite ?length_map; lia).
    rewrite (nth_map_gen _ [] []) by (destruct dones; rewrite ?length_map; lia).
    unfold pixel. destruct dones; [|reflexivity].
    now rewrite (nth_map_gen _ [] []) by lia.
Qed.

Lemma uint8_range (x : Z) : is_uint8 (uint8 x).
Proof. unfold is_uint8, uint8. apply Z.mod_pos_bound. lia. Qed.

Lemma Forall_uint8_map (f : Z -> Z) (l : list Z) :
  Forall is_uint8 (map (fun x => uint8 (f x)) l).
Proof. apply Forall_map, Forall_forall. intros x _. apply uint8_range. Qed.

Lemma Forall_skipn {A : Type} (P : A -> Prop) (c : nat) (l : list A) :
  Forall P l -> Forall P (skipn c l).
Proof.
  intros H. rewrite Forall_forall in *. intros x Hx. apply H.
  rewrite <- (firstn_skipn c l). apply in_or_app. now right.
Qed.

Lemma stacked_pixel (C nstack : nat) (px v : list Z) :
  length px = (C * nstack)%nat -> length v = C -> (1 <= nstack)%nat ->
  Forall is_uint8 px ->
  length (skipn C px ++ map uint8 v) = (C * nstack)%nat
  /\ Forall is_uint8 (skipn C px ++ map uint8 v).
Proof.
  intros Hpx Hv Hn Hu. split.
  - rewrite length_app, length_skipn, length_map. nia.
  - apply Forall_app. split; [now apply Forall_skipn|].
    apply (Forall_uint8_map (fun x => x)).
Qed.

Lemma masked_pixel (b : bool) (px : list Z) :
  Forall is_uint8 px ->
  map (fun x => uint8 (x * uint8 (1 - bool_to_uint8 b))) px
  = if b then repeat 0%Z (length px) else px.
Proof.
  intros Hu. destruct b; [apply mask_done_true | now apply mask_done_false].
Qed.

Lemma np_zeros_shape (n H W L : nat) : has_shape (np_zeros n H W L) n H W L.
Proof.
  unfold np_zeros. split; [apply repeat_length|].
  apply Forall_forall. intros image Him. apply repeat_spec in Him. subst image.
  split; [apply repeat_length|].
  apply Forall_forall. intros row Hrow. apply repeat_spec in Hrow. subst row.
  split; [apply repeat_length|].
  apply Forall_forall. intros px Hpx. apply repeat_spec in Hpx. subst px.
  split; [apply repeat_length|].
  apply Forall_forall. intros x Hx. apply repeat_spec in Hx. subst x.
  unfold is_uint8. lia.
Qed.

Lemma np_zeros_pixel (n H W L e h w : nat) :
  (e < n)%nat -> (h < H)%nat -> (w < W)%nat ->
  pixel (np_zeros n H W L) e h w = repeat 0%Z L.
Proof.
  intros He Hh Hw. unfold pixel, np_zeros.
  rewrite (nth_indep _ [] (repeat (repeat (repeat 0%Z L) W) H))
    by (rewrite repeat_length; lia).
  rewrite nth_repeat.
  rewrite (nth_indep _ [] (repeat (repeat 0%Z L) W)) by (rewrite repeat_length; lia).
  rewrite nth_repeat.
  rewrite (nth_indep _ [] (repeat 0%Z L)) by (rewrite repeat_length; lia).
  apply nth_repeat.
Qed.

(** X13: the first stacked observation of a runner holds the frame of
    [env.reset()] in its newest [C] channels and zeros in all older ones. *)
Theorem initial_stack_pixels :
  forall (n_env height width num_channels nstack : nat)
         (reset_obs : list (list (list (list Z)))) (e h w : nat),
    has_shape reset_obs n_env height width num_channels ->
    (1 <= nstack)%nat ->
    (e < n_env)%nat -> (h < height)%nat -> (w < width)%nat ->
    pixel (initial_stack n_env height width num_channels nstack reset_obs) e h w
    = repeat 0%Z (num_channels * nstack - num_channels) ++ pixel reset_obs e h w.
Proof.
  intros n H W C nstack reset_obs e h w Hobs Hstack He Hh Hw.
  unfold initial_stack.
  destruct (update_obs_dims C (np_zeros n H W (C * nstack)) reset_obs None
              n H W (C * nstack) C (np_zeros_shape _ _ _ _) Hobs
              ltac:(discriminate)) as (_ & _ & _ & Hpx).
  rewrite (Hpx e h w He Hh Hw), np_zeros_pixel by assumption.
  rewrite (roll_then_set_last C nstack) by apply repeat_length.
  rewrite skipn_repeat.
  destruct (has_shape_pixel _ _ _ _ _ e h w Hobs He Hh Hw) as (_ & _ & _ & Hu).
  now rewrite uint8_id.
Qed.

Lemma initial_stack_pixels_witness :
  pixel (initial_stack 1 1 1 1 3 [[[[9]]]]%Z) 0 0 0
  = repeat 0%Z (1 * 3 - 1) ++ pixel [[[[9]]]]%Z 0 0 0.
Proof.
  apply (initial_stack_pixels 1 1 1 1 3 [[[[9]]]]%Z 0 0 0); try solve_shape; lia.
Defined.

Lemma update_obs_shape :
  forall (num_channels nstack n_env height width : nat)
         (self_obs obs : list (list (list (list Z)))) (dones : option (list bool)),
    has_shape self_obs n_env height width (num_channels * nstack) ->
    has_shape obs n_env height width num_channels ->
    (forall d, dones = Some d -> length d = n_env) ->
    (1 <= nstack)%nat ->
    has_shape (update_obs num_channels self_obs obs dones)
              n_env height width (num_channels * nstack).
Proof.
  intros C nstack n H W self_obs obs dones Hself Hobs Hd Hn.
  destruct (update_obs_dims C self_obs obs dones n H W (C * nstack) C Hself Hobs Hd)
    as (Hlen & Hrows & Hcols & Hpx).
  apply has_shape_intro; try assumption.
  intros e h w He Hh Hw. rewrite (Hpx e h w He Hh Hw).
  destruct (has_shape_pixel _ _ _ _ _ e h w Hself He Hh Hw) as (_ & _ & HsL & Hsu).
  destruct (has_shape_pixel _ _ _ _ _ e h w Hobs He Hh Hw) as (_ & _ & HoL & Hou).
  destruct dones as [d|].
  - rewrite masked_pixel by assumption.
    rewrite (roll_then_set_last C nstack)
      by (destruct (nth e d false); [now rewrite repeat_length | assumption]).
    apply stacked_pixel; try assumption.
    + destruct (nth e d false); [now rewrite repeat_length | assumption].
    + destruct (nth e d false); [|assumption].
      apply Forall_forall. intros x Hx. apply repeat_spec in Hx. subst x.
      unfold is_uint8. lia.
  - rewrite (roll_then_set_last C nstack) by assumption.
    now apply stacked_pixel.
Qed.

(** X14: [update_obs] keeps the stack a uint8 array of shape
    [[n_env, height, width, C * nstack]], with or without done flags. *)
Theorem update_obs_keeps_shape :
  forall (num_channels nstack n_env height width : nat)
         (self_obs obs : list (list (list (list Z)))) (dones : option (list bool)),
    has_shape self_obs n_env height width (num_channels * nstack) ->
    has_shape obs n_env height width num_channels ->
    (forall d, dones = Some d -> length d = n_env) ->
    (1 <= nstack)%nat ->
    has_shape (update_obs num_channels self_obs obs dones)
              n_env height width (num_channels * nstack).
Proof.
  intros C nstack n H W self_obs obs dones Hself Hobs Hd Hn.
  now apply update_obs_shape.
Qed.

Lemma update_obs_keeps_shape_witness :
  has_shape (update_obs 1 [[[[5; 6]]]; [[[7; 8]]]]%Z [[[[9]]]; [[[10]]]]%Z
                        (Some [true; false]))
            2 1 1 (1 * 2).
Proof.
  apply (update_obs_keeps_shape 1 2 2 1 1 [[[[5; 6]]]; [[[7; 8]]]]%Z
           [[[[9]]]; [[[10]]]]%Z (Some [true; false])); try solve_shape.
  intros d Hd. injection Hd as <-. reflexivity.
Defined.

Lemma update_obs_many_pixels (C nstack n H W : nat)
      (calls : list (list (list (list (list Z))) * list bool))
      (self_obs : list (list (list (list Z)))) (e h w : nat) :
  has_shape self_obs n H W (C * nstack) ->
  Forall (fun call => has_shape (fst call) n H W C
                      /\ length (snd call) = n
                      /\ nth e (snd call) false = false) calls ->
  (length calls <= nstack)%nat ->
  (e < n)%nat -> (h < H)%nat -> (w < W)%nat ->
  pixel (update_obs_many C self_obs calls) e h w
  = skipn (length calls * C) (pixel self_obs e h w)
    ++ concat (map (fun call => pixel (fst call) e h w) calls).
Proof.
  intros Hself Hcalls. revert self_obs Hself.
  induction Hcalls as [|call calls (Hobs & Hd & Hnot) Hrest IH];
    intros self_obs Hself Hlen He Hh Hw.
  - cbn. now rewrite app_nil_r.
  - cbn [length] in Hlen.
    assert (Hd' : forall d, Some (snd call) = Some d -> length d = n)
      by (intros d Heq; injection Heq as <-; exact Hd).
    unfold update_obs_many in *. cbn [fold_left].
    rewrite IH; try assumption; try lia;
      [|apply update_obs_shape; try assumption; lia].
    destruct (update_obs_dims C self_obs (fst call) (Some (snd call))
                n H W (C * nstack) C Hself Hobs Hd') as (_ & _ & _ & Hpx).
    rewrite (Hpx e h w He Hh Hw), Hnot.
    destruct (has_shape_pixel _ _ _ _ _ e h w Hself He Hh Hw) as (_ & _ & HsL & Hsu).
    destruct (has_shape_pixel _ _ _ _ _ e h w Hobs He Hh Hw) as (_ & _ & HoL & Hou).
    rewrite mask_done_false by assumption.
    rewrite (roll_then_set_last C nstack) by assumption.
    rewrite uint8_id by assumption.
    rewrite skipn_app, skipn_skipn, length_skipn, HsL.
    replace (length calls * C - (C * nstack - C))%nat with 0%nat by nia.
    cbn [skipn map concat length]. rewrite <- app_assoc.
    f_equal. f_equal. lia.
Qed.

(** X15: for an environment that did not finish during the last [nstack]
    calls of [update_obs], the stack holds exactly the frames of these
    calls, oldest first; nothing of the earlier stack is left. *)
Theorem stack_holds_last_frames :
  forall (num_channels nstack n_env height width : nat)
         (calls : list (list (list (list (list Z))) * list bool))
         (self_obs : list (list (list (list Z)))) (e h w : nat),
    has_shape self_obs n_env height width (num_channels * nstack) ->
    Forall (fun call => has_shape (fst call) n_env height width num_channels
                        /\ length (snd call) = n_env
                        /\ nth e (snd call) false = false) calls ->
    length calls = nstack ->
    (e < n_env)%nat -> (h < height)%nat -> (w < width)%nat ->
    pixel (update_obs_many num_channels self_obs calls) e h w
    = concat (map (fun call => pixel (fst call) e h w) calls).
Proof.
  intros C nstack n H W calls self_obs e h w Hself Hcalls Hlen He Hh Hw.
  rewrite (update_obs_many_pixels C nstack n H W) by (assumption || lia).
  destruct (has_shape_pixel _ _ _ _ _ e h w Hself He Hh Hw) as (_ & _ & HsL & _).
  rewrite skipn_all2 by (rewrite HsL, Hlen; lia).
  reflexivity.
Qed.

Lemma stack_holds_last_frames_witness :
  pixel (update_obs_many 1 [[[[5; 6]]]]%Z
                         [([[[[7]]]]%Z, [false]); ([[[[8]]]]%Z, [false])]) 0 0 0
  = concat (map (fun call => pixel (fst call) 0 0 0)
                [([[[[7]]]]%Z, [false]); ([[[[8]]]]%Z, [false])]).
Proof.
  apply (stack_holds_last_frames 1 2 1 1 1
           [([[[[7]]]]%Z, [false]); ([[[[8]]]]%Z, [false])] [[[[5; 6]]]]%Z 0 0 0);
    try solve_shape; try lia; try reflexivity.
Defined.

(** ** More on rollout collection *)

Lemma swapaxes_rows_length {A : Type} (n : nat) (rows : list (list A)) :
  Forall (fun row => length row = length rows) (swapaxes n rows).
Proof.
  induction rows as [|r rows IH]; cbn [swapaxes length].
  - apply Forall_forall. intros row Hrow. apply repeat_spec in Hrow. now subst.
  - apply (Forall_map2_r (fun row => length row = length rows)); [|exact IH].
    intros x y Hy. cbn. now rewrite Hy.
Qed.

Section RunShapes.
Variables (Action Mus State EnvSt : Type).
Variables (n_env n_steps nstack num_channels : nat).
Variable env_step :
  EnvSt -> list Action -> list (list (list (list Z))) * list R * list bool * EnvSt.
Variable model_step :
  list (list (list (list Z))) -> State -> list bool -> list Action * list Mus * State.

Lemma run_loop_lengths (n : nat) (self : runner State EnvSt) (mb : minibatch Action Mus) :
  let st := run_loop num_channels env_step model_step n self mb in
  length (enc_obs _ _ (snd st)) = (length (enc_obs _ _ mb) + n)%nat
  /\ length (mb_obs _ _ (snd st)) = (length (mb_obs _ _ mb) + n)%nat
  /\ length (mb_actions _ _ (snd st)) = (length (mb_actions _ _ mb) + n)%nat
  /\ length (mb_mus _ _ (snd st)) = (length (mb_mus _ _ mb) + n)%nat
  /\ length (mb_dones (snd st)) = (length (mb_dones mb) + n)%nat
  /\ length (mb_rewards (snd st)) = (length (mb_rewards mb) + n)%nat.
Proof.
  revert self mb. induction n as [|n IH]; intros self mb; cbn [run_loop].
  - cbn. repeat split; lia.
  - destruct (model_step _ _ _) as [[actions mus] states].
    destruct (env_step _ _) as [[[obs rewards] dones] env'].
    match goal with
    | |- context [run_loop _ _ _ n ?s ?m] =>
        destruct (IH s m) as (H1 & H2 & H3 & H4 & H5 & H6)
    end.
    cbn zeta in *. rewrite H1, H2, H3, H4, H5, H6.
    cbn [enc_obs mb_obs mb_actions mb_mus mb_dones mb_rewards].
    rewrite !length_app. cbn [length]. repeat split; lia.
Qed.

Lemma run_loop_obs_first (n : nat) (self : runner State EnvSt) (mb : minibatch Action Mus) :
  let st := run_loop num_channels env_step model_step n self mb in
  exists rest,
    mb_obs _ _ (snd st) ++ [r_obs (fst st)] = mb_obs _ _ mb ++ r_obs self :: rest.
Proof.
  revert self mb. induction n as [|n IH]; intros self mb; cbn [run_loop].
  - exists []. reflexivity.
  - destruct (model_step _ _ _) as [[actions mus] states].
    destruct (env_step _ _) as [[[obs rewards] dones] env'].
    match goal with
    | |- context [run_loop _ _ _ n ?s ?m] => destruct (IH s m) as [rest Hrest]
    end.
    cbn zeta in *. rewrite Hrest. cbn [mb_obs r_obs].
    eexists. rewrite <- app_assoc. reflexivity.
Qed.

(** X16: every row of what [run] returns has the length of its kind: the
    stacked observations and the masks [n_steps + 1], the actions, rewards,
    behaviour probabilities and dones [n_steps], and the unstacked
    observations [nstack + n_steps]. *)
Theorem run_output_lengths :
  forall (self : runner State EnvSt),
    (1 <= nstack)%nat ->
    let out := fst (run n_env n_steps nstack num_channels env_step model_step self) in
    Forall (fun row => length row = (nstack + n_steps)%nat) (out_enc_obs out)
    /\ Forall (fun row => length row = (n_steps + 1)%nat) (out_obs out)
    /\ Forall (fun row => length row = n_steps) (out_actions out)
    /\ Forall (fun row => length row = n_steps) (out_rewards out)
    /\ Forall (fun row => length row = n_steps) (out_mus out)
    /\ Forall (fun row => length row = n_steps) (out_dones out)
    /\ Forall (fun row => length row = (n_steps + 1)%nat) (out_masks out).
Proof.
  intros self Hstack out. unfold out, run.
  pose proof (run_loop_lengths n_steps self
                (mk_minibatch Action Mus (np_split_axis3 (r_obs self) nstack)
                              [] [] [] [] [])) as Hlen.
  cbn zeta in Hlen.
  destruct (run_loop num_channels env_step model_step n_steps self _) as [self' mb].
  cbn [fst snd enc_obs mb_obs mb_actions mb_mus mb_dones mb_rewards length] in Hlen.
  destruct Hlen as (H1 & H2 & H3 & H4 & H5 & H6).
  unfold np_split_axis3 in H1. rewrite length_map, length_seq in H1.
  cbn [fst out_enc_obs out_obs out_actions out_rewards out_mus out_dones out_masks].
  assert (Hsw : forall (A : Type) (rows : list (list A)) (k : nat),
             length rows = k -> Forall (fun row => length row = k) (swapaxes n_env rows)).
  { intros A rows k <-. apply swapaxes_rows_length. }
  repeat split; try (apply Hsw; rewrite ?length_app; cbn [length]; lia).
  apply Forall_map.
  eapply Forall_impl; [|apply (Hsw _ _ (n_steps + 1)%nat);
                        rewrite length_app; cbn [length]; lia].
  intros row Hrow. cbv beta in Hrow. rewrite length_skipn. lia.
Qed.
End RunShapes.

Section RunTwice.
Variables (Action Mus State EnvSt : Type).
Variables (n_env n_steps nstack num_channels : nat).
Variable env_step :
  EnvSt -> list Action -> list (list (list (list Z))) * list R * list bool * EnvSt.
Variable model_step :
  list (list (list (list Z))) -> State -> list bool -> list Action * list Mus * State.

Lemma run_boundaries (self : runner State EnvSt) (e : nat) :
  let r := run n_env n_steps nstack num_channels env_step model_step self in
  ((e < length (out_masks (fst r)))%nat ->
   nth 0 (nth e (out_masks (fst r)) []) false = nth e (r_dones self) false
   /\ nth n_steps (nth e (out_masks (fst r)) []) false
      = nth e (r_dones (snd r)) false)
  /\ ((e < length (out_obs (fst r)))%nat ->
      nth 0 (nth e (out_obs (fst r)) []) [] = nth e (r_obs self) []
      /\ nth n_steps (nth e (out_obs (fst r)) []) [] = nth e (r_obs (snd r)) []).
Proof.
  intros r. unfold r, run.
  pose proof (run_loop_lengths Action Mus State EnvSt num_channels env_step model_step
                n_steps self
                (mk_minibatch Action Mus (np_split_axis3 (r_obs self) nstack)
                              [] [] [] [] [])) as Hlen.
  pose proof (run_loop_trace Action Mus State EnvSt num_channels env_step model_step
                n_steps self
                (mk_minibatch Action Mus (np_split_axis3 (r_obs self) nstack)
                              [] [] [] [] [])) as Htrace.
  pose proof (run_loop_obs_first Action Mus State EnvSt num_channels env_step model_step
                n_steps self
                (mk_minibatch Action Mus (np_split_axis3 (r_obs self) nstack)
                              [] [] [] [] [])) as Hobs.
  cbn zeta in Hlen, Htrace, Hobs.
  destruct (run_loop num_channels env_step model_step n_steps self _) as [self' mb].
  cbn [fst snd enc_obs mb_obs mb_actions mb_mus mb_dones mb_rewards length app]
    in Hlen, Htrace, Hobs.
  destruct Hlen as (_ & Hlen_obs & _ & _ & Hlen_dones & _).
  destruct Htrace as [Hd _]. destruct Hobs as [rest Ho].
  cbn [fst snd out_masks out_obs]. split; intros He.
  - rewrite (swapaxes_nth false) by assumption.
    split.
    + rewrite Hd. reflexivity.
    + rewrite (nth_map_gen _ [] false) by (rewrite length_app; cbn [length]; lia).
      rewrite app_nth2 by lia. rewrite Hlen_dones, Nat.sub_diag. reflexivity.
  - rewrite (swapaxes_nth []) by assumption.
    split.
    + rewrite Ho. reflexivity.
    + rewrite (nth_map_gen _ [] []) by (rewrite length_app; cbn [length]; lia).
      rewrite app_nth2 by lia. rewrite Hlen_obs, Nat.sub_diag. reflexivity.
Qed.

(** X17: two consecutive calls of [run] overlap at their boundary: the last
    mask and the last stacked observation of the first rollout are the first
    mask and the first stacked observation of the second one. *)
Theorem consecutive_rollouts_overlap :
  forall (self : runner State EnvSt) (e : nat),
    let r1 := run n_env n_steps nstack num_channels env_step model_step self in
    let r2 := run n_env n_steps nstack num_channels env_step model_step (snd r1) in
    (e < length (out_masks (fst r1)))%nat -> (e < length (out_masks (fst r2)))%nat ->
    (e < length (out_obs (fst r1)))%nat -> (e < length (out_obs (fst r2)))%nat ->
    nth n_steps (nth e (out_masks (fst r1)) []) false
    = nth 0 (nth e (out_masks (fst r2)) []) false
    /\ nth n_steps (nth e (out_obs (fst r1)) []) []
       = nth 0 (nth e (out_obs (fst r2)) []) [].
Proof.
  intros self e r1 r2 Hm1 Hm2 Ho1 Ho2.
  destruct (run_boundaries self e) as [Hmask1 Hobs1].
  destruct (run_boundaries (snd r1) e) as [Hmask2 Hobs2].
  fold r1 in Hmask1, Hobs1. fold r2 in Hmask2, Hobs2.
  destruct (Hmask1 Hm1) as [_ Hlast_m]. destruct (Hmask2 Hm2) as [Hfirst_m _].
  destruct (Hobs1 Ho1) as [_ Hlast_o]. destruct (Hobs2 Ho2) as [Hfirst_o _].
  split; congruence.
Qed.
End RunTwice.

Lemma consecutive_rollouts_overlap_witness :
  let r1 := run 1 1 1 1 ending_env_step constant_model_step fresh_runner in
  let r2 := run 1 1 1 1 ending_env_step constant_model_step (snd r1) in
  nth 1 (nth 0 (out_masks (fst r1)) []) false
  = nth 0 (nth 0 (out_masks (fst r2)) []) false
  /\ nth 1 (nth 0 (out_obs (fst r1)) []) []
     = nth 0 (nth 0 (out_obs (fst r2)) []) [].
Proof.
  apply (consecutive_rollouts_overlap unit unit unit unit 1 1 1 1
           ending_env_step constant_model_step fresh_runner 0); cbn; lia.
Defined.

(** ** Runs of learn, whatever their outcome *)

Section LearnAnyOutcome.
Variables (Rollout Batch Buffer Rng RunnerSt Session : Type).
Variable runner_run : RunnerSt -> result (Rollout * RunnerSt).
Variable rollout_batch : Rollout -> Batch.
Variable buffer_new : Buffer.
Variable buffer_put : Buffer -> Rollout -> result Buffer.
Variable buffer_has_atleast : Buffer -> nat -> bool.
Variable buffer_get : Buffer -> Rng -> result (Batch * Rng).
Variable np_random_poisson : Q -> Rng -> nat * Rng.
Variable train_step : Session -> Batch -> nat -> result Session.
Variable callback : option (nat -> result unit).
Variables (replay_ratio : Q) (replay_start n_batch verbose log_interval : nat).

Let World : Type := world Rollout Batch Buffer Rng RunnerSt Session.
Let Act (A : Type) : Type := M Rollout Batch Buffer Rng RunnerSt Session A.
Let possible : bool -> event Rollout Batch -> Prop :=
  possible_event Rollout Batch Session train_step replay_ratio verbose log_interval.
Let iteration : nat -> Act unit :=
  learn_iteration Rollout Batch Buffer Rng RunnerSt Session runner_run rollout_batch
                  buffer_put buffer_has_atleast buffer_get np_random_poisson train_step
                  callback replay_ratio replay_start n_batch verbose log_interval.
Let keeps_when (b0 : bool) {A : Type} (m : Act A) : Prop :=
  forall w : World,
    has_buffer w = b0 ->
    has_buffer (fst (m w)) = b0
    /\ exists evs, w_trace (fst (m w)) = w_trace w ++ evs /\ Forall (possible b0) evs.

Lemma keeps_ret (b0 : bool) {A : Type} (a : A) :
  keeps_when b0 (ret Rollout Batch Buffer Rng RunnerSt Session a).
Proof.
  intros w Hw. split; [exact Hw|]. exists []. cbn. now rewrite app_nil_r.
Qed.

Lemma keeps_raise (b0 : bool) {A : Type} (e : exn) :
  keeps_when b0 (raise Rollout Batch Buffer Rng RunnerSt Session (A := A) e).
Proof.
  intros w Hw. split; [exact Hw|]. exists []. cbn. now rewrite app_nil_r.
Qed.

Lemma keeps_bind (b0 : bool) {A B : Type} (m : Act A) (k : A -> Act B) :
  keeps_when b0 m -> (forall a, keeps_when b0 (k a)) ->
  keeps_when b0 (bindM Rollout Batch Buffer Rng RunnerSt Session m k).
Proof.
  intros Hm Hk w Hw. unfold bindM.
  destruct (Hm w Hw) as (Hb1 & evs1 & Ht1 & Hp1).
  destruct (m w) as [w1 [a|e]]; cbn [fst] in *.
  - destruct (Hk a w1 Hb1) as (Hb2 & evs2 & Ht2 & Hp2).
    split; [exact Hb2|]. exists (evs1 ++ evs2).
    split; [rewrite Ht2, Ht1; now rewrite app_assoc | now apply Forall_app].
  - split; [exact Hb1|]. now exists evs1.
Qed.

Lemma keeps_emit (b0 : bool) (e : event Rollout Batch) :
  possible b0 e -> keeps_when b0 (emit Rollout Batch Buffer Rng RunnerSt Session e).
Proof.
  intros He w Hw. split; [exact Hw|]. exists [e]. split; [reflexivity|].
  now constructor.
Qed.

Lemma keeps_do_run (b0 : bool) :
  keeps_when b0 (do_run Rollout Batch Buffer Rng RunnerSt Session runner_run).
Proof.
  intros w Hw. unfold do_run.
  destruct (runner_run (w_runner w)) as [[r rs]|e]; cbn [fst].
  - split; [exact Hw|]. exists [EvRun r]. split; [reflexivity|].
    constructor; [exact I | constructor].
  - split; [exact Hw|]. exists []. now rewrite app_nil_r.
Qed.

Lemma keeps_do_put (b0 : bool) (r : Rollout) :
  keeps_when b0 (do_put Rollout Batch Buffer Rng RunnerSt Session buffer_put r).
Proof.
  intros w Hw. unfold do_put, has_buffer in *.
  destruct (w_buffer w) as [b|] eqn:Hb.
  - destruct (buffer_put b r) as [b'|e]; cbn [fst w_buffer w_trace].
    + split; [exact Hw|]. exists [EvPut r]. split; [reflexivity|].
      constructor; [symmetry; exact Hw | constructor].
    + rewrite ?Hb. split; [exact Hw|]. exists []. now rewrite app_nil_r.
  - cbn [fst]. rewrite ?Hb. split; [exact Hw|]. exists []. now rewrite app_nil_r.
Qed.

Lemma keeps_do_train_on (b0 : bool) (b : Batch) (steps : nat) :
  keeps_when b0 (do_train Rollout Batch Buffer Rng RunnerSt Session train_step
                          OnPolicy b steps).
Proof.
  intros w Hw. unfold do_train.
  destruct (train_step (w_session w) b steps) as [s|e] eqn:Ht; cbn [fst].
  - split; [exact Hw|]. exists [EvTrain OnPolicy b steps]. split; [reflexivity|].
    constructor; [|constructor]. cbn. now exists (w_session w), s.
  - split; [exact Hw|]. exists []. now rewrite app_nil_r.
Qed.

Lemma keeps_do_train_off (b : Batch) (steps : nat) :
  replay_enabled replay_ratio = true ->
  keeps_when true (do_train Rollout Batch Buffer Rng RunnerSt Session train_step
                            OffPolicy b steps).
Proof.
  intros Hen w Hw. unfold do_train.
  destruct (train_step (w_session w) b steps) as [s|e] eqn:Ht; cbn [fst].
  - split; [exact Hw|]. exists [EvTrain OffPolicy b steps]. split; [reflexivity|].
    constructor; [|constructor]. cbn. repeat split; try assumption.
    now exists (w_session w), s.
  - split; [exact Hw|]. exists []. now rewrite app_nil_r.
Qed.

Lemma keeps_do_callback (b0 : bool) (steps : nat) :
  keeps_when b0 (do_callback Rollout Batch Buffer Rng RunnerSt Session callback steps).
Proof.
  unfold do_callback. destruct callback as [f|]; [|apply keeps_ret].
  intros w Hw. destruct (f steps) as [u|e].
  - now apply keeps_emit.
  - cbn [fst]. split; [exact Hw|]. exists []. now rewrite app_nil_r.
Qed.

Lemma keeps_do_log (b0 : bool) (steps : nat) :
  keeps_when b0 (do_log Rollout Batch Buffer Rng RunnerSt Session n_batch verbose
                        log_interval steps).
Proof.
  unfold do_log. destruct (Nat.leb_spec 1 verbose) as [Hv|Hv]; [|apply keeps_ret].
  destruct (Nat.eqb_spec log_interval 0) as [Hl|Hl]; [apply keeps_raise|].
  destruct (Nat.eqb ((steps / n_batch) mod log_interval) 0); [|apply keeps_ret].
  apply keeps_emit. cbn. now split.
Qed.

Lemma keeps_do_get :
  replay_enabled replay_ratio = true ->
  keeps_when true (do_get Rollout Batch Buffer Rng RunnerSt Session buffer_get).
Proof.
  intros Hen w Hw. unfold do_get, has_buffer in *.
  destruct (w_buffer w) as [b|] eqn:Hb; [|discriminate].
  destruct (buffer_get b (w_rng w)) as [[batch rng]|e]; cbn [fst w_buffer w_trace].
  - rewrite ?Hb. split; [reflexivity|]. exists [EvGet batch]. split; [reflexivity|].
    constructor; [now split | constructor].
  - rewrite ?Hb. split; [reflexivity|]. exists []. now rewrite app_nil_r.
Qed.

Lemma keeps_replay_loop (k steps : nat) :
  replay_enabled replay_ratio = true ->
  keeps_when true (replay_loop Rollout Batch Buffer Rng RunnerSt Session buffer_get
                               train_step k steps).
Proof.
  intros Hen. induction k as [|k IH]; cbn [replay_loop]; [apply keeps_ret|].
  apply keeps_bind; [now apply keeps_do_get|]. intros batch.
  apply keeps_bind; [now apply keeps_do_train_off|]. intros _. exact IH.
Qed.

Lemma keeps_replay_block (b0 : bool) (steps : nat) :
  replay_enabled replay_ratio = true ->
  keeps_when b0
    (bindM Rollout Batch Buffer Rng RunnerSt Session
       (do_has_atleast Rollout Batch Buffer Rng RunnerSt Session buffer_has_atleast
                       replay_start)
       (fun enough =>
          if enough then
            bindM Rollout Batch Buffer Rng RunnerSt Session
              (do_poisson Rollout Batch Buffer Rng RunnerSt Session np_random_poisson
                          replay_ratio)
              (fun samples_number =>
                 replay_loop Rollout Batch Buffer Rng RunnerSt Session buffer_get
                             train_step samples_number steps)
          else ret Rollout Batch Buffer Rng RunnerSt Session tt)).
Proof.
  intros Hen. destruct b0.
  - apply keeps_bind.
    + intros w Hw. unfold do_has_atleast, has_buffer in *.
      destruct (w_buffer w) as [b|] eqn:Hb; [|discriminate].
      cbn [fst emit w_buffer w_trace]. rewrite ?Hb. split; [reflexivity|].
      eexists. split; [reflexivity|]. constructor; [now split | constructor].
    + intros [|]; [|apply keeps_ret].
      apply keeps_bind; [|intros k; now apply keeps_replay_loop].
      intros w Hw. unfold do_poisson.
      destruct (np_random_poisson replay_ratio (w_rng w)) as [k rng].
      cbn [fst]. split; [exact Hw|]. exists [EvPoisson k]. split; [reflexivity|].
      constructor; [now split | constructor].
  - intros w Hw. unfold bindM, do_has_atleast, has_buffer in *.
    destruct (w_buffer w) as [b|] eqn:Hb; [discriminate|].
    cbn [fst]. rewrite ?Hb. split; [reflexivity|]. exists []. now rewrite app_nil_r.
Qed.

Lemma keeps_iteration (b0 : bool) (steps : nat) : keeps_when b0 (iteration steps).
Proof.
  unfold iteration, learn_iteration.
  apply keeps_bind; [apply keeps_do_run|]. intros r.
  apply keeps_bind; [now apply keeps_emit|]. intros _.
  apply keeps_bind; [apply keeps_do_put|]. intros _.
  apply keeps_bind; [apply keeps_do_train_on|]. intros _.
  apply keeps_bind; [apply keeps_do_callback|]. intros _.
  apply keeps_bind; [apply keeps_do_log|]. intros _.
  destruct (replay_enabled replay_ratio) eqn:Hen; [|apply keeps_ret].
  now apply keeps_replay_block.
Qed.

Lemma keeps_for_each (b0 : bool) (l : list nat) :
  keeps_when b0 (for_each Rollout Batch Buffer Rng RunnerSt Session l iteration).
Proof.
  induction l as [|x l IH]; cbn [for_each]; [apply keeps_ret|].
  apply keeps_bind; [apply keeps_iteration|]. intros _. exact IH.
Qed.

Lemma learn_possible_events (total_timesteps : nat) (w : World) :
  let out := learn Rollout Batch Buffer Rng RunnerSt Session runner_run rollout_batch
                   buffer_new buffer_put buffer_has_atleast buffer_get np_random_poisson
                   train_step callback replay_ratio replay_start n_batch verbose
                   log_interval total_timesteps w in
  exists evs,
    w_trace (fst out) = w_trace w ++ evs
    /\ Forall (possible (replay_enabled replay_ratio)) evs.
Proof.
  cbn zeta. unfold learn.
  destruct (py_range total_timesteps n_batch) as [steps_list|e].
  - set (w0 := mk_world (w_runner w)
                        (if replay_enabled replay_ratio then Some buffer_new else None)
                        (w_rng w) (w_session w) (w_trace w)).
    assert (Hb : has_buffer w0 = replay_enabled replay_ratio).
    { unfold has_buffer, w0. cbn. now destruct (replay_enabled replay_ratio). }
    destruct (keeps_for_each _ steps_list w0 Hb) as (_ & evs & Ht & Hp).
    exists evs. split; [exact Ht | exact Hp].
  - exists []. cbn. split; [now rewrite app_nil_r | constructor].
Qed.
End LearnAnyOutcome.

Section LearnMore.
Variables (Rollout Batch Buffer Rng RunnerSt Session : Type).
Variable runner_run : RunnerSt -> result (Rollout * RunnerSt).
Variable rollout_batch : Rollout -> Batch.
Variable buffer_new : Buffer.
Variable buffer_put : Buffer -> Rollout -> result Buffer.
Variable buffer_has_atleast : Buffer -> nat -> bool.
Variable buffer_get : Buffer -> Rng -> result (Batch * Rng).
Variable np_random_poisson : Q -> Rng -> nat * Rng.
Variable train_step : Session -> Batch -> nat -> result Session.
Variable callback : option (nat -> result unit).
Variables (replay_ratio : Q) (replay_start n_batch verbose log_interval : nat).

Let World : Type := world Rollout Batch Buffer Rng RunnerSt Session.
Let run_learn (total_timesteps : nat) (w : World) : World * result unit :=
  learn Rollout Batch Buffer Rng RunnerSt Session runner_run rollout_batch
        buffer_new buffer_put buffer_has_atleast buffer_get np_random_poisson
        train_step callback replay_ratio replay_start n_batch verbose
        log_interval total_timesteps w.
Let iteration : nat -> World -> World * result unit :=
  learn_iteration Rollout Batch Buffer Rng RunnerSt Session runner_run rollout_batch
                  buffer_put buffer_has_atleast buffer_get np_random_poisson train_step
                  callback replay_ratio replay_start n_batch verbose log_interval.

(** X18: with [replay_ratio <= 0], whatever the outcome of [learn], the
    replay buffer is never used: no [put], [has_atleast] or [get], no Poisson
    draw and no off-policy training step is recorded. *)
Theorem learn_without_replay :
  forall (total_timesteps : nat) (w : World),
    replay_enabled replay_ratio = false ->
    exists evs,
      w_trace (fst (run_learn total_timesteps w)) = w_trace w ++ evs
      /\ Forall (fun e => is_replay_event e = false) evs.
Proof.
  intros total w Hoff.
  destruct (learn_possible_events Rollout Batch Buffer Rng RunnerSt Session runner_run
              rollout_batch buffer_new buffer_put buffer_has_atleast buffer_get
              np_random_poisson train_step callback replay_ratio replay_start n_batch
              verbose log_interval total w) as (evs & Ht & Hp).
  exists evs. split; [exact Ht|].
  eapply Forall_impl; [|exact Hp]. rewrite Hoff.
  intros [r|r|r|[|] b k|k|k|a|k|b] He; cbn in *;
    try reflexivity; try discriminate; destruct He; discriminate.
Qed.

(** X19: with [verbose = 0], whatever the outcome of [learn], nothing is
    logged. *)
Theorem learn_quiet_when_not_verbose :
  forall (total_timesteps : nat) (w : World),
    verbose = 0%nat ->
    exists evs,
      w_trace (fst (run_learn total_timesteps w)) = w_trace w ++ evs
      /\ Forall (fun e => is_log_event e = false) evs.
Proof.
  intros total w Hv.
  destruct (learn_possible_events Rollout Batch Buffer Rng RunnerSt Session runner_run
              rollout_batch buffer_new buffer_put buffer_has_atleast buffer_get
              np_random_poisson train_step callback replay_ratio replay_start n_batch
              verbose log_interval total w) as (evs & Ht & Hp).
  exists evs. split; [exact Ht|].
  eapply Forall_impl; [|exact Hp].
  intros [r|r|r|s b k|k|k|a|k|b] He; cbn in *; try reflexivity. lia.
Qed.

Lemma iteration_needs_train_step (steps : nat) (w w' : World) :
  (forall s b k, exists e, train_step s b k = Err e) ->
  iteration steps w <> (w', Ok tt).
Proof.
  intros Hfail H. unfold iteration, learn_iteration in H.
  apply bindM_ok in H. destruct H as (w1 & r & _ & H).
  apply bindM_ok in H. destruct H as (w2 & [] & _ & H).
  apply bindM_ok in H. destruct H as (w3 & [] & _ & H).
  apply bindM_ok in H. destruct H as (w4 & [] & Htrain & _).
  unfold do_train in Htrain.
  destruct (Hfail (w_session w3) (rollout_batch r) steps) as [e He].
  rewrite He in Htrain. discriminate.
Qed.

(** X20: when [_train_step] raises on every call (as it does without trust
    region), [learn] never completes a training step, and if there is
    anything to do ([total_timesteps > 0]) it does not return normally. *)
Theorem learn_with_failing_train_step :
  forall (total_timesteps : nat) (w : World),
    (forall s b k, exists e, train_step s b k = Err e) ->
    (exists evs,
       w_trace (fst (run_learn total_timesteps w)) = w_trace w ++ evs
       /\ Forall (fun e => is_train_event e = false) evs)
    /\ ((0 < total_timesteps)%nat ->
        snd (run_learn total_timesteps w) <> Ok tt).
Proof.
  intros total w Hfail. split.
  - destruct (learn_possible_events Rollout Batch Buffer Rng RunnerSt Session runner_run
                rollout_batch buffer_new buffer_put buffer_has_atleast buffer_get
                np_random_poisson train_step callback replay_ratio replay_start n_batch
                verbose log_interval total w) as (evs & Ht & Hp).
    exists evs. split; [exact Ht|].
    eapply Forall_impl; [|exact Hp].
    intros [r|r|r|[|] b k|k|k|a|k|b] He; cbn in *; try reflexivity.
    + destruct He as (s & s' & Hok). destruct (Hfail s b k) as [e He]. congruence.
    + destruct He as (_ & _ & s & s' & Hok). destruct (Hfail s b k) as [e He].
      congruence.
  - intros Hpos. unfold run_learn, learn, py_range.
    destruct (Nat.eqb_spec n_batch 0) as [Hz|Hnz]; [cbn; discriminate|].
    assert (Hsteps : (1 <= (total + n_batch - 1) / n_batch)%nat).
    { apply Nat.div_le_lower_bound; lia. }
    destruct ((total + n_batch - 1) / n_batch)%nat as [|m]; [lia|].
    cbn [seq map for_each]. fold iteration.
    intros Hok.
    match type of Hok with
    | snd (bindM _ _ _ _ _ _ ?m ?k ?w0) = _ =>
        destruct (bindM Rollout Batch Buffer Rng RunnerSt Session m k w0)
          as [w' res] eqn:Hrun
    end.
    cbn [snd] in Hok. subst res.
    apply bindM_ok in Hrun. destruct Hrun as (w1 & [] & Hit & _).
    now apply iteration_needs_train_step in Hit.
Qed.

Lemma on_policy_steps_app (xs ys : list (event Rollout Batch)) :
  on_policy_steps (xs ++ ys) = on_policy_steps xs ++ on_policy_steps ys.
Proof. apply flat_map_app. Qed.

Lemma on_policy_steps_of_trains (evs : list (event Rollout Batch)) :
  on_policy_steps evs
  = flat_map (fun t : train_site * Batch * nat =>
                match t with
                | (OnPolicy, _, steps) => [steps]
                | _ => []
                end) (trains evs).
Proof.
  induction evs as [|e evs IH]; [reflexivity|].
  change (e :: evs) with ([e] ++ evs).
  rewrite on_policy_steps_app, trains_app, flat_map_app, IH.
  f_equal. destruct e as [r|r|r|[|] b k|k|k|a|k|b]; reflexivity.
Qed.

Lemma all_iterations_on_policy_steps (l : list nat) (w w' : World) :
  all_iterations Rollout Batch Buffer Rng RunnerSt Session
    (on_policy_then_replay Rollout Batch Buffer Rng RunnerSt Session runner_run
       rollout_batch buffer_has_atleast np_random_poisson replay_ratio replay_start)
    iteration l w w' ->
  exists evs, w_trace w' = w_trace w ++ evs /\ on_policy_steps evs = l.
Proof.
  induction 1 as [w|x l w w1 w2 Hx HP Hrest (evs2 & Ht2 & Hs2)].
  - exists []. now rewrite app_nil_r.
  - destruct HP as (r & evs & pre & batches & Ht & _ & _ & Htrains & _).
    exists (evs ++ evs2). split; [rewrite Ht2, Ht; now rewrite app_assoc|].
    rewrite on_policy_steps_app, Hs2, on_policy_steps_of_trains, Htrains.
    cbn [flat_map]. f_equal.
    clear. induction batches as [|b bs IH]; [reflexivity|]. exact IH.
Qed.

(** X21: a run of [learn] that returns has made one on-policy training step
    for each of the [ceil(total_timesteps / n_batch)] iterations, with the
    step counters [0, n_batch, 2 * n_batch, ...] in this order. *)
Theorem learn_on_policy_step_counters :
  forall (total_timesteps : nat) (w w' : World),
    run_learn total_timesteps w = (w', Ok tt) ->
    exists evs,
      w_trace w' = w_trace w ++ evs
      /\ on_policy_steps evs
         = map (fun i => i * n_batch)%nat
               (seq 0 ((total_timesteps + n_batch - 1) / n_batch)).
Proof.
  intros total w w' H. unfold run_learn, learn in H.
  unfold py_range in H.
  destruct (Nat.eqb n_batch 0); [discriminate|].
  apply (for_each_all_iterations Rollout Batch Buffer Rng RunnerSt Session runner_run
           rollout_batch buffer_put buffer_has_atleast buffer_get np_random_poisson
           train_step callback replay_ratio replay_start n_batch verbose log_interval)
    in H.
  apply all_iterations_on_policy_steps in H. exact H.
Qed.

End LearnMore.

Lemma learn_without_replay_witness :
  exists evs,
    w_trace (fst (learn nat nat (list nat) nat nat (list nat)
                        toy_runner_run (fun r => r) [] toy_buffer_put
                        toy_buffer_has_atleast toy_buffer_get toy_poisson toy_train_step
                        None (0 # 1)%Q 2 2 0 100 4 toy_world))
    = w_trace toy_world ++ evs
    /\ Forall (fun e => is_replay_event e = false) evs.
Proof.
  apply (learn_without_replay nat nat (list nat) nat nat (list nat)
           toy_runner_run (fun r => r) [] toy_buffer_put toy_buffer_has_atleast
           toy_buffer_get toy_poisson toy_train_step None (0 # 1)%Q 2 2 0 100 4
           toy_world).
  reflexivity.
Defined.

Lemma learn_quiet_when_not_verbose_witness :
  exists evs,
    w_trace (fst (learn nat nat (list nat) nat nat (list nat)
                        toy_runner_run (fun r => r) [] toy_buffer_put
                        toy_buffer_has_atleast toy_buffer_get toy_poisson toy_train_step
                        None (4 # 1)%Q 2 2 0 100 4 toy_world))
    = w_trace toy_world ++ evs
    /\ Forall (fun e => is_log_event e = false) evs.
Proof.
  apply (learn_quiet_when_not_verbose nat nat (list nat) nat nat (list nat)
           toy_runner_run (fun r => r) [] toy_buffer_put toy_buffer_has_atleast
           toy_buffer_get toy_poisson toy_train_step None (4 # 1)%Q 2 2 0 100 4
           toy_world).
  reflexivity.
Defined.

Lemma learn_with_failing_train_step_witness :
  (exists evs,
     w_trace (fst (learn nat nat (list nat) nat nat (list nat)
                         toy_runner_run (fun r => r) [] toy_buffer_put
                         toy_buffer_has_atleast toy_buffer_get toy_poisson
                         (fun _ _ _ => Err TypeError)
                         None (4 # 1)%Q 2 2 0 100 4 toy_world))
     = w_trace toy_world ++ evs
     /\ Forall (fun e => is_train_event e = false) evs)
  /\ ((0 < 4)%nat ->
      snd (learn nat nat (list nat) nat nat (list nat)
                 toy_runner_run (fun r => r) [] toy_buffer_put
                 toy_buffer_has_atleast toy_buffer_get toy_poisson
                 (fun _ _ _ => Err TypeError)
                 None (4 # 1)%Q 2 2 0 100 4 toy_world)
      <> Ok tt).
Proof.
  apply (learn_with_failing_train_step nat nat (list nat) nat nat (list nat)
           toy_runner_run (fun r => r) [] toy_buffer_put toy_buffer_has_atleast
           toy_buffer_get toy_poisson (fun _ _ _ => Err TypeError) None (4 # 1)%Q
           2 2 0 100 4 toy_world).
  intros s b k. now exists TypeError.
Defined.

Lemma learn_on_policy_step_counters_witness :
  exists evs,
    w_trace (fst toy_learn) = w_trace toy_world ++ evs
    /\ on_policy_steps evs = map (fun i => i * 2)%nat (seq 0 ((4 + 2 - 1) / 2)).
Proof.
  apply (learn_on_policy_step_counters nat nat (list nat) nat nat (list nat)
           toy_runner_run (fun r => r) [] toy_buffer_put toy_buffer_has_atleast
           toy_buffer_get toy_poisson toy_train_step None (4 # 1)%Q 2 2 0 100 4
           toy_world (fst toy_learn)).
  vm_compute. reflexivity.
Defined.

Lemma run_output_lengths_witness :
  let out := fst (run 1 1 1 1 ending_env_step constant_model_step fresh_runner) in
  Forall (fun row => length row = (1 + 1)%nat) (out_enc_obs out)
  /\ Forall (fun row => length row = (1 + 1)%nat) (out_obs out)
  /\ Forall (fun row => length row = 1%nat) (out_actions out)
  /\ Forall (fun row => length row = 1%nat) (out_rewards out)
  /\ Forall (fun row => length row = 1%nat) (out_mus out)
  /\ Forall (fun row => length row = 1%nat) (out_dones out)
  /\ Forall (fun row => length row = (1 + 1)%nat) (out_masks out).
Proof.
  apply (run_output_lengths unit unit unit unit 1 1 1 1
           ending_env_step constant_model_step fresh_runner).
  lia.
Defined.
